(** * The browser tracking script (script.js): a shallow embedding

    The script is one immediately-invoked function.  Its closure variables
    (CONFIG, eventQueue, lastMouseSample, session, ...) become the record
    [vars]; everything it reaches in the host page (document.cookie, the
    console, the network, listeners, timers, window._waInitialized, the
    clock) becomes the record [browser].  Every function of the script is a
    computation in a state-and-exception monad [M] over the pair.

    Conventions.
    - A JavaScript string is a [string]; each character stands for one
      UTF-16 code unit below U+0100.
    - A JavaScript number is a double: an integer [Z], another finite
      double m / 2^k, an infinity or NaN; the two zeros are one value,
      since nothing the script does tells them apart.  The readings of
      the clock and the measures of the page are integers of magnitude
      below 2^53, on which sums and differences are exact and are
      written in [Z]; what comes from the cookie or from the caller of
      the API is any number, and the arithmetic on it ([++] on
      pageViews, minus on startTime) and the division of the scroll
      depth round as doubles do, in the module [Double].
    - A cookie name is a string without operator of a regular
      expression ([cookie_name]), as 'wa_session' is one: Cookie.get
      builds a regular expression from the name, which then matches the
      name character by character.
    - JSON.parse, decodeURIComponent and ToNumber on strings and objects are
      built-ins of the engine whose results on arbitrary input the script
      does not control; they are the three fields of the class [Engine].
      Their inverses used by the script (JSON.stringify,
      encodeURIComponent) are defined here. *)

From Stdlib Require Import String Ascii ZArith NArith List Lia Bool Arith.
From Stdlib Require Import DecimalString Decimal DecimalZ RelationClasses Sorted.
Import ListNotations.

Open Scope string_scope.
Open Scope list_scope.
Open Scope Z_scope.

Notation "a +++ b" := (String.append a b) (at level 60, right associativity).

(** ** Strings *)

Module JsString.

Definition code (c : ascii) : N := N_of_ascii c.

(** WhiteSpace and LineTerminator code units below U+0100: TAB, LF, VT,
    FF, CR, SP and NBSP.  This is the set removed by trim and matched by
    the regular-expression class \s. *)
Definition is_white_space (c : ascii) : bool :=
  let n := code c in
  (((9 <=? n) && (n <=? 13)) || (n =? 32) || (n =? 160))%N.

Fixpoint trimStart (s : string) : string :=
  match s with
  | EmptyString => EmptyString
  | String c s' => if is_white_space c then trimStart s' else s
  end.

Fixpoint trimEnd (s : string) : string :=
  match s with
  | EmptyString => EmptyString
  | String c s' =>
      match trimEnd s' with
      | EmptyString => if is_white_space c then EmptyString
                       else String c EmptyString
      | t => String c t
      end
  end.

(** String.prototype.trim *)
Definition trim (s : string) : string := trimEnd (trimStart s).

(** s.slice(0, n) for a non-negative n: the first n code units. *)
Definition slice0 (n : nat) (s : string) : string := substring 0 n s.

Definition lower_char (c : ascii) : ascii :=
  let n := code c in
  if (((65 <=? n) && (n <=? 90))
      || ((192 <=? n) && (n <=? 222) && negb (n =? 215)))%N
  then ascii_of_N (n + 32) else c.

(** String.prototype.toLowerCase *)
Fixpoint toLowerCase (s : string) : string :=
  match s with
  | EmptyString => EmptyString
  | String c s' => String (lower_char c) (toLowerCase s')
  end.

(** Array.prototype.join *)
Fixpoint join (sep : string) (l : list string) : string :=
  match l with
  | [] => ""
  | [x] => x
  | x :: rest => x +++ sep +++ join sep rest
  end.

(** s.split(/\s+/): the pieces between maximal runs of white space.
    [cur] is the piece being read (reversed), [in_ws] tells that the
    previous character belonged to a separator. *)
Fixpoint rev_string (acc s : string) : string :=
  match s with
  | EmptyString => acc
  | String c s' => rev_string (String c acc) s'
  end.

Fixpoint split_ws_go (cur : string) (in_ws : bool) (s : string)
  : list string :=
  match s with
  | EmptyString => [rev_string "" cur]
  | String c s' =>
      if is_white_space c then
        if in_ws then split_ws_go cur true s'
        else rev_string "" cur :: split_ws_go "" true s'
      else split_ws_go (String c cur) false s'
  end.

Definition split_ws (s : string) : list string := split_ws_go "" false s.

Definition hex_digit (upper : bool) (n : N) : ascii :=
  if (n <? 10)%N then ascii_of_N (48 + n)
  else ascii_of_N ((if upper then 55 else 87) + n).

(** Number.prototype.toString() of an integer, radix 10. *)
Definition of_Z (n : Z) : string := NilZero.string_of_int (Z.to_int n).

Definition quote : ascii := ascii_of_nat 34.
Definition backslash : ascii := ascii_of_nat 92.

End JsString.

Example trim_example :
  JsString.trim "  a b  " = "a b" /\ JsString.trim "   " = "".
Proof. split; reflexivity. Qed.

Example split_ws_example :
  JsString.split_ws "btn  btn-primary large" = ["btn"; "btn-primary"; "large"]
  /\ JsString.split_ws "" = [""].
Proof. split; reflexivity. Qed.

Example toLowerCase_example : JsString.toLowerCase "DIV" = "div".
Proof. reflexivity. Qed.

(** ** Numbers *)

Module Double.
Import JsString.

(** A number: a finite double, the value m * 2^e, an infinity or NaN.
    The two zeros are not told apart. *)
Inductive t : Type :=
| Fin (m e : Z)
| Inf (negative : bool)
| NaN.

(** The integer nearest to n / d, the even one of two equally near;
    0 <= n and 0 < d. *)
Definition half_even (n d : Z) : Z :=
  let q := n / d in
  let r := n mod d in
  if 2 * r <? d then q
  else if d <? 2 * r then q + 1
  else if Z.even q then q else q + 1.

(** floor (log2 (n / d)) for 0 < n and 0 < d. *)
Definition ilog2 (n d : Z) : Z :=
  if d <=? n then Z.log2 (n / d) else - Z.log2_up ((d + n - 1) / n).

(** The double nearest to n / d for 0 < n and 0 < d, ties to the even
    significand: 53 bits, exponents from -1074, overflow to infinity. *)
Definition nearest (negative : bool) (n d : Z) : t :=
  let e := Z.max (ilog2 n d - 52) (-1074) in
  let m := if 0 <=? e then half_even n (d * 2 ^ e)
           else half_even (n * 2 ^ (- e)) d in
  if (971 <? e) || ((e =? 971) && (2 ^ 53 <=? m)) then Inf negative
  else Fin (if negative then - m else m) e.

(** The double nearest to the quotient n / d of two integers, d not 0. *)
Definition of_ratio (n d : Z) : t :=
  if n =? 0 then Fin 0 0
  else nearest (Bool.eqb (n <? 0) (0 <? d) ) (Z.abs n) (Z.abs d).

(** An integer of magnitude up to 2^53 is a double. *)
Definition of_int (n : Z) : t :=
  if Z.abs n <=? 2 ^ 53 then Fin n 0 else of_ratio n 1.

(** The double nearest to m * 2^e. *)
Definition of_dyadic (m e : Z) : t :=
  if 0 <=? e then of_int (m * 2 ^ e) else of_ratio m (2 ^ (- e)).

Definition is_zero (a : t) : bool :=
  match a with
  | Fin m _ => m =? 0
  | _ => false
  end.

Definition opp (a : t) : t :=
  match a with
  | Fin m e => Fin (- m) e
  | Inf s => Inf (negb s)
  | NaN => NaN
  end.

Definition add (a b : t) : t :=
  match a, b with
  | NaN, _ | _, NaN => NaN
  | Inf s, Inf s' => if Bool.eqb s s' then Inf s else NaN
  | Inf s, Fin _ _ | Fin _ _, Inf s => Inf s
  | Fin m e, Fin m' e' =>
      let e0 := Z.min e e' in
      of_dyadic (m * 2 ^ (e - e0) + m' * 2 ^ (e' - e0)) e0
  end.

Definition sub (a b : t) : t := add a (opp b).

Definition negative (a : t) : bool :=
  match a with
  | Fin m _ => m <? 0
  | Inf s => s
  | NaN => false
  end.

Definition mul (a b : t) : t :=
  match a, b with
  | NaN, _ | _, NaN => NaN
  | Inf s, x | x, Inf s =>
      if is_zero x then NaN else Inf (xorb s (negative x))
  | Fin m e, Fin m' e' => of_dyadic (m * m') (e + e')
  end.

Definition div (a b : t) : t :=
  match a, b with
  | NaN, _ | _, NaN => NaN
  | Inf _, Inf _ => NaN
  | Inf s, Fin m _ => Inf (xorb s (m <? 0))
  | Fin _ _, Inf _ => Fin 0 0
  | Fin m e, Fin m' e' =>
      if m' =? 0 then (if m =? 0 then NaN else Inf (m <? 0))
      else if e' <=? e then of_ratio (m * 2 ^ (e - e')) m'
           else of_ratio m (m' * 2 ^ (e' - e))
  end.

(** Math.round: the nearest integer, the upper one of two equally
    near. *)
Definition round (a : t) : t :=
  match a with
  | Fin m e =>
      if 0 <=? e then a
      else Fin ((2 * m + 2 ^ (- e)) / 2 ^ (1 - e)) 0
  | _ => a
  end.

Definition eqb (a b : t) : bool :=
  match a, b with
  | Fin m e, Fin m' e' =>
      let e0 := Z.min e e' in
      m * 2 ^ (e - e0) =? m' * 2 ^ (e' - e0)
  | Inf s, Inf s' => Bool.eqb s s'
  | _, _ => false
  end.

(** The integer a finite double is, when it is one. *)
Definition to_Z (a : t) : option Z :=
  match a with
  | Fin m e =>
      if 0 <=? e then Some (m * 2 ^ e)
      else if m mod 2 ^ (- e) =? 0 then Some (m / 2 ^ (- e)) else None
  | _ => None
  end.

(** *** Number::toString *)

(** The number of decimal digits of the integer part of n / d, for
    n / d >= 1, and for n / d < 1 minus the number of zeros after the
    point: the [n] with 10^(n-1) <= n / d < 10^n. *)
Fixpoint magnitude_up (fuel : nat) (n d : Z) (k : Z) : Z :=
  match fuel with
  | O => k
  | S fuel => if d <=? n then k else magnitude_up fuel (10 * n) d (k - 1)
  end.

Definition magnitude (n d : Z) : Z :=
  if d <=? n then Z.of_nat (String.length (of_Z (n / d)))
  else magnitude_up 400 (10 * n) d 0.

(** [10^k * n / d] as a quotient of integers. *)
Definition scaled (n d k : Z) : Z * Z :=
  if 0 <=? k then (n * 10 ^ k, d) else (n, d * 10 ^ (- k)).

(** The digits s with k digits for which s * 10^(p - k) is a decimal
    nearest to n / d among those that the double [x] is nearest to, when
    there is one. *)
Definition digits_at (x : t) (n d p k : Z) : option (Z * Z) :=
  let (a, b) := scaled n d (k - p) in
  let lo := a / b in
  let hi := lo + 1 in
  let back (s : Z) : bool :=
    let (a', b') := scaled s 1 (p - k) in
    (10 ^ (k - 1) <=? s) && eqb (of_ratio a' b') x in
  let pick (s : Z) : option (Z * Z) :=
    if s =? 10 ^ k then Some (10 ^ (k - 1), p + 1) else Some (s, p) in
  let r := a mod b in
  match back lo, back hi with
  | true, true =>
      if 2 * r <? b then pick lo
      else if b <? 2 * r then pick hi
      else if Z.even lo then pick lo else pick hi
  | true, false => pick lo
  | false, true => pick hi
  | false, false => None
  end.

Fixpoint shortest (fuel : nat) (x : t) (n d p k : Z) : Z * Z * Z :=
  match fuel with
  | O => (n / d, k, p)
  | S fuel =>
      match digits_at x n d p k with
      | Some (s, p') => (s, k, p')
      | None => shortest fuel x n d p (k + 1)
      end
  end.

Fixpoint zeros (n : nat) : string :=
  match n with
  | O => ""
  | S n => String "0" (zeros n)
  end.

(** Number::toString of a positive finite double n / d: the shortest
    digits that read back as the double, written out or with an exponent
    as the magnitude asks. *)
Definition positive_to_string (x : t) (n d : Z) : string :=
  let '(s, k, p) := shortest 17 x n d (magnitude n d) 1 in
  let ds := of_Z s in
  let kn := Z.to_nat k in
  if (k <=? p) && (p <=? 21) then ds +++ zeros (Z.to_nat (p - k))
  else if (0 <? p) && (p <=? 21) then
    substring 0 (Z.to_nat p) ds +++ "." +++ substring (Z.to_nat p) kn ds
  else if (-6 <? p) && (p <=? 0) then
    "0." +++ zeros (Z.to_nat (- p)) +++ ds
  else
    let ex := (if 0 <=? p - 1 then "+" else "-") +++ of_Z (Z.abs (p - 1)) in
    if k =? 1 then ds +++ "e" +++ ex
    else substring 0 1 ds +++ "." +++ substring 1 kn ds +++ "e" +++ ex.

Definition to_string (x : t) : string :=
  match x with
  | NaN => "NaN"
  | Inf s => if s then "-Infinity" else "Infinity"
  | Fin m e =>
      if m =? 0 then "0"
      else
        let (n, d) := if 0 <=? e then (Z.abs m * 2 ^ e, 1)
                      else (Z.abs m, 2 ^ (- e)) in
        (if m <? 0 then "-" else "") +++ positive_to_string (Fin (Z.abs m) e) n d
  end.

(** The double a decimal literal denotes: the digits [s] times
    10^[k]. *)
Definition of_decimal (s k : Z) : t :=
  if s =? 0 then Fin 0 0
  else
    let size := Z.of_nat (String.length (of_Z (Z.abs s))) + k in
    if 400 <? size then Inf (s <? 0)
    else if size <? -400 then Fin 0 0
    else let (a, b) := scaled s 1 k in of_ratio a b.

End Double.

Example double_sum_example :
  Double.to_string
    (Double.add (Double.of_ratio 1 10) (Double.of_ratio 2 10))
  = "0.30000000000000004".
Proof. vm_compute. reflexivity. Qed.

Example double_limit_example :
  Double.to_Z (Double.add (Double.Fin 9007199254740992 0) (Double.Fin 1 0))
  = Some 9007199254740992.
Proof. vm_compute. reflexivity. Qed.

Example double_round_example :
  Double.to_Z (Double.round (Double.of_ratio 5 2)) = Some 3
  /\ Double.to_Z (Double.round (Double.opp (Double.of_ratio 5 2)))
     = Some (-2).
Proof. vm_compute. split; reflexivity. Qed.

(** ** Values *)

(** The JavaScript values the script handles: primitives, plain objects
    (own properties in insertion order) and arrays (elements, plus the
    named properties an assignment may add to the array object). *)
#[warnings="-register-all"]
Inductive value : Type :=
| VUndefined
| VNull
| VBool (b : bool)
| VNum (n : Z)
| VNaN
| VStr (s : string)
| VObj (fields : list (string * value))
| VArr (items : list value) (props : list (string * value))
| VFrac (m : Z) (k : positive)       (* the double m / 2^k, m odd *)
| VInfinity (negative : bool).

Inductive exn : Type :=
| TypeError (msg : string)
| SyntaxError
| URIError.

Inductive outcome (A : Type) : Type :=
| Ok (a : A)
| Throw (e : exn).
Arguments Ok {A} a.
Arguments Throw {A} e.

Module Js.

(** ToBoolean *)
Definition truthy (v : value) : bool :=
  match v with
  | VUndefined | VNull | VNaN => false
  | VBool b => b
  | VNum n => negb (n =? 0)
  | VStr s => negb (String.eqb s "")
  | VObj _ | VArr _ _ | VFrac _ _ | VInfinity _ => true
  end.

(** A number as a double; what is not a number counts as NaN. *)
Definition to_double (v : value) : Double.t :=
  match v with
  | VNum n => Double.Fin n 0
  | VFrac m k => Double.Fin m (- Z.pos k)
  | VInfinity s => Double.Inf s
  | _ => Double.NaN
  end.

(** The value a double is: an integer where it is one, and otherwise
    the quotient of an odd integer by a power of two. *)
Definition of_double (d : Double.t) : value :=
  match d with
  | Double.NaN => VNaN
  | Double.Inf s => VInfinity s
  | Double.Fin m e =>
      match Double.to_Z d with
      | Some n => VNum n
      | None =>
          let g := Z.gcd m (2 ^ (- e)) in
          VFrac (m / g) (Z.to_pos (- e - Z.log2 g))
      end
  end.

Fixpoint lookup (k : string) (fs : list (string * value)) : value :=
  match fs with
  | [] => VUndefined
  | (k', v) :: rest => if String.eqb k k' then v else lookup k rest
  end.

(** Assignment to a property keeps the position of an existing key and
    appends a new one. *)
Fixpoint assoc_set (k : string) (v : value) (fs : list (string * value))
  : list (string * value) :=
  match fs with
  | [] => [(k, v)]
  | (k', v') :: rest =>
      if String.eqb k k' then (k, v) :: rest
      else (k', v') :: assoc_set k v rest
  end.

(** [o.k] for the property names the script reads (none of them is a
    built-in of a primitive wrapper or of Array.prototype). *)
Definition get (o : value) (k : string) : value :=
  match o with
  | VObj fs => lookup k fs
  | VArr _ ps => lookup k ps
  | _ => VUndefined
  end.

(** [o.k = v] in strict mode: a TypeError on a primitive. *)
Definition set (o : value) (k : string) (v : value) : outcome value :=
  match o with
  | VObj fs => Ok (VObj (assoc_set k v fs))
  | VArr items ps => Ok (VArr items (assoc_set k v ps))
  | VUndefined | VNull =>
      Throw (TypeError "Cannot set properties of null or undefined")
  | _ => Throw (TypeError "Cannot create property on a primitive")
  end.

(** Object spread of the own properties of [extra] over [base]:
    the object literal with base properties followed by ...extra. *)
Definition spread (base extra : list (string * value))
  : list (string * value) :=
  fold_left (fun acc kv => assoc_set (fst kv) (snd kv) acc) extra base.

(** [a || b] *)
Definition or (a b : value) : value := if truthy a then a else b.

Definition of_option_string (o : option string) : value :=
  match o with Some s => VStr s | None => VNull end.

End Js.

(** ** JSON.stringify and encodeURIComponent *)

Module Codec.
Import JsString.

Definition escape_char (c : ascii) : string :=
  let n := code c in
  if (n =? 34)%N then String backslash (String quote "")
  else if (n =? 92)%N then String backslash (String backslash "")
  else if (n =? 8)%N then String backslash "b"
  else if (n =? 12)%N then String backslash "f"
  else if (n =? 10)%N then String backslash "n"
  else if (n =? 13)%N then String backslash "r"
  else if (n =? 9)%N then String backslash "t"
  else if (n <? 32)%N then
    String backslash
      ("u00" +++ String (hex_digit false (n / 16))
                   (String (hex_digit false (n mod 16)) ""))
  else String c "".

Fixpoint escape (s : string) : string :=
  match s with
  | EmptyString => ""
  | String c s' => escape_char c +++ escape s'
  end.

(** QuoteJSONString *)
Definition quote_json (s : string) : string :=
  String quote (escape s +++ String quote "").

(** JSON.stringify(v) without indentation; [None] is the result
    undefined.  A property whose value is undefined is left out, an
    array element that is undefined is written null. *)
Fixpoint JSON_stringify (v : value) : option string :=
  match v with
  | VUndefined => None
  | VNull | VNaN | VInfinity _ => Some "null"
  | VBool b => Some (if b then "true" else "false")
  | VNum n => Some (Double.to_string (Double.Fin n 0))
  | VFrac m k => Some (Double.to_string (Double.Fin m (- Z.pos k)))
  | VStr s => Some (quote_json s)
  | VObj fs =>
      let members :=
        (fix members (l : list (string * value)) : list string :=
           match l with
           | [] => []
           | (k, x) :: rest =>
               match JSON_stringify x with
               | Some s => (quote_json k +++ ":" +++ s) :: members rest
               | None => members rest
               end
           end) fs in
      Some ("{" +++ join "," members +++ "}")
  | VArr items _ =>
      let elems :=
        (fix elems (l : list value) : list string :=
           match l with
           | [] => []
           | x :: rest =>
               match JSON_stringify x with
               | Some s => s
               | None => "null"
               end :: elems rest
           end) items in
      Some ("[" +++ join "," elems +++ "]")
  end.

(** The characters encodeURIComponent leaves alone:
    A-Z a-z 0-9 - _ . ! ~ * ' ( ) *)
Definition unreserved (c : ascii) : bool :=
  let n := code c in
  (((65 <=? n) && (n <=? 90)) || ((97 <=? n) && (n <=? 122))
   || ((48 <=? n) && (n <=? 57))
   || (n =? 45) || (n =? 95) || (n =? 46) || (n =? 33) || (n =? 126)
   || (n =? 42) || (n =? 39) || (n =? 40) || (n =? 41))%N.

Definition percent (byte : N) : string :=
  String "%" (String (hex_digit true (byte / 16))
                (String (hex_digit true (byte mod 16)) "")).

(** One code unit: itself when unreserved, otherwise the percent-escaped
    bytes of its UTF-8 encoding (one byte below U+0080, two above). *)
Definition encode_char (c : ascii) : string :=
  let n := code c in
  if unreserved c then String c ""
  else if (n <? 128)%N then percent n
  else percent (192 + n / 64) +++ percent (128 + n mod 64).

Fixpoint encodeURIComponent (s : string) : string :=
  match s with
  | EmptyString => ""
  | String c s' => encode_char c +++ encodeURIComponent s'
  end.

End Codec.

Example stringify_example :
  Codec.JSON_stringify
    (VObj [("id", VStr "ab"); ("pageViews", VNum 3); ("isNew", VBool false);
           ("userId", VUndefined); ("tags", VArr [VNum 1; VUndefined] [])])
  = Some ("{" +++ Codec.quote_json "id" +++ ":" +++ Codec.quote_json "ab"
          +++ "," +++ Codec.quote_json "pageViews" +++ ":3,"
          +++ Codec.quote_json "isNew" +++ ":false,"
          +++ Codec.quote_json "tags" +++ ":[1,null]}").
Proof. reflexivity. Qed.

Example encodeURIComponent_example :
  Codec.encodeURIComponent "{a:1;b c}" = "%7Ba%3A1%3Bb%20c%7D".
Proof. reflexivity. Qed.

(** ** The host page as the script sees it *)

(** A DOM element, with the properties the listeners read. *)
#[warnings="-register-all"]
Inductive element : Type :=
  Element {
    tagName : string;
    el_id : string;
    className : value;             (* a string, or an object on SVG nodes *)
    textContent : option string;   (* null on some node kinds *)
    href : value;
    el_type : value;
    el_name : value;
    is_body : bool;                (* element === document.body *)
    parentElement : option element }.

Record mouse_event : Type := MouseEvent {
  target : element;
  clientX : Z; clientY : Z; pageX : Z; pageY : Z }.

(** What a callback receives from the event loop. *)
Inductive event_arg : Type :=
| NoArg
| MouseArg (e : mouse_event)
| FormArg (type : string) (tgt : element)
| ErrorArg (message source lineno colno : value) (stack : option string).

(** The attributes of the script tag, as getAttribute returns them. *)
Record script_tag : Type := ScriptTag {
  data_site_id : option string;
  data_endpoint : option string;
  data_debug : option string }.

(** Readings of window, document, navigator and screen; the page and the
    user change them between turns of the event loop. *)
Record dom : Type := Dom {
  location_href : string;
  location_pathname : string;
  title : string;
  referrer : string;
  innerWidth : Z;
  innerHeight : Z;
  pageYOffset : Z;
  documentElement_scrollTop : Z;
  body_scrollHeight : Z;
  documentElement_scrollHeight : Z;
  visibilityState : string;
  hidden : bool;
  userAgent : string;
  language : string;
  platform : string;
  screen_width : Z;
  screen_height : Z;
  has_sendBeacon : bool }.

(** The functions of the script that the browser is handed as callbacks.
    An arrow function is a new function object each time its enclosing
    function runs; the number tells the copies apart. *)
Inductive callback : Type :=
| FnTrackClick
| FnTrackMouseMove
| FnTrackScroll
| FnTrackFormInteraction
| FnTrackVisibility
| FnTrackError
| FnFlush
| FnUpdateEngagement
| FnScrollSettled               (* the arrow given to setTimeout in trackScroll *)
| FnBeforeUnload (k : nat)      (* the beforeunload arrow of init *)
| FnHiddenFlush (k : nat)       (* the visibilitychange arrow of init *)
| FnDomReady (k : nat).         (* the DOMContentLoaded arrow of the script *)

Inductive event_target : Type := Document | Window.

Record listener : Type := Listener {
  l_target : event_target;
  l_type : string;
  l_callback : callback;
  l_capture : bool }.

Inductive console_entry : Type :=
| Warn (msg : string)
| Log (msg : string) (args : list value).

(** A hand-off to the network.  The body on the wire is JSON.stringify of
    the payload. *)
Inductive transmission : Type :=
| Beacon (url : value) (payload : value)
| Fetch (url : value) (headers : list (string * value)) (payload : value).

Record browser : Type := Browser {
  dom_of : dom;
  cookie_jar : list (string * string);       (* name, value, in document.cookie order *)
  console : list console_entry;
  network : list transmission;
  listeners : list listener;
  intervals : list (nat * callback * Z);     (* handle, callback, period *)
  timeouts : list (nat * callback * Z);      (* handle, callback, delay *)
  next_handle : nat;
  next_closure : nat;
  onerror : option callback;                 (* window.onerror *)
  waInitialized : value;                     (* window._waInitialized *)
  WebAnalytics : bool;                       (* window.WebAnalytics is installed *)
  clock : nat -> Z;                          (* successive readings of the wall clock *)
  clock_reads : nat;
  random : nat -> Z;                         (* successive draws of Math.random() * 16 | 0 *)
  random_reads : nat;
  readyState : string;
  currentScript : option script_tag;
  querySelector_script : option script_tag }.

(** ** The closure variables of the script *)

(** The name Cookie.get looks a cookie up by.  Cookie.get builds a
    regular expression from the name; the names of the model are those
    the expression matches character by character: they hold none of
    the operators of a regular expression, as 'wa_session' holds none. *)
Definition regexp_operator (c : ascii) : bool :=
  existsb (Ascii.eqb c)
    [JsString.backslash; "^"; "$"; "."; "|"; "?"; "*"; "+";
     "("; ")"; "["; "]"; "{"; "}"]%char.

Fixpoint literal (s : string) : bool :=
  match s with
  | EmptyString => true
  | String c rest => negb (regexp_operator c) && literal rest
  end.

Record cookie_name : Type := CookieName {
  name_text :> string;
  name_literal : literal name_text = true }.

Definition wa_session : cookie_name :=
  {| name_text := "wa_session"; name_literal := eq_refl |}.

Record config : Type := Config {
  siteId : value;
  cookieName : cookie_name;
  cookieExpiry : Z;
  batchSize : Z;
  flushInterval : Z;
  endpoint : value;
  trackMouseMovement : bool;
  mouseSampleRate : Z;
  debug : value }.

Record vars : Type := Vars {
  CONFIG : config;
  eventQueue : list value;
  lastMouseSample : Z;
  session : value;
  scrollTimeout : option nat;
  lastScrollDepth : Z;
  engagementTime : Z;
  lastEngagementCheck : Z;
  isEngaged : bool }.

Record state : Type := State { script : vars; page : browser }.

(** Field updates. *)
Definition set_siteId (x : value) (c : config) : config :=
  Config x (cookieName c) (cookieExpiry c) (batchSize c) (flushInterval c)
         (endpoint c) (trackMouseMovement c) (mouseSampleRate c) (debug c).
Definition set_endpoint (x : value) (c : config) : config :=
  Config (siteId c) (cookieName c) (cookieExpiry c) (batchSize c)
         (flushInterval c) x (trackMouseMovement c) (mouseSampleRate c)
         (debug c).
Definition set_debug (x : value) (c : config) : config :=
  Config (siteId c) (cookieName c) (cookieExpiry c) (batchSize c)
         (flushInterval c) (endpoint c) (trackMouseMovement c)
         (mouseSampleRate c) x.

Definition set_CONFIG (x : config) (v : vars) : vars :=
  Vars x (eventQueue v) (lastMouseSample v) (session v) (scrollTimeout v)
       (lastScrollDepth v) (engagementTime v) (lastEngagementCheck v)
       (isEngaged v).
Definition set_eventQueue (x : list value) (v : vars) : vars :=
  Vars (CONFIG v) x (lastMouseSample v) (session v) (scrollTimeout v)
       (lastScrollDepth v) (engagementTime v) (lastEngagementCheck v)
       (isEngaged v).
Definition set_lastMouseSample (x : Z) (v : vars) : vars :=
  Vars (CONFIG v) (eventQueue v) x (session v) (scrollTimeout v)
       (lastScrollDepth v) (engagementTime v) (lastEngagementCheck v)
       (isEngaged v).
Definition set_session (x : value) (v : vars) : vars :=
  Vars (CONFIG v) (eventQueue v) (lastMouseSample v) x (scrollTimeout v)
       (lastScrollDepth v) (engagementTime v) (lastEngagementCheck v)
       (isEngaged v).
Definition set_scrollTimeout (x : option nat) (v : vars) : vars :=
  Vars (CONFIG v) (eventQueue v) (lastMouseSample v) (session v) x
       (lastScrollDepth v) (engagementTime v) (lastEngagementCheck v)
       (isEngaged v).
Definition set_lastScrollDepth (x : Z) (v : vars) : vars :=
  Vars (CONFIG v) (eventQueue v) (lastMouseSample v) (session v)
       (scrollTimeout v) x (engagementTime v) (lastEngagementCheck v)
       (isEngaged v).
Definition set_engagementTime (x : Z) (v : vars) : vars :=
  Vars (CONFIG v) (eventQueue v) (lastMouseSample v) (session v)
       (scrollTimeout v) (lastScrollDepth v) x (lastEngagementCheck v)
       (isEngaged v).
Definition set_lastEngagementCheck (x : Z) (v : vars) : vars :=
  Vars (CONFIG v) (eventQueue v) (lastMouseSample v) (session v)
       (scrollTimeout v) (lastScrollDepth v) (engagementTime v) x
       (isEngaged v).

Definition set_dom (x : dom) (b : browser) : browser :=
  Browser x (cookie_jar b) (console b) (network b) (listeners b)
          (intervals b) (timeouts b) (next_handle b) (next_closure b)
          (onerror b) (waInitialized b) (WebAnalytics b) (clock b)
          (clock_reads b) (random b) (random_reads b) (readyState b)
          (currentScript b) (querySelector_script b).
Definition set_cookie_jar (x : list (string * string)) (b : browser) : browser :=
  Browser (dom_of b) x (console b) (network b) (listeners b)
          (intervals b) (timeouts b) (next_handle b) (next_closure b)
          (onerror b) (waInitialized b) (WebAnalytics b) (clock b)
          (clock_reads b) (random b) (random_reads b) (readyState b)
          (currentScript b) (querySelector_script b).
Definition set_console (x : list console_entry) (b : browser) : browser :=
  Browser (dom_of b) (cookie_jar b) x (network b) (listeners b)
          (intervals b) (timeouts b) (next_handle b) (next_closure b)
          (onerror b) (waInitialized b) (WebAnalytics b) (clock b)
          (clock_reads b) (random b) (random_reads b) (readyState b)
          (currentScript b) (querySelector_script b).
Definition set_network (x : list transmission) (b : browser) : browser :=
  Browser (dom_of b) (cookie_jar b) (console b) x (listeners b)
          (intervals b) (timeouts b) (next_handle b) (next_closure b)
          (onerror b) (waInitialized b) (WebAnalytics b) (clock b)
          (clock_reads b) (random b) (random_reads b) (readyState b)
          (currentScript b) (querySelector_script b).
Definition set_listeners (x : list listener) (b : browser) : browser :=
  Browser (dom_of b) (cookie_jar b) (console b) (network b) x
          (intervals b) (timeouts b) (next_handle b) (next_closure b)
          (onerror b) (waInitialized b) (WebAnalytics b) (clock b)
          (clock_reads b) (random b) (random_reads b) (readyState b)
          (currentScript b) (querySelector_script b).
Definition set_intervals (x : list (nat * callback * Z)) (b : browser) : browser :=
  Browser (dom_of b) (cookie_jar b) (console b) (network b) (listeners b)
          x (timeouts b) (next_handle b) (next_closure b)
          (onerror b) (waInitialized b) (WebAnalytics b) (clock b)
          (clock_reads b) (random b) (random_reads b) (readyState b)
          (currentScript b) (querySelector_script b).
Definition set_timeouts (x : list (nat * callback * Z)) (b : browser) : browser :=
  Browser (dom_of b) (cookie_jar b) (console b) (network b) (listeners b)
          (intervals b) x (next_handle b) (next_closure b)
          (onerror b) (waInitialized b) (WebAnalytics b) (clock b)
          (clock_reads b) (random b) (random_reads b) (readyState b)
          (currentScript b) (querySelector_script b).
Definition set_next_handle (x : nat) (b : browser) : browser :=
  Browser (dom_of b) (cookie_jar b) (console b) (network b) (listeners b)
          (intervals b) (timeouts b) x (next_closure b)
          (onerror b) (waInitialized b) (WebAnalytics b) (clock b)
          (clock_reads b) (random b) (random_reads b) (readyState b)
          (currentScript b) (querySelector_script b).
Definition set_next_closure (x : nat) (b : browser) : browser :=
  Browser (dom_of b) (cookie_jar b) (console b) (network b) (listeners b)
          (intervals b) (timeouts b) (next_handle b) x
          (onerror b) (waInitialized b) (WebAnalytics b) (clock b)
          (clock_reads b) (random b) (random_reads b) (readyState b)
          (currentScript b) (querySelector_script b).
Definition set_onerror (x : option callback) (b : browser) : browser :=
  Browser (dom_of b) (cookie_jar b) (console b) (network b) (listeners b)
          (intervals b) (timeouts b) (next_handle b) (next_closure b)
          x (waInitialized b) (WebAnalytics b) (clock b)
          (clock_reads b) (random b) (random_reads b) (readyState b)
          (currentScript b) (querySelector_script b).
Definition set_waInitialized (x : value) (b : browser) : browser :=
  Browser (dom_of b) (cookie_jar b) (console b) (network b) (listeners b)
          (intervals b) (timeouts b) (next_handle b) (next_closure b)
          (onerror b) x (WebAnalytics b) (clock b)
          (clock_reads b) (random b) (random_reads b) (readyState b)
          (currentScript b) (querySelector_script b).
Definition set_WebAnalytics (x : bool) (b : browser) : browser :=
  Browser (dom_of b) (cookie_jar b) (console b) (network b) (listeners b)
          (intervals b) (timeouts b) (next_handle b) (next_closure b)
          (onerror b) (waInitialized b) x (clock b)
          (clock_reads b) (random b) (random_reads b) (readyState b)
          (currentScript b) (querySelector_script b).
Definition set_clock_reads (x : nat) (b : browser) : browser :=
  Browser (dom_of b) (cookie_jar b) (console b) (network b) (listeners b)
          (intervals b) (timeouts b) (next_handle b) (next_closure b)
          (onerror b) (waInitialized b) (WebAnalytics b) (clock b)
          x (random b) (random_reads b) (readyState b)
          (currentScript b) (querySelector_script b).
Definition set_random_reads (x : nat) (b : browser) : browser :=
  Browser (dom_of b) (cookie_jar b) (console b) (network b) (listeners b)
          (intervals b) (timeouts b) (next_handle b) (next_closure b)
          (onerror b) (waInitialized b) (WebAnalytics b) (clock b)
          (clock_reads b) (random b) x (readyState b)
          (currentScript b) (querySelector_script b).

(** ** The monad of the script: state and exceptions *)

Definition M (A : Type) : Type := state -> outcome A * state.

Definition ret {A : Type} (a : A) : M A := fun st => (Ok a, st).

Definition bind {A B : Type} (m : M A) (k : A -> M B) : M B :=
  fun st =>
    match m st with
    | (Ok a, st') => k a st'
    | (Throw e, st') => (Throw e, st')
    end.

Notation "x <- m ;; k" := (bind m (fun x => k))
  (at level 61, m at next level, right associativity).
Notation "m ;; k" := (bind m (fun _ => k))
  (at level 61, right associativity).

Definition liftO {A : Type} (o : outcome A) : M A := fun st => (o, st).
Definition gets {A : Type} (f : state -> A) : M A := fun st => (Ok (f st), st).
Definition modify (f : state -> state) : M unit := fun st => (Ok tt, f st).
Definition when (b : bool) (m : M unit) : M unit := if b then m else ret tt.

Definition on_script (f : vars -> vars) (st : state) : state :=
  State (f (script st)) (page st).
Definition on_page (f : browser -> browser) (st : state) : state :=
  State (script st) (f (page st)).

(** The state a computation leaves, whether it returned or threw. *)
Definition exec {A : Type} (m : M A) (st : state) : state := snd (m st).

Definition config_of (st : state) : config := CONFIG (script st).

(** ** Browser primitives *)

(** Date.now(), and the reading taken by new Date(). *)
Definition Date_now : M Z :=
  fun st =>
    let b := page st in
    (Ok (clock b (clock_reads b)),
     on_page (set_clock_reads (S (clock_reads b))) st).

(** Math.random() * 16 | 0, a draw from 0..15. *)
Definition Math_random16 : M Z :=
  fun st =>
    let b := page st in
    (Ok (random b (random_reads b) mod 16),
     on_page (set_random_reads (S (random_reads b))) st).

Definition console_warn (msg : string) : M unit :=
  modify (on_page (fun b => set_console (console b ++ [Warn msg]) b)).

Definition console_log (msg : string) (args : list value) : M unit :=
  modify (on_page (fun b => set_console (console b ++ [Log msg args]) b)).

Definition transmit (t : transmission) : M unit :=
  modify (on_page (fun b => set_network (network b ++ [t]) b)).

Definition listener_eqb (a b : listener) : bool :=
  match l_target a, l_target b with
  | Document, Document | Window, Window => true
  | _, _ => false
  end
  && String.eqb (l_type a) (l_type b)
  && Bool.eqb (l_capture a) (l_capture b)
  && match l_callback a, l_callback b with
     | FnTrackClick, FnTrackClick
     | FnTrackMouseMove, FnTrackMouseMove
     | FnTrackScroll, FnTrackScroll
     | FnTrackFormInteraction, FnTrackFormInteraction
     | FnTrackVisibility, FnTrackVisibility
     | FnTrackError, FnTrackError
     | FnFlush, FnFlush
     | FnUpdateEngagement, FnUpdateEngagement
     | FnScrollSettled, FnScrollSettled => true
     | FnBeforeUnload j, FnBeforeUnload k
     | FnHiddenFlush j, FnHiddenFlush k
     | FnDomReady j, FnDomReady k => Nat.eqb j k
     | _, _ => false
     end.

(** target.addEventListener(type, callback, options): a listener with the
    same type, callback and capture flag is not added twice. *)
Definition addEventListener (t : event_target) (type : string)
    (cb : callback) (capture : bool) : M unit :=
  modify (on_page (fun b =>
    let l := Listener t type cb capture in
    if existsb (listener_eqb l) (listeners b) then b
    else set_listeners (listeners b ++ [l]) b)).

(** The identity of a function object created by evaluating an arrow. *)
Definition new_closure : M nat :=
  fun st =>
    let b := page st in
    (Ok (next_closure b), on_page (set_next_closure (S (next_closure b))) st).

Definition setInterval (cb : callback) (period : Z) : M nat :=
  fun st =>
    let b := page st in
    let h := next_handle b in
    (Ok h, on_page (fun b => set_next_handle (S h)
                      (set_intervals (intervals b ++ [(h, cb, period)]) b)) st).

Definition setTimeout (cb : callback) (delay : Z) : M nat :=
  fun st =>
    let b := page st in
    let h := next_handle b in
    (Ok h, on_page (fun b => set_next_handle (S h)
                      (set_timeouts (timeouts b ++ [(h, cb, delay)]) b)) st).

Definition drop_handle (h : nat) (l : list (nat * callback * Z))
  : list (nat * callback * Z) :=
  filter (fun e => negb (Nat.eqb (fst (fst e)) h)) l.

(** clearTimeout(h); clearTimeout(undefined) does nothing. *)
Definition clearTimeout (h : option nat) : M unit :=
  match h with
  | Some h => modify (on_page (fun b => set_timeouts (drop_handle h (timeouts b)) b))
  | None => ret tt
  end.

(** *** document.cookie *)

Module CookieJar.
Import JsString.

Definition render (nv : string * string) : string :=
  if String.eqb (fst nv) "" then snd nv else fst nv +++ "=" +++ snd nv.

(** The getter of document.cookie. *)
Definition document_cookie (jar : list (string * string)) : string :=
  join "; " (map render jar).

Fixpoint strip_prefix (p s : string) : option string :=
  match p, s with
  | EmptyString, _ => Some s
  | String a p', String b s' =>
      if Ascii.eqb a b then strip_prefix p' s' else None
  | String _ _, EmptyString => None
  end.

(** The longest prefix free of [stop]. *)
Fixpoint take_until (stop : ascii) (s : string) : string :=
  match s with
  | EmptyString => ""
  | String c s' =>
      if Ascii.eqb c stop then "" else String c (take_until stop s')
  end.

(** name=([^;]+) at the start of [s]: the capture. *)
Definition match_here (name s : string) : option string :=
  match strip_prefix (name +++ "=") s with
  | Some rest =>
      match take_until ";" rest with
      | EmptyString => None
      | v => Some v
      end
  | None => None
  end.

(** The leftmost space followed by a match. *)
Fixpoint match_after_space (name s : string) : option string :=
  match s with
  | EmptyString => None
  | String c s' =>
      match (if Ascii.eqb c " " then match_here name s' else None) with
      | Some v => Some v
      | None => match_after_space name s'
      end
  end.

(** The second group of the leftmost match of (^| )name=([^;]+), the
    characters of the name standing for themselves. *)
Definition literal_match (name s : string) : option string :=
  match match_here name s with
  | Some v => Some v
  | None => match_after_space name s
  end.

(** s.match(new RegExp('(^| )' + name + '=([^;]+)')), second group: a
    name without regular-expression operator stands for itself in the
    expression. *)
Definition regexp_match (name : cookie_name) (s : string) : option string :=
  literal_match name s.

Definition is_wsp (c : ascii) : bool :=
  ((code c =? 32) || (code c =? 9))%N.

Fixpoint strip_wsp_start (s : string) : string :=
  match s with
  | EmptyString => ""
  | String c s' => if is_wsp c then strip_wsp_start s' else s
  end.

Fixpoint strip_wsp_end (s : string) : string :=
  match s with
  | EmptyString => ""
  | String c s' =>
      match strip_wsp_end s' with
      | EmptyString => if is_wsp c then "" else String c ""
      | t => String c t
      end
  end.

Definition strip_wsp (s : string) : string :=
  strip_wsp_end (strip_wsp_start s).

(** The text after the first [stop], when there is one. *)
Fixpoint drop_through (stop : ascii) (s : string) : option string :=
  match s with
  | EmptyString => None
  | String c s' => if Ascii.eqb c stop then Some s' else drop_through stop s'
  end.

(** The name and value an assignment to document.cookie carries: the text
    before the first semicolon, cut at its first equals sign, both sides
    stripped of surrounding blanks; without an equals sign the name is
    empty. *)
Definition parse_pair (text : string) : string * string :=
  let nv := take_until ";" text in
  match drop_through "=" nv with
  | Some v => (strip_wsp (take_until "=" nv), strip_wsp v)
  | None => ("", strip_wsp nv)
  end.

Fixpoint store (n v : string) (jar : list (string * string))
  : list (string * string) :=
  match jar with
  | [] => [(n, v)]
  | (n', v') :: rest =>
      if String.eqb n n' then (n, v) :: rest
      else (n', v') :: store n v rest
  end.

Definition evict (n : string) (jar : list (string * string))
  : list (string * string) :=
  filter (fun e => negb (String.eqb (fst e) n)) jar.

(** The setter of document.cookie for a cookie of the page's own path:
    a cookie whose expiry lies in the future replaces the one of the same
    name or is added; one already expired removes it.  [now] is the
    browser's time at the assignment. *)
Definition assign (text : string) (expires now : Z)
    (jar : list (string * string)) : list (string * string) :=
  let (n, v) := parse_pair text in
  if String.eqb n "" && String.eqb v "" then jar
  else if now <? expires then store n v jar
  else evict n jar.

End CookieJar.

Example regexp_match_example :
  CookieJar.regexp_match wa_session "a=b; wa_session=%7B%7D; c=d" = Some "%7B%7D"
  /\ CookieJar.regexp_match wa_session "xwa_session=1; wa_session=; q=2" = None
  /\ CookieJar.regexp_match wa_session "wa_session=1" = Some "1".
Proof. repeat split; reflexivity. Qed.

Example parse_pair_example :
  CookieJar.parse_pair "wa_session=%7B%7D;expires=0;path=/;SameSite=Lax"
  = ("wa_session", "%7B%7D").
Proof. reflexivity. Qed.

(** ** Built-ins of the engine taken as given *)

Class Engine : Type := {
  (** JSON.parse(text); [None] when it throws a SyntaxError. *)
  JSON_parse : string -> option value;
  (** decodeURIComponent(text); [None] when it throws a URIError. *)
  decodeURIComponent : string -> option string;
  (** ToNumber of a string, an object or an array. *)
  ToNumber_other : value -> value }.

(** ** The script *)

Section Script.
Context {E : Engine}.
Import JsString.

(** ToNumber *)
Definition ToNumber (v : value) : value :=
  match v with
  | VNum _ | VFrac _ _ | VInfinity _ => v
  | VNaN | VUndefined => VNaN
  | VNull => VNum 0
  | VBool b => VNum (if b then 1 else 0)
  | VStr _ | VObj _ | VArr _ _ => ToNumber_other v
  end.

(** [a - b] *)
Definition minus (a b : value) : value :=
  Js.of_double
    (Double.sub (Js.to_double (ToNumber a)) (Js.to_double (ToNumber b))).

(** The value stored by [x++]. *)
Definition increment (v : value) : value :=
  Js.of_double (Double.add (Js.to_double (ToNumber v)) (Double.Fin 1 0)).

(** *** Cookie utilities *)

(** Cookie.set(name, value, days).  The text of the expiry date is
    written as its millisecond count; the browser reads the name and the
    value before the first semicolon and takes the time of the
    assignment to be the one new Date() returned. *)
Definition Cookie_set (name : string) (v : value) (days : Z) : M unit :=
  now <- Date_now ;;
  let expires := now + days * 24 * 60 * 60 * 1000 in
  let json := match Codec.JSON_stringify v with
              | Some s => s
              | None => "undefined"
              end in
  let text := name +++ "=" +++ Codec.encodeURIComponent json
              +++ ";expires=" +++ of_Z expires +++ ";path=/;SameSite=Lax" in
  modify (on_page (fun b =>
    set_cookie_jar (CookieJar.assign text expires now (cookie_jar b)) b)).

(** Cookie.get(name): the parsed cookie, or null when there is no match
    or when decoding or parsing throws. *)
Definition Cookie_get (name : cookie_name) : M value :=
  jar <- gets (fun st => cookie_jar (page st)) ;;
  match CookieJar.regexp_match name (CookieJar.document_cookie jar) with
  | Some m2 =>
      match decodeURIComponent m2 with
      | Some text =>
          match JSON_parse text with
          | Some v => ret v
          | None => ret VNull
          end
      | None => ret VNull
      end
  | None => ret VNull
  end.

(** Cookie.delete(name): an assignment whose expiry date is the epoch,
    millisecond 0.  The browser compares it with its own clock at the
    assignment; the script takes no reading. *)
Definition Cookie_delete (name : string) : M unit :=
  modify (on_page (fun b =>
    let text := name +++ "=;expires=Thu, 01 Jan 1970 00:00:00 GMT;path=/" in
    set_cookie_jar
      (CookieJar.assign text 0 (clock b (clock_reads b)) (cookie_jar b)) b)).

(** *** Identifiers *)

(** The replace callback of generateId, run over the template from left
    to right. *)
Fixpoint replace_xy (template : string) : M string :=
  match template with
  | EmptyString => ret ""
  | String c rest =>
      if Ascii.eqb c "x" || Ascii.eqb c "y" then
        r <- Math_random16 ;;
        let v := if Ascii.eqb c "x" then r else Z.lor (Z.land r 3) 8 in
        rest' <- replace_xy rest ;;
        ret (String (hex_digit false (Z.to_N v)) rest')
      else
        rest' <- replace_xy rest ;;
        ret (String c rest')
  end.

Definition generateId : M string :=
  replace_xy "xxxxxxxx-xxxx-4xxx-yxxx-xxxxxxxxxxxx".

(** *** Session management *)

Definition getOrCreateSession : M value :=
  cfg <- gets config_of ;;
  stored <- Cookie_get (cookieName cfg) ;;
  s <- (if negb (Js.truthy stored) then
          id <- generateId ;;
          visitorId <- generateId ;;
          startTime <- Date_now ;;
          ret (VObj [("id", VStr id); ("visitorId", VStr visitorId);
                     ("startTime", VNum startTime); ("pageViews", VNum 0);
                     ("isNew", VBool true)])
        else liftO (Js.set stored "isNew" (VBool false))) ;;
  s <- liftO (Js.set s "pageViews" (increment (Js.get s "pageViews"))) ;;
  now <- Date_now ;;
  s <- liftO (Js.set s "lastActivity" (VNum now)) ;;
  Cookie_set (cookieName cfg) s (cookieExpiry cfg) ;;
  ret s.

(** *** Element paths *)

(** The selectors pushed by the loop of getElementPath, outermost first. *)
Fixpoint path_selectors (e : element) : list string :=
  match e with
  | Element tag id cls _ _ _ _ body parent =>
      if body then []
      else
        let selector := toLowerCase tag in
        if negb (String.eqb id "") then [selector +++ "#" +++ id]
        else
          let selector :=
            match cls with
            | VStr c =>
                if negb (String.eqb c "") then
                  let classes := join "." (firstn 2 (split_ws (trim c))) in
                  if negb (String.eqb classes "")
                  then selector +++ "." +++ classes else selector
                else selector
            | _ => selector
            end in
          match parent with
          | Some p => path_selectors p ++ [selector]
          | None => [selector]
          end
  end.

Definition getElementPath (e : element) : string :=
  if is_body e then "body" else join " > " (path_selectors e).

(** element.closest('a') *)
Fixpoint closest_a (e : element) : option element :=
  match e with
  | Element tag _ _ _ _ _ _ _ parent =>
      if String.eqb (toLowerCase tag) "a" then Some e
      else match parent with
           | Some p => closest_a p
           | None => None
           end
  end.

(** *** Events and the queue *)

Definition site_id_warning : string :=
  "[Analytics] site_id not configured. Call WebAnalytics.setSiteId() or use data-site-id attribute.".

(** The object literal createEvent returns: the common fields, then the
    fields of ...data, which win over a common field of the same name. *)
Definition event_object (type : string) (timestamp : Z) (s : value)
    (d : dom) (data : list (string * value)) : value :=
  VObj (Js.spread
    [("type", VStr type);
     ("timestamp", VNum timestamp);
     ("sessionId", Js.get s "id");
     ("visitorId", Js.get s "visitorId");
     ("page", VObj [("url", VStr (location_href d));
                    ("path", VStr (location_pathname d));
                    ("title", VStr (title d));
                    ("referrer", VStr (referrer d))]);
     ("viewport", VObj [("width", VNum (innerWidth d));
                        ("height", VNum (innerHeight d))])]
    data).

Definition createEvent (type : string) (data : list (string * value))
  : M (option value) :=
  cfg <- gets config_of ;;
  if negb (Js.truthy (siteId cfg)) then
    when (Js.truthy (debug cfg)) (console_warn site_id_warning) ;;
    ret None
  else
    timestamp <- Date_now ;;
    s <- gets (fun st => session (script st)) ;;
    d <- gets (fun st => dom_of (page st)) ;;
    ret (Some (event_object type timestamp s d data)).

(** The batch flush hands to the network. *)
Definition payload_object (events : list value) (cfg : config) (d : dom)
  : value :=
  VObj [("events", VArr events []);
        ("site_id", siteId cfg);
        ("meta", VObj [("userAgent", VStr (userAgent d));
                       ("language", VStr (language d));
                       ("platform", VStr (platform d));
                       ("screenResolution",
                        VStr (of_Z (screen_width d) +++ "x"
                              +++ of_Z (screen_height d)))])].

Definition flush : M unit :=
  q <- gets (fun st => eventQueue (script st)) ;;
  cfg <- gets config_of ;;
  if (Nat.eqb (length q) 0) || negb (Js.truthy (siteId cfg)) then ret tt
  else
    let events := q in
    modify (on_script (set_eventQueue [])) ;;
    d <- gets (fun st => dom_of (page st)) ;;
    let payload := payload_object events cfg d in
    if has_sendBeacon d then transmit (Beacon (endpoint cfg) payload)
    else transmit (Fetch (endpoint cfg)
                     [("Content-Type", VStr "application/json");
                      ("X-Site-ID", siteId cfg)]
                     payload).

Definition trackEvent (type : string) (data : list (string * value))
  : M unit :=
  event <- createEvent type data ;;
  match event with
  | None => ret tt
  | Some event =>
      modify (on_script (fun v => set_eventQueue (eventQueue v ++ [event]) v)) ;;
      cfg <- gets config_of ;;
      when (Js.truthy (debug cfg))
        (console_log "[Analytics]" [VStr type; event]) ;;
      q <- gets (fun st => eventQueue (script st)) ;;
      if batchSize cfg <=? Z.of_nat (length q) then flush else ret tt
  end.

(** *** Listeners *)

Definition trackPageView : M unit :=
  s <- gets (fun st => session (script st)) ;;
  trackEvent "pageview"
    [("isNewVisitor", Js.get s "isNew");
     ("pageViewNumber", Js.get s "pageViews")].

Definition position_of (e : mouse_event) : value :=
  VObj [("x", VNum (clientX e)); ("y", VNum (clientY e));
        ("pageX", VNum (pageX e)); ("pageY", VNum (pageY e))].

(** The text of a click descriptor:
    (target.textContent || '').slice(0, 100).trim() *)
Definition click_text (t : element) : string :=
  let content := match textContent t with
                 | Some s => s
                 | None => ""
                 end in
  trim (slice0 100 content).

Definition click_href (t : element) : value :=
  Js.or (Js.or (href t)
               match closest_a t with
               | Some a => href a
               | None => VUndefined
               end)
        VNull.

(** The object literal trackClick passes to trackEvent. *)
Definition click_data (e : mouse_event) : list (string * value) :=
  let t := target e in
  [("element",
    VObj [("tag", VStr (toLowerCase (tagName t)));
          ("id", Js.or (VStr (el_id t)) VNull);
          ("classes", Js.or (className t) VNull);
          ("text", VStr (click_text t));
          ("href", click_href t);
          ("path", VStr (getElementPath t))]);
   ("position", position_of e)].

Definition trackClick (e : mouse_event) : M unit :=
  trackEvent "click" (click_data e).

Definition trackMouseMove (e : mouse_event) : M unit :=
  now <- Date_now ;;
  last <- gets (fun st => lastMouseSample (script st)) ;;
  cfg <- gets config_of ;;
  if now - last <? mouseSampleRate cfg then ret tt
  else
    modify (on_script (set_lastMouseSample now)) ;;
    trackEvent "mousemove" [("position", position_of e)].

(** Math.round((scrollTop / docHeight) * 100) for docHeight > 0: the
    quotient of the two integers as a double, its product with 100 as a
    double, and the nearest integer, halves upwards. *)
Definition round_percent (scrollTop docHeight : Z) : Z :=
  match Double.to_Z
          (Double.round
             (Double.mul (Double.of_ratio scrollTop docHeight)
                (Double.Fin 100 0))) with
  | Some depth => depth
  | None => 0
  end.

(** 1311 of 2280 pixels is 57.5 percent; the double product is just
    below, so the depth is 57. *)
Example round_percent_example :
  round_percent 1311 2280 = 57
  /\ round_percent 1 8 = 13
  /\ round_percent 570 2280 = 25.
Proof. vm_compute. repeat split; reflexivity. Qed.

(** The arrow function trackScroll hands to setTimeout. *)
Definition scroll_settled : M unit :=
  d <- gets (fun st => dom_of (page st)) ;;
  let scrollTop := if negb (pageYOffset d =? 0) then pageYOffset d
                   else documentElement_scrollTop d in
  let docHeight := Z.max (body_scrollHeight d)
                         (documentElement_scrollHeight d)
                   - innerHeight d in
  let scrollDepth := if 0 <? docHeight
                     then round_percent scrollTop docHeight else 0 in
  last <- gets (fun st => lastScrollDepth (script st)) ;;
  if last + 10 <? scrollDepth then
    modify (on_script (set_lastScrollDepth scrollDepth)) ;;
    trackEvent "scroll" [("depth", VNum scrollDepth);
                         ("position", VNum scrollTop)]
  else ret tt.

Definition trackScroll : M unit :=
  h <- gets (fun st => scrollTimeout (script st)) ;;
  clearTimeout h ;;
  h' <- setTimeout FnScrollSettled 150 ;;
  modify (on_script (set_scrollTimeout (Some h'))).

Definition trackFormInteraction (type : string) (t : element) : M unit :=
  if negb (existsb (String.eqb (tagName t)) ["INPUT"; "TEXTAREA"; "SELECT"])
  then ret tt
  else
    trackEvent "form_interaction"
      [("eventType", VStr type);
       ("element",
        VObj [("tag", VStr (toLowerCase (tagName t)));
              ("type", Js.or (el_type t) VNull);
              ("name", Js.or (el_name t) VNull);
              ("id", Js.or (VStr (el_id t)) VNull);
              ("path", VStr (getElementPath t))])].

Definition trackVisibility : M unit :=
  d <- gets (fun st => dom_of (page st)) ;;
  trackEvent "visibility"
    [("state", VStr (visibilityState d)); ("hidden", VBool (hidden d))].

Definition trackError (message source lineno colno : value)
    (stack : option string) : M unit :=
  trackEvent "error"
    [("message", message); ("source", source);
     ("line", lineno); ("column", colno);
     ("stack", match stack with
               | Some s => Js.or (VStr (slice0 500 s)) VNull
               | None => VNull
               end)].

Definition updateEngagement : M unit :=
  d <- gets (fun st => dom_of (page st)) ;;
  engaged <- gets (fun st => isEngaged (script st)) ;;
  (if engaged && negb (hidden d) then
     now <- Date_now ;;
     modify (on_script (fun v =>
       set_engagementTime (engagementTime v + (now - lastEngagementCheck v)) v))
   else ret tt) ;;
  now <- Date_now ;;
  modify (on_script (set_lastEngagementCheck now)).

(** The beforeunload arrow of init. *)
Definition before_unload : M unit :=
  now <- Date_now ;;
  v <- gets script ;;
  trackEvent "page_exit"
    [("timeOnPage", minus (VNum now) (Js.get (session v) "startTime"));
     ("engagementTime", VNum (engagementTime v));
     ("scrollDepth", VNum (lastScrollDepth v))] ;;
  flush.

(** The visibilitychange arrow of init. *)
Definition hidden_flush : M unit :=
  d <- gets (fun st => dom_of (page st)) ;;
  if hidden d then flush else ret tt.

(** *** Initialization *)

Definition init : M unit :=
  cfg <- gets config_of ;;
  if negb (Js.truthy (siteId cfg)) then
    console_warn "[Analytics] No site_id configured. Add data-site-id attribute to script tag or call WebAnalytics.setSiteId()"
  else
    trackPageView ;;
    addEventListener Document "click" FnTrackClick false ;;
    when (trackMouseMovement cfg)
      (addEventListener Document "mousemove" FnTrackMouseMove false) ;;
    addEventListener Window "scroll" FnTrackScroll false ;;
    addEventListener Document "focus" FnTrackFormInteraction true ;;
    addEventListener Document "blur" FnTrackFormInteraction true ;;
    addEventListener Document "change" FnTrackFormInteraction false ;;
    addEventListener Document "visibilitychange" FnTrackVisibility false ;;
    modify (on_page (set_onerror (Some FnTrackError))) ;;
    setInterval FnFlush (flushInterval cfg) ;;
    k <- new_closure ;;
    addEventListener Window "beforeunload" (FnBeforeUnload k) false ;;
    k' <- new_closure ;;
    addEventListener Document "visibilitychange" (FnHiddenFlush k') false ;;
    cfg <- gets config_of ;;
    s <- gets (fun st => session (script st)) ;;
    when (Js.truthy (debug cfg))
      (console_log "[Analytics] Initialized"
         [VObj [("session", s); ("siteId", siteId cfg)]]).

(** *** The public API, window.WebAnalytics *)

Definition api_track (eventName : string) (data : value) : M unit :=
  trackEvent ("custom:" +++ eventName) [("custom", data)].

Definition api_identify (userId traits : value) : M unit :=
  s <- gets (fun st => session (script st)) ;;
  s <- liftO (Js.set s "userId" userId) ;;
  s <- liftO (Js.set s "traits" traits) ;;
  modify (on_script (set_session s)) ;;
  cfg <- gets config_of ;;
  Cookie_set (cookieName cfg) s (cookieExpiry cfg) ;;
  trackEvent "identify" [("userId", userId); ("traits", traits)].

(** getSession: ({ ...session }), a copy of the own properties. *)
Definition api_getSession : M value :=
  s <- gets (fun st => session (script st)) ;;
  ret match s with
      | VObj fs => VObj fs
      | VArr items ps =>
          VObj (combine (map (fun i => of_Z (Z.of_nat i))
                             (seq 0 (length items))) items ++ ps)
      | _ => VObj []
      end.

Definition api_setEndpoint (url : value) : M unit :=
  modify (on_script (fun v => set_CONFIG (set_endpoint url (CONFIG v)) v)).

Definition setSiteId (s : value) : M unit :=
  modify (on_script (fun v => set_CONFIG (set_siteId s (CONFIG v)) v)) ;;
  initialized <- gets (fun st => waInitialized (page st)) ;;
  if Js.truthy s && negb (Js.truthy initialized) then
    modify (on_page (set_waInitialized (VBool true))) ;;
    init
  else ret tt.

Definition api_getSiteId : M value := gets (fun st => siteId (config_of st)).

Definition api_setDebug (enabled : value) : M unit :=
  modify (on_script (fun v => set_CONFIG (set_debug enabled (CONFIG v)) v)).

(** The DOMContentLoaded arrow. *)
Definition dom_ready : M unit :=
  cfg <- gets config_of ;;
  if Js.truthy (siteId cfg) then
    modify (on_page (set_waInitialized (VBool true))) ;;
    init
  else ret tt.

(** *** The body of the script *)

Definition set_config (f : config -> config) : M unit :=
  modify (on_script (fun v => set_CONFIG (f (CONFIG v)) v)).

(** The block that initializes CONFIG from the data attributes of the
    script tag. *)
Definition read_script_tag : M unit :=
  b <- gets page ;;
  let scriptTag := match currentScript b with
                   | Some t => Some t
                   | None => querySelector_script b
                   end in
  match scriptTag with
  | Some t =>
      match data_site_id t with
      | Some s => when (Js.truthy (VStr s)) (set_config (set_siteId (VStr s)))
      | None => ret tt
      end ;;
      match data_endpoint t with
      | Some s => when (Js.truthy (VStr s)) (set_config (set_endpoint (VStr s)))
      | None => ret tt
      end ;;
      match data_debug t with
      | Some s => when (String.eqb s "true") (set_config (set_debug (VBool true)))
      | None => ret tt
      end
  | None => ret tt
  end.

(** The rest of the script: the session, the engagement timer, the public
    API and the start of tracking. *)
Definition start : M unit :=
  s <- getOrCreateSession ;;
  modify (on_script (set_session s)) ;;
  now <- Date_now ;;
  modify (on_script (set_lastEngagementCheck now)) ;;
  setInterval FnUpdateEngagement 1000 ;;
  modify (on_page (set_WebAnalytics true)) ;;
  ready <- gets (fun st => readyState (page st)) ;;
  if String.eqb ready "loading" then
    k <- new_closure ;;
    addEventListener Document "DOMContentLoaded" (FnDomReady k) false
  else
    cfg <- gets config_of ;;
    if Js.truthy (siteId cfg) then
      modify (on_page (set_waInitialized (VBool true))) ;;
      init
    else ret tt.

Definition main : M unit := read_script_tag ;; start.

End Script.

(** The CONFIG literal and the initial values of the other variables. *)
Definition initial_config : config :=
  {| siteId := VNull;
     cookieName := wa_session;
     cookieExpiry := 30;
     batchSize := 10;
     flushInterval := 5000;
     endpoint := VStr "https://api.publickeyboard.com/api/analytics";
     trackMouseMovement := true;
     mouseSampleRate := 100;
     debug := VBool false |}.

Definition initial_vars : vars :=
  {| CONFIG := initial_config;
     eventQueue := [];
     lastMouseSample := 0;
     session := VUndefined;
     scrollTimeout := None;
     lastScrollDepth := 0;
     engagementTime := 0;
     lastEngagementCheck := 0;
     isEngaged := true |}.

(** ** The event loop *)

(** What the page is when the script starts. *)
Record environment : Type := Environment {
  env_dom : dom;
  env_cookies : list (string * string);
  env_clock : nat -> Z;
  env_random : nat -> Z;
  env_readyState : string;
  env_currentScript : option script_tag;
  env_querySelector_script : option script_tag }.

Definition fresh_browser (e : environment) : browser :=
  {| dom_of := env_dom e;
     cookie_jar := env_cookies e;
     console := [];
     network := [];
     listeners := [];
     intervals := [];
     timeouts := [];
     next_handle := 1;
     next_closure := 0;
     onerror := None;
     waInitialized := VUndefined;
     WebAnalytics := false;
     clock := env_clock e;
     clock_reads := 0;
     random := env_random e;
     random_reads := 0;
     readyState := env_readyState e;
     currentScript := env_currentScript e;
     querySelector_script := env_querySelector_script e |}.

Inductive api_call : Type :=
| ApiTrack (eventName : string) (data : value)
| ApiIdentify (userId traits : value)
| ApiGetSession
| ApiFlush
| ApiSetEndpoint (url : value)
| ApiSetSiteId (s : value)
| ApiGetSiteId
| ApiSetDebug (enabled : value).

Inductive dom_event : Type :=
| EvClick (e : mouse_event)
| EvMouseMove (e : mouse_event)
| EvScroll
| EvFocus (t : element)
| EvBlur (t : element)
| EvChange (t : element)
| EvVisibilityChange
| EvBeforeUnload
| EvDOMContentLoaded.

(** What happens to the page from outside the script. *)
Inductive stimulus : Type :=
| DomEvent (ev : dom_event)
| TimeoutFires (h : nat)
| IntervalFires (h : nat)
| UncaughtError (message source lineno colno : value) (stack : option string)
| HostCall (c : api_call)
| PageChange (d : dom).

(** One run of script code by the event loop, or one change made by the
    browser itself. *)
Inductive turn : Type :=
| Run (cb : callback) (arg : event_arg)
| Call (c : api_call)
| Expire (h : nat)
| SetDom (d : dom).

Definition event_type (ev : dom_event) : string :=
  match ev with
  | EvClick _ => "click"
  | EvMouseMove _ => "mousemove"
  | EvScroll => "scroll"
  | EvFocus _ => "focus"
  | EvBlur _ => "blur"
  | EvChange _ => "change"
  | EvVisibilityChange => "visibilitychange"
  | EvBeforeUnload => "beforeunload"
  | EvDOMContentLoaded => "DOMContentLoaded"
  end.

(** The events the script listens for reach document and window, except
    beforeunload, which is fired at window only. *)
Definition reaches (ev : dom_event) (t : event_target) : bool :=
  match ev, t with
  | EvBeforeUnload, Window => true
  | EvBeforeUnload, Document => false
  | _, _ => true
  end.

Definition event_arg_of (ev : dom_event) : event_arg :=
  match ev with
  | EvClick e | EvMouseMove e => MouseArg e
  | EvFocus t => FormArg "focus" t
  | EvBlur t => FormArg "blur" t
  | EvChange t => FormArg "change" t
  | EvScroll | EvVisibilityChange | EvBeforeUnload | EvDOMContentLoaded => NoArg
  end.

Section EventLoop.
Context {E : Engine}.

Definition run_callback (cb : callback) (arg : event_arg) : M unit :=
  match cb, arg with
  | FnTrackClick, MouseArg e => trackClick e
  | FnTrackMouseMove, MouseArg e => trackMouseMove e
  | FnTrackScroll, _ => trackScroll
  | FnTrackFormInteraction, FormArg type t => trackFormInteraction type t
  | FnTrackVisibility, _ => trackVisibility
  | FnTrackError, ErrorArg m s l c stack => trackError m s l c stack
  | FnFlush, _ => flush
  | FnUpdateEngagement, _ => updateEngagement
  | FnScrollSettled, _ => scroll_settled
  | FnBeforeUnload _, _ => before_unload
  | FnHiddenFlush _, _ => hidden_flush
  | FnDomReady _, _ => dom_ready
  | _, _ => liftO (Throw (TypeError "Cannot read properties of undefined"))
  end.

Definition run_api (c : api_call) : M unit :=
  match c with
  | ApiTrack eventName data => api_track eventName data
  | ApiIdentify userId traits => api_identify userId traits
  | ApiGetSession => api_getSession ;; ret tt
  | ApiFlush => flush
  | ApiSetEndpoint url => api_setEndpoint url
  | ApiSetSiteId s => setSiteId s
  | ApiGetSiteId => api_getSiteId ;; ret tt
  | ApiSetDebug enabled => api_setDebug enabled
  end.

(** An exception ends the turn; what the turn did before it stays. *)
Definition exec_turn (t : turn) (st : state) : state :=
  match t with
  | Run cb arg => exec (run_callback cb arg) st
  | Call c => exec (run_api c) st
  | Expire h => on_page (fun b => set_timeouts (drop_handle h (timeouts b)) b) st
  | SetDom d => on_page (set_dom d) st
  end.

Definition run_turns (ts : list turn) (st : state) : state :=
  fold_left (fun st t => exec_turn t st) ts st.

(** A listener hears an event of its type that reaches its target; focus
    and blur do not bubble, so above the element only a capturing listener
    hears them. *)
Definition hears (ev : dom_event) (l : listener) : bool :=
  String.eqb (l_type l) (event_type ev) && reaches ev (l_target l)
  && match ev with
     | EvFocus _ | EvBlur _ => l_capture l
     | _ => true
     end.

Definition find_handle (h : nat) (l : list (nat * callback * Z))
  : option callback :=
  match find (fun e => Nat.eqb (fst (fst e)) h) l with
  | Some e => Some (snd (fst e))
  | None => None
  end.

(** The turns a stimulus causes: the browser calls the callbacks that
    are registered for it when it arrives, in registration order. *)
Definition turns_of (s : stimulus) (st : state) : list turn :=
  match s with
  | DomEvent ev =>
      map (fun l => Run (l_callback l) (event_arg_of ev))
          (filter (hears ev) (listeners (page st)))
  | TimeoutFires h =>
      match find_handle h (timeouts (page st)) with
      | Some cb => [Expire h; Run cb NoArg]
      | None => []
      end
  | IntervalFires h =>
      match find_handle h (intervals (page st)) with
      | Some cb => [Run cb NoArg]
      | None => []
      end
  | UncaughtError m s l c stack =>
      match onerror (page st) with
      | Some cb => [Run cb (ErrorArg m s l c stack)]
      | None => []
      end
  | HostCall c => if WebAnalytics (page st) then [Call c] else []
  | PageChange d => [SetDom d]
  end.

Definition react (s : stimulus) (st : state) : state :=
  run_turns (turns_of s st) st.

Definition react_all (ss : list stimulus) (st : state) : state :=
  fold_left (fun st s => react s st) ss st.

(** The state of the page once the script has run. *)
Definition page_load (e : environment) : state :=
  exec main (State initial_vars (fresh_browser e)).

End EventLoop.

(** ** A reference engine

    An implementation of the three built-ins on the strings of the
    conventions above (characters below U+0100), to run the model on
    concrete pages: JSON.parse with every number literal, ToNumber with
    every numeric string, decodeURIComponent with the escapes of the
    characters below U+0100. *)

Module Reference.
Import JsString.

Definition hex_value (c : ascii) : option N :=
  let n := code c in
  if ((48 <=? n) && (n <=? 57))%N then Some (n - 48)%N
  else if ((65 <=? n) && (n <=? 70))%N then Some (n - 55)%N
  else if ((97 <=? n) && (n <=? 102))%N then Some (n - 87)%N
  else None.

Definition hex_pair (a b : ascii) : option N :=
  match hex_value a, hex_value b with
  | Some x, Some y => Some (16 * x + y)%N
  | _, _ => None
  end.

(** Percent-escapes are read as UTF-8: one byte below 0x80, or a lead
    byte 0xC2 or 0xC3 with its continuation byte. *)
Fixpoint decode (s : string) : option string :=
  match s with
  | EmptyString => Some ""
  | String c rest =>
      if Ascii.eqb c "%" then
        match rest with
        | String a (String b rest1) =>
            match hex_pair a b with
            | Some byte =>
                if (byte <? 128)%N then
                  option_map (String (ascii_of_N byte)) (decode rest1)
                else if ((byte =? 194) || (byte =? 195))%N then
                  match rest1 with
                  | String p (String a2 (String b2 rest2)) =>
                      if Ascii.eqb p "%" then
                        match hex_pair a2 b2 with
                        | Some cont =>
                            if ((128 <=? cont) && (cont <? 192))%N then
                              option_map
                                (String (ascii_of_N
                                   ((byte - 192) * 64 + (cont - 128))))
                                (decode rest2)
                            else None
                        | None => None
                        end
                      else None
                  | _ => None
                  end
                else None
            | None => None
            end
        | _ => None
        end
      else option_map (String c) (decode rest)
  end.

Definition is_json_ws (c : ascii) : bool :=
  let n := code c in ((n =? 32) || (n =? 9) || (n =? 10) || (n =? 13))%N.

Fixpoint skip_ws (s : string) : string :=
  match s with
  | String c rest => if is_json_ws c then skip_ws rest else s
  | EmptyString => ""
  end.

Definition is_digit (c : ascii) : bool :=
  ((48 <=? code c) && (code c <=? 57))%N.

(** The digits at the head of [s], as a number, their count and the
    rest. *)
Fixpoint digits (acc : Z) (count : nat) (s : string) : Z * nat * string :=
  match s with
  | String c rest =>
      if is_digit c
      then digits (10 * acc + Z.of_N (code c - 48)) (S count) rest
      else (acc, count, s)
  | EmptyString => (acc, count, "")
  end.

Definition leading_zero (s : string) : bool :=
  match s with
  | String c (String d _) => Ascii.eqb c "0" && is_digit d
  | _ => false
  end.

(** An optional fraction: a point and at least one digit.  The digits
    are appended to those read before; their count is returned. *)
Definition fraction_part (acc : Z) (s : string) : option (Z * nat * string) :=
  match s with
  | String c rest =>
      if Ascii.eqb c "." then
        let '(x, count, tail) := digits acc 0 rest in
        if Nat.eqb count 0 then None else Some (x, count, tail)
      else Some (acc, O, s)
  | EmptyString => Some (acc, O, s)
  end.

(** An optional exponent: e or E, an optional sign and at least one
    digit. *)
Definition exponent_part (s : string) : option (Z * string) :=
  match s with
  | String c rest =>
      if Ascii.eqb c "e" || Ascii.eqb c "E" then
        let (negative, body) :=
          match rest with
          | String d rest' =>
              if Ascii.eqb d "-" then (true, rest')
              else if Ascii.eqb d "+" then (false, rest')
              else (false, rest)
          | EmptyString => (false, rest)
          end in
        let '(x, count, tail) := digits 0 0 body in
        if Nat.eqb count 0 then None
        else Some (if negative then - x else x, tail)
      else Some (0, s)
  | EmptyString => Some (0, s)
  end.

(** A JSON number at the head of [s]: an optional minus sign, digits
    without a leading zero, an optional fraction, an optional exponent;
    its value is the double nearest to the decimal. *)
Definition number (s : string) : option (value * string) :=
  let (negative, body) :=
    match s with
    | String c rest => if Ascii.eqb c "-" then (true, rest) else (false, s)
    | EmptyString => (false, s)
    end in
  let '(n, count, rest) := digits 0 0 body in
  if Nat.eqb count 0 || leading_zero body then None
  else
    match fraction_part n rest with
    | Some (x, places, rest1) =>
        match exponent_part rest1 with
        | Some (ex, rest2) =>
            Some (Js.of_double
                    (Double.of_decimal (if negative then - x else x)
                       (ex - Z.of_nat places)),
                  rest2)
        | None => None
        end
    | None => None
    end.

(** The characters of a string literal after its opening quote. *)
Fixpoint string_body (s : string) : option (string * string) :=
  match s with
  | EmptyString => None
  | String c rest =>
      if Ascii.eqb c quote then Some ("", rest)
      else if (code c <? 32)%N then None
      else if Ascii.eqb c backslash then
        match rest with
        | String e rest1 =>
            let plain (x : ascii) :=
              match string_body rest1 with
              | Some (body, tail) => Some (String x body, tail)
              | None => None
              end in
            if Ascii.eqb e quote then plain quote
            else if Ascii.eqb e backslash then plain backslash
            else if Ascii.eqb e "/" then plain "/"%char
            else if Ascii.eqb e "b" then plain (ascii_of_nat 8)
            else if Ascii.eqb e "f" then plain (ascii_of_nat 12)
            else if Ascii.eqb e "n" then plain (ascii_of_nat 10)
            else if Ascii.eqb e "r" then plain (ascii_of_nat 13)
            else if Ascii.eqb e "t" then plain (ascii_of_nat 9)
            else if Ascii.eqb e "u" then
              match rest1 with
              | String h1 (String h2 (String h3 (String h4 rest2))) =>
                  match hex_pair h1 h2, hex_pair h3 h4 with
                  | Some 0%N, Some lo =>
                      match string_body rest2 with
                      | Some (body, tail) =>
                          Some (String (ascii_of_N lo) body, tail)
                      | None => None
                      end
                  | _, _ => None
                  end
              | _ => None
              end
            else None
        | EmptyString => None
        end
      else
        match string_body rest with
        | Some (body, tail) => Some (String c body, tail)
        | None => None
        end
  end.

Definition expect (c : ascii) (s : string) : option string :=
  match skip_ws s with
  | String d rest => if Ascii.eqb c d then Some rest else None
  | EmptyString => None
  end.

(** A JSON value at the head of [s] and the text after it. *)
Fixpoint json_value (fuel : nat) (s : string) : option (value * string) :=
  match fuel with
  | O => None
  | S fuel =>
      let members :=
        fix members (n : nat) (acc : list (string * value)) (s : string)
          : option (value * string) :=
          match n with
          | O => None
          | S n =>
              match expect quote s with
              | Some s1 =>
                  match string_body s1 with
                  | Some (k, s2) =>
                      match expect ":" s2 with
                      | Some s3 =>
                          match json_value fuel s3 with
                          | Some (v, s4) =>
                              let acc := Js.assoc_set k v acc in
                              match skip_ws s4 with
                              | String c s5 =>
                                  if Ascii.eqb c "," then members n acc s5
                                  else if Ascii.eqb c "}"
                                  then Some (VObj acc, s5)
                                  else None
                              | EmptyString => None
                              end
                          | None => None
                          end
                      | None => None
                      end
                  | None => None
                  end
              | None => None
              end
          end in
      let elements :=
        fix elements (n : nat) (acc : list value) (s : string)
          : option (value * string) :=
          match n with
          | O => None
          | S n =>
              match json_value fuel s with
              | Some (v, s1) =>
                  match skip_ws s1 with
                  | String c s2 =>
                      if Ascii.eqb c "," then elements n (acc ++ [v]) s2
                      else if Ascii.eqb c "]"
                      then Some (VArr (acc ++ [v]) [], s2)
                      else None
                  | EmptyString => None
                  end
              | None => None
              end
          end in
      match skip_ws s with
      | EmptyString => None
      | String c rest =>
          if Ascii.eqb c "{" then
            match skip_ws rest with
            | String d rest1 =>
                if Ascii.eqb d "}" then Some (VObj [], rest1)
                else members (S fuel) [] rest
            | EmptyString => None
            end
          else if Ascii.eqb c "[" then
            match skip_ws rest with
            | String d rest1 =>
                if Ascii.eqb d "]" then Some (VArr [] [], rest1)
                else elements (S fuel) [] rest
            | EmptyString => None
            end
          else if Ascii.eqb c quote then
            match string_body rest with
            | Some (body, tail) => Some (VStr body, tail)
            | None => None
            end
          else
            match CookieJar.strip_prefix "null" (String c rest),
                  CookieJar.strip_prefix "true" (String c rest),
                  CookieJar.strip_prefix "false" (String c rest) with
            | Some tail, _, _ => Some (VNull, tail)
            | _, Some tail, _ => Some (VBool true, tail)
            | _, _, Some tail => Some (VBool false, tail)
            | None, None, None => number (String c rest)
            end
      end
  end.

Definition parse (s : string) : option value :=
  match json_value (S (String.length s)) s with
  | Some (v, rest) =>
      match skip_ws rest with
      | EmptyString => Some v
      | String _ _ => None
      end
  | None => None
  end.

(** The digits of a numeral in radix 2, 8 or 16, as a number. *)
Fixpoint radix_digits (radix : N) (acc : Z) (s : string) : option Z :=
  match s with
  | EmptyString => Some acc
  | String c rest =>
      match hex_value c with
      | Some x =>
          if (x <? radix)%N
          then radix_digits radix (Z.of_N radix * acc + Z.of_N x) rest
          else None
      | None => None
      end
  end.

Definition radix_literal (radix : N) (s : string) : value :=
  match s with
  | EmptyString => VNaN
  | _ =>
      match radix_digits radix 0 s with
      | Some n => Js.of_double (Double.of_int n)
      | None => VNaN
      end
  end.

(** A decimal literal without sign: digits with an optional point and
    fraction, or a point and digits, and an optional exponent; nothing
    may follow. *)
Definition decimal_literal (negative : bool) (s : string) : value :=
  let '(n, count, rest) := digits 0 0 s in
  let '(x, places, rest1) :=
    match rest with
    | String c tail =>
        if Ascii.eqb c "." then digits n 0 tail else (n, O, rest)
    | EmptyString => (n, O, rest)
    end in
  if Nat.eqb (count + places) 0 then VNaN
  else
    match exponent_part rest1 with
    | Some (ex, EmptyString) =>
        Js.of_double
          (Double.of_decimal (if negative then - x else x)
             (ex - Z.of_nat places))
    | _ => VNaN
    end.

Definition signed_literal (negative : bool) (s : string) : value :=
  if String.eqb s "Infinity" then VInfinity negative
  else decimal_literal negative s.

(** ToNumber of a string: white space around is dropped, the empty
    string is 0, then a numeral in radix 16, 8 or 2 without sign, or an
    optionally signed Infinity or decimal literal; anything else is
    NaN. *)
Definition string_to_number (s : string) : value :=
  match trim s with
  | EmptyString => VNum 0
  | String c rest as t =>
      match t with
      | String z (String r body) =>
          if Ascii.eqb z "0" && (Ascii.eqb r "x" || Ascii.eqb r "X")
          then radix_literal 16 body
          else if Ascii.eqb z "0" && (Ascii.eqb r "o" || Ascii.eqb r "O")
          then radix_literal 8 body
          else if Ascii.eqb z "0" && (Ascii.eqb r "b" || Ascii.eqb r "B")
          then radix_literal 2 body
          else if Ascii.eqb c "+" then signed_literal false rest
          else if Ascii.eqb c "-" then signed_literal true rest
          else signed_literal false t
      | _ => signed_literal false t
      end
  end.

(** ToString, as Array.prototype.join applies it to the elements of an
    array: undefined and null give the empty string there. *)
Fixpoint to_text (v : value) : string :=
  match v with
  | VUndefined => "undefined"
  | VNull => "null"
  | VBool b => if b then "true" else "false"
  | VNum _ | VFrac _ _ | VInfinity _ | VNaN =>
      Double.to_string (Js.to_double v)
  | VStr s => s
  | VObj _ => "[object Object]"
  | VArr items _ =>
      join ","
        ((fix texts (l : list value) : list string :=
            match l with
            | [] => []
            | x :: rest =>
                match x with
                | VUndefined | VNull => ""
                | _ => to_text x
                end :: texts rest
            end) items)
  end.

(** ToNumber of a string, an array or an object: of an array by way of
    its text, of an object NaN. *)
Definition to_number_other (v : value) : value :=
  match v with
  | VStr s => string_to_number s
  | VArr _ _ => string_to_number (to_text v)
  | _ => VNaN
  end.

Definition engine : Engine :=
  {| JSON_parse := parse;
     decodeURIComponent := decode;
     ToNumber_other := to_number_other |}.

End Reference.

Example reference_numbers :
  Reference.parse "1.5" = Some (VFrac 3 1)
  /\ Reference.parse "-2.5e-1" = Some (VFrac (-1) 2)
  /\ Reference.parse "1e3" = Some (VNum 1000)
  /\ Reference.parse "01" = None
  /\ Reference.to_number_other (VStr " 0x1f ") = VNum 31
  /\ Reference.to_number_other (VStr "12px") = VNaN
  /\ Codec.JSON_stringify (VFrac 3 1) = Some "1.5".
Proof. vm_compute. repeat split; reflexivity. Qed.

Example reference_roundtrip :
  let v := VObj [("id", VStr "a-1"); ("pageViews", VNum 3);
                 ("isNew", VBool false); ("traits", VArr [VNull; VNum (-2)] [])] in
  match Codec.JSON_stringify v with
  | Some text =>
      Reference.decode (Codec.encodeURIComponent text) = Some text
      /\ Reference.parse text = Some v
  | None => False
  end.
Proof. cbv zeta. split; reflexivity. Qed.

(** ** Observations *)

Definition payload_of (t : transmission) : value :=
  match t with
  | Beacon _ p => p
  | Fetch _ _ p => p
  end.

(** The events of a batch. *)
Definition events_of (t : transmission) : list value :=
  match Js.get (payload_of t) "events" with
  | VArr items _ => items
  | _ => []
  end.

(** Every event accepted so far, oldest first: those handed to the network
    and those still queued. *)
Definition emitted (st : state) : list value :=
  flat_map events_of (network (page st)) ++ eventQueue (script st).

Definition has_type (type : string) (ev : value) : bool :=
  match Js.get ev "type" with
  | VStr s => String.eqb s type
  | _ => false
  end.

Definition count_type (type : string) (evs : list value) : nat :=
  length (filter (has_type type) evs).

Definition configured (st : state) : bool := Js.truthy (siteId (config_of st)).

(** The reading the next Date.now() returns, and the state after it. *)
Definition now_of (st : state) : Z := clock (page st) (clock_reads (page st)).

Definition tick (st : state) : state :=
  on_page (set_clock_reads (S (clock_reads (page st)))) st.

(** The state after createEvent found no site id: a warning in debug mode,
    nothing otherwise. *)
Definition warned (st : state) : state :=
  if Js.truthy (debug (config_of st))
  then on_page (fun b => set_console (console b ++ [Warn site_id_warning]) b) st
  else st.

(** The state after trackEvent pushed [ev], before the size check. *)
Definition pushed (type : string) (ev : value) (st : state) : state :=
  let st1 := on_script (fun v => set_eventQueue (eventQueue v ++ [ev]) v) st in
  if Js.truthy (debug (config_of st))
  then on_page (fun b => set_console
                  (console b ++ [Log "[Analytics]" [VStr type; ev]]) b) st1
  else st1.

(** The state after flush sent the queue. *)
Definition flushed (t : transmission) (st : state) : state :=
  on_page (fun b => set_network (network b ++ [t]) b)
          (on_script (set_eventQueue []) st).

(** The transmission flush makes from a state with a batch to send. *)
Definition batch (st : state) : transmission :=
  let cfg := config_of st in
  let d := dom_of (page st) in
  let payload := payload_object (eventQueue (script st)) cfg d in
  if has_sendBeacon d then Beacon (endpoint cfg) payload
  else Fetch (endpoint cfg)
         [("Content-Type", VStr "application/json"); ("X-Site-ID", siteId cfg)]
         payload.

(** The event createEvent builds in a configured state. *)
Definition event_at (type : string) (data : list (string * value))
    (st : state) : value :=
  event_object type (now_of st) (session (script st)) (dom_of (page st)) data.

(** The state after the assignment CONFIG.siteId = s. *)
Definition assigned (s : value) (st : state) : state :=
  on_script (fun v => set_CONFIG (set_siteId s (CONFIG v)) v) st.

(** A computation is stable for a relation when every run of it, returning
    or throwing, leaves a state related to the one it started in. *)
Definition stable {A : Type} (R : state -> state -> Prop) (m : M A) : Prop :=
  forall st, R st (exec m st).

(** A relation between a state and a later one that holds at least when
    CONFIG, the two gates, the queue and the network log are the same in
    both. *)
Class Framed (R : state -> state -> Prop) : Prop := {
  framed_preorder : PreOrder R;
  framed : forall st st' : state,
    CONFIG (script st') = CONFIG (script st) ->
    lastScrollDepth (script st') = lastScrollDepth (script st) ->
    lastMouseSample (script st') = lastMouseSample (script st) ->
    eventQueue (script st') = eventQueue (script st) ->
    network (page st') = network (page st) ->
    R st st' }.

(** The queue is empty or shorter than the batch size. *)
Definition bounded (st : state) : Prop :=
  Z.of_nat (length (eventQueue (script st)))
  < Z.max 1 (batchSize (config_of st)).

(** [within st st']: the batch size is the same and the queue, if it was
    bounded, still is. *)
Definition within (st st' : state) : Prop :=
  batchSize (config_of st') = batchSize (config_of st)
  /\ (bounded st -> bounded st').

(** Nothing configured, nothing queued, nothing sent. *)
Definition dormant (st : state) : Prop :=
  configured st = false
  /\ eventQueue (script st) = []
  /\ network (page st) = [].

Definition idle (st st' : state) : Prop := dormant st -> dormant st'.

(** The turns that configure a site id: setSiteId with a truthy value. *)
Definition activating (t : turn) : bool :=
  match t with
  | Call (ApiSetSiteId s) => Js.truthy s
  | _ => false
  end.

(** The two rate-limited signals, the event type of each and the variable
    that gates it. *)
Inductive signal : Type := ScrollSignal | MouseSignal.

Definition tag (k : signal) : string :=
  match k with
  | ScrollSignal => "scroll"
  | MouseSignal => "mousemove"
  end.

Definition gauge (k : signal) (st : state) : Z :=
  match k with
  | ScrollSignal => lastScrollDepth (script st)
  | MouseSignal => lastMouseSample (script st)
  end.

Definition other_type (k : signal) (ev : value) : bool :=
  negb (has_type (tag k) ev).

(** [quiet k st st']: from [st] to [st'] CONFIG and the gate of signal [k]
    are unchanged and the only events accepted are of other types. *)
Definition quiet (k : signal) (st st' : state) : Prop :=
  CONFIG (script st') = CONFIG (script st)
  /\ gauge k st' = gauge k st
  /\ exists evs, emitted st' = emitted st ++ evs
                 /\ forallb (other_type k) evs = true.

(** The text of a click descriptor as the specification words it: white
    space stripped first, then the first 100 characters. *)
Definition spec_click_text (t : element) : string :=
  JsString.slice0 100
    (JsString.trim match textContent t with
                   | Some s => s
                   | None => ""
                   end).

(** The text field of the element descriptor of a click event. *)
Definition recorded_text (ev : value) : value :=
  Js.get (Js.get ev "element") "text".

Fixpoint repeat_string (n : nat) (c : ascii) : string :=
  match n with
  | O => ""
  | S n => String c (repeat_string n c)
  end.

(** A button whose label starts with a blank and goes on for 100 letters,
    and a click on it. *)
Definition padded_button : element :=
  {| tagName := "BUTTON";
     el_id := "";
     className := VStr "btn";
     textContent := Some (String " " (repeat_string 100 "a"));
     href := VUndefined;
     el_type := VStr "submit";
     el_name := VStr "";
     is_body := false;
     parentElement := None |}.

Definition padded_click : mouse_event :=
  {| target := padded_button;
     clientX := 10; clientY := 20; pageX := 10; pageY := 420 |}.

(** A page: an empty cookie jar, a clock that advances by 40 ms per
    reading, a script tag that carries data-site-id T1, the document
    already parsed. *)
Definition sample_dom : dom :=
  {| location_href := "https://shop.example/cart";
     location_pathname := "/cart";
     title := "Cart";
     referrer := "";
     innerWidth := 1280;
     innerHeight := 720;
     pageYOffset := 0;
     documentElement_scrollTop := 0;
     body_scrollHeight := 3000;
     documentElement_scrollHeight := 3000;
     visibilityState := "visible";
     hidden := false;
     userAgent := "Mozilla/5.0";
     language := "en-US";
     platform := "Linux x86_64";
     screen_width := 1920;
     screen_height := 1080;
     has_sendBeacon := true |}.

Definition sample_environment (ready : string) (site : option string)
    (jar : list (string * string)) : environment :=
  {| env_dom := sample_dom;
     env_cookies := jar;
     env_clock := fun n => 1700000000000 + 40 * Z.of_nat n;
     env_random := fun n => Z.of_nat (7 * n + 3);
     env_readyState := ready;
     env_currentScript := Some (ScriptTag site None None);
     env_querySelector_script := None |}.

(** The state after the script ran on that page, the state after eight
    clicks more (nine events queued), and the state after the script ran
    on the same page without a site id. *)
Definition sample_active : state :=
  @page_load Reference.engine (sample_environment "complete" (Some "T1") []).

Definition sample_nine : state :=
  @run_turns Reference.engine
    (repeat (Run FnTrackClick (MouseArg padded_click)) 8) sample_active.

Definition sample_idle : state :=
  @page_load Reference.engine (sample_environment "complete" None []).

(** What the settled-scroll arrow computes from the page. *)
Definition scroll_top (d : dom) : Z :=
  if negb (pageYOffset d =? 0) then pageYOffset d
  else documentElement_scrollTop d.

Definition scroll_depth (d : dom) : Z :=
  let docHeight := Z.max (body_scrollHeight d) (documentElement_scrollHeight d)
                   - innerHeight d in
  if 0 <? docHeight then round_percent (scroll_top d) docHeight else 0.

(** The stimuli of a page as the turns they cause, one after the other. *)
Fixpoint trace_of {E : Engine} (ss : list stimulus) (st : state) : list turn :=
  match ss with
  | [] => []
  | s :: rest => turns_of s st ++ trace_of rest (react s st)
  end.

(** The clock readings trackMouseMove takes in a run of turns: the times
    of the move signals, in order. *)
Fixpoint mouse_times {E : Engine} (ts : list turn) (st : state) : list Z :=
  match ts with
  | [] => []
  | t :: rest =>
      match t with
      | Run FnTrackMouseMove (MouseArg _) => [now_of st]
      | _ => []
      end ++ mouse_times rest (exec_turn t st)
  end.

(** The times of the move signals that pass the gate in a run of turns. *)
Fixpoint accepted_times {E : Engine} (ts : list turn) (st : state) : list Z :=
  match ts with
  | [] => []
  | t :: rest =>
      match t with
      | Run FnTrackMouseMove (MouseArg _) =>
          if now_of st - lastMouseSample (script st)
             <? mouseSampleRate (config_of st)
          then [] else [now_of st]
      | _ => []
      end ++ accepted_times rest (exec_turn t st)
  end.

(** Each time is at least [gap] after the one before it, the first at
    least [gap] after [floor]. *)
Fixpoint spaced (gap floor : Z) (times : list Z) : Prop :=
  match times with
  | [] => True
  | t :: rest => floor + gap <= t /\ spaced gap t rest
  end.

(** The number of mousemove events accepted so far. *)
Definition moves (st : state) : nat := count_type "mousemove" (emitted st).

(** [calm k st st']: as [quiet], except that of CONFIG only the mouse
    sample interval is required to stay; this allows the setters of the
    public API. *)
Definition calm (k : signal) (st st' : state) : Prop :=
  mouseSampleRate (config_of st') = mouseSampleRate (config_of st)
  /\ gauge k st' = gauge k st
  /\ exists evs, emitted st' = emitted st ++ evs
                 /\ forallb (other_type k) evs = true.

(** The depth a scroll event carries, and the depths of the scroll events
    of a list of events, oldest first. *)
Definition depth_of (ev : value) : Z :=
  match Js.get ev "depth" with
  | VNum d => d
  | _ => 0
  end.

Definition scroll_depths (evs : list value) : list Z :=
  map depth_of (filter (has_type "scroll") evs).

(** Each depth exceeds the one before it, and the first exceeds [floor],
    by more than the margin of 10 points. *)
Fixpoint sparse (floor : Z) (ds : list Z) : Prop :=
  match ds with
  | [] => True
  | d :: rest => floor + 10 < d /\ sparse d rest
  end.

(** The scroll trail of a state: sparse, and not above lastScrollDepth. *)
Definition trail_ok (st : state) : Prop :=
  sparse 0 (scroll_depths (emitted st))
  /\ last (scroll_depths (emitted st)) 0 <= lastScrollDepth (script st).

(** The text Cookie.get finds for the session cookie, and what it makes of
    it. *)
Definition stored_text (st : state) : option string :=
  CookieJar.regexp_match (cookieName (config_of st))
    (CookieJar.document_cookie (cookie_jar (page st))).

Definition parsed_cookie {E : Engine} (st : state) : value :=
  match stored_text st with
  | Some m2 =>
      match decodeURIComponent m2 with
      | Some text =>
          match JSON_parse text with
          | Some v => v
          | None => VNull
          end
      | None => VNull
      end
  | None => VNull
  end.

(** No session cookie is found, or its text does not decode, or the
    decoded text does not parse. *)
Definition absent_or_unparsable {E : Engine} (st : state) : Prop :=
  match stored_text st with
  | None => True
  | Some m2 =>
      match decodeURIComponent m2 with
      | None => True
      | Some text => JSON_parse text = None
      end
  end.

(** The session object getOrCreateSession builds when it finds none. *)
Definition fresh_session (id visitorId : string) (startTime lastActivity : Z)
  : value :=
  VObj [("id", VStr id); ("visitorId", VStr visitorId);
        ("startTime", VNum startTime); ("pageViews", VNum 1);
        ("isNew", VBool true); ("lastActivity", VNum lastActivity)].

Fixpoint string_all (p : ascii -> bool) (s : string) : bool :=
  match s with
  | EmptyString => true
  | String c rest => p c && string_all p rest
  end.

Definition is_not (stop : ascii) (c : ascii) : bool := negb (Ascii.eqb c stop).

(** A cookie name the assignment to document.cookie reads back as it is:
    not empty, without semicolon, equals sign or blank. *)
Definition name_char (c : ascii) : bool :=
  is_not ";" c && is_not "=" c && negb (CookieJar.is_wsp c).

Definition cookie_name_ok (name : string) : bool :=
  negb (String.eqb name "") && string_all name_char name.

(** What encodeURIComponent produces: no semicolon and no blank. *)
Definition value_char (c : ascii) : bool :=
  is_not ";" c && negb (CookieJar.is_wsp c).

(** A cookie that cannot be taken for another one by the regular
    expression of Cookie.get: a name that is not empty and has no space
    and no equals sign, a value without space. *)
Definition tidy (nv : string * string) : bool :=
  negb (String.eqb (fst nv) "")
  && string_all (fun c => is_not " " c && is_not "=" c) (fst nv)
  && string_all (is_not " ") (snd nv).

(** The engine reads back what the script wrote for [v]:
    decodeURIComponent undoes encodeURIComponent on the JSON text of [v],
    and JSON.parse returns [v] from that text. *)
Definition reads_back {E : Engine} (v : value) : Prop :=
  exists text,
    Codec.JSON_stringify v = Some text
    /\ decodeURIComponent (Codec.encodeURIComponent text) = Some text
    /\ JSON_parse text = Some v.

(** What [++] stores for the counter [n]: the double nearest to n + 1. *)
Definition next_count (n : Z) : value :=
  Js.of_double (Double.add (Double.Fin n 0) (Double.Fin 1 0)).

(** The session object getOrCreateSession returns when Cookie.get gave
    the object with properties [fields], its counter being [n]. *)
Definition refreshed_session (fields : list (string * value)) (n now : Z)
  : value :=
  VObj (Js.assoc_set "lastActivity" (VNum now)
          (Js.assoc_set "pageViews" (next_count n)
             (Js.assoc_set "isNew" (VBool false) fields))).

(** The text Cookie.set stores for a value. *)
Definition cookie_text (v : value) : string :=
  Codec.encodeURIComponent
    match Codec.JSON_stringify v with
    | Some s => s
    | None => "undefined"
    end.

(** The page before the script runs, with a given cookie jar; the jar a
    first visit leaves; a jar whose session cookie was cut short. *)
Definition before_script (jar : list (string * string)) : state :=
  State initial_vars
        (fresh_browser (sample_environment "complete" (Some "T1") jar)).

Definition jar_after_visit : list (string * string) :=
  cookie_jar (page sample_active).

(** The properties of the session record that jar holds. *)
Definition stored_fields : list (string * value) :=
  match @parsed_cookie Reference.engine (before_script jar_after_visit) with
  | VObj fields => fields
  | _ => []
  end.

Definition jar_corrupt : list (string * string) :=
  [("theme", "dark"); ("wa_session", "%7B%22id%22%3A%22ab")].

(** A session record whose counter has reached 2^53, and the jar that
    holds its text as Cookie.set writes it. *)
Definition limit_fields : list (string * value) :=
  [("id", VStr "3a18f6d4-b290-47e5-83a1-8f6d4b2907e5");
   ("visitorId", VStr "c3a18f6d-4b29-407e-9c3a-18f6d4b2907e");
   ("startTime", VNum 1690000000000);
   ("pageViews", VNum 9007199254740992);
   ("isNew", VBool false);
   ("lastActivity", VNum 1690000000000)].

Definition jar_at_limit : list (string * string) :=
  [("wa_session", cookie_text (VObj limit_fields))].

(** The script loaded in the head of a page still loading, without
    data-site-id; then the page calls setSiteId; then DOMContentLoaded
    fires. *)
Definition sample_late : state :=
  @page_load Reference.engine (sample_environment "loading" None []).

Definition late_configured : state :=
  @react Reference.engine (HostCall (ApiSetSiteId (VStr "T1"))) sample_late.

Definition late_ready : state :=
  @react Reference.engine (DomEvent EvDOMContentLoaded) late_configured.

Definition is_flush_timer (t : nat * callback * Z) : bool :=
  match snd (fst t) with
  | FnFlush => true
  | _ => false
  end.

Definition is_unload_listener (l : listener) : bool :=
  match l_callback l with
  | FnBeforeUnload _ => true
  | _ => false
  end.

(** The page scrolled to a given offset, and a run in which the scroll
    settles at 25 percent, at 30 percent and at 60 percent of a page with
    2280 pixels to scroll. *)
Definition scrolled_to (y : Z) : dom :=
  {| location_href := location_href sample_dom;
     location_pathname := location_pathname sample_dom;
     title := title sample_dom;
     referrer := referrer sample_dom;
     innerWidth := innerWidth sample_dom;
     innerHeight := innerHeight sample_dom;
     pageYOffset := y;
     documentElement_scrollTop := y;
     body_scrollHeight := body_scrollHeight sample_dom;
     documentElement_scrollHeight := documentElement_scrollHeight sample_dom;
     visibilityState := visibilityState sample_dom;
     hidden := hidden sample_dom;
     userAgent := userAgent sample_dom;
     language := language sample_dom;
     platform := platform sample_dom;
     screen_width := screen_width sample_dom;
     screen_height := screen_height sample_dom;
     has_sendBeacon := has_sendBeacon sample_dom |}.

Definition scroll_run : list turn :=
  [SetDom (scrolled_to 570); Run FnScrollSettled NoArg;
   SetDom (scrolled_to 684); Run FnScrollSettled NoArg;
   SetDom (scrolled_to 1368); Run FnScrollSettled NoArg].

(** Five move signals, 40 ms apart on the sample clock. *)
Definition move_run : list turn :=
  repeat (Run FnTrackMouseMove (MouseArg padded_click)) 5.

(** ** Further observations *)

(** [keeps f]: the reading [f] of the state is the same before and
    after. *)
Definition keeps {A : Type} (f : state -> A) (st st' : state) : Prop :=
  f st' = f st.

(** *** Identifiers *)

Definition is_hex_lower (c : ascii) : bool :=
  let n := JsString.code c in
  (((48 <=? n) && (n <=? 57)) || ((97 <=? n) && (n <=? 102)))%N.

(** [n] lower-case hexadecimal digits at the head of [s]: the rest. *)
Fixpoint hex_run (n : nat) (s : string) : option string :=
  match n, s with
  | O, _ => Some s
  | S n, String c rest => if is_hex_lower c then hex_run n rest else None
  | S _, EmptyString => None
  end.

(** One character out of [cs] at the head of [s]: the rest. *)
Definition one_of (cs : list ascii) (s : string) : option string :=
  match s with
  | String c rest => if existsb (Ascii.eqb c) cs then Some rest else None
  | EmptyString => None
  end.

Definition and_then (o : option string) (f : string -> option string)
  : option string :=
  match o with
  | Some s => f s
  | None => None
  end.

(** The text of a version-4 UUID in lower case: 8-4-4-4-12 hexadecimal
    digits, the third group led by 4 and the fourth by 8, 9, a or b. *)
Definition uuid_v4 (s : string) : bool :=
  let dash := one_of ["-"%char] in
  match fold_left and_then
          [hex_run 8; dash; hex_run 4; dash;
           one_of ["4"%char]; hex_run 3; dash;
           one_of ["8"; "9"; "a"; "b"]%char; hex_run 3; dash;
           hex_run 12]
          (Some s) with
  | Some EmptyString => true
  | _ => false
  end.

(** What the replace callback of generateId makes of a template, one
    character at a time. *)
Fixpoint fits (template s : string) : bool :=
  match template, s with
  | EmptyString, EmptyString => true
  | String t template', String c s' =>
      (if Ascii.eqb t "x" then is_hex_lower c
       else if Ascii.eqb t "y"
            then existsb (Ascii.eqb c) ["8"; "9"; "a"; "b"]%char
            else Ascii.eqb c t)
      && fits template' s'
  | _, _ => false
  end.

Fixpoint count_xy (template : string) : nat :=
  match template with
  | EmptyString => O
  | String c rest =>
      ((if Ascii.eqb c "x" || Ascii.eqb c "y" then 1 else 0)
       + count_xy rest)%nat
  end.

(** The state after [n] draws of Math.random(). *)
Definition drawn (n : nat) (st : state) : state :=
  on_page (fun b => set_random_reads (random_reads b + n) b) st.

(** The text the replace callback of generateId makes of a template out
    of the draws of Math.random() from number [i] on: every x and every
    y takes the next draw, left to right, an x its hexadecimal digit and
    a y the digit of its two low bits with 8 added. *)
Fixpoint filled (template : string) (draw : nat -> Z) (i : nat) : string :=
  match template with
  | EmptyString => ""
  | String c rest =>
      if Ascii.eqb c "x" then
        String (JsString.hex_digit false (Z.to_N (draw i mod 16)))
          (filled rest draw (S i))
      else if Ascii.eqb c "y" then
        String (JsString.hex_digit false
                  (Z.to_N (Z.lor (Z.land (draw i mod 16) 3) 8)))
          (filled rest draw (S i))
      else String c (filled rest draw i)
  end.

(** The identifier made of the 31 draws from number [i] on. *)
Definition identifier (draw : nat -> Z) (i : nat) : string :=
  filled "xxxxxxxx-xxxx-4xxx-yxxx-xxxxxxxxxxxx" draw i.

(** *** Batches *)

(** A batch as flush makes it: between one event and ten, under a site
    id, which a fetch repeats in its X-Site-ID header. *)
Definition sound_batch (t : transmission) : Prop :=
  (1 <= length (events_of t) <= 10)%nat
  /\ Js.truthy (Js.get (payload_of t) "site_id") = true
  /\ match t with
     | Beacon _ _ => True
     | Fetch _ headers p => Js.lookup "X-Site-ID" headers = Js.get p "site_id"
     end.

(** The batch size is that of the CONFIG literal, the queue is below it
    and every batch sent so far is sound. *)
Definition orderly (st : state) : Prop :=
  batchSize (config_of st) = 10
  /\ (length (eventQueue (script st)) < 10)%nat
  /\ Forall sound_batch (network (page st)).

Definition tends (st st' : state) : Prop := orderly st -> orderly st'.

(** *** The scroll timer *)

(** At most one timeout is pending; it is the one trackScroll recorded in
    scrollTimeout, and it runs the settled-scroll arrow after 150 ms. *)
Definition debounced (st : state) : Prop :=
  match timeouts (page st) with
  | [] => True
  | [(h, cb, delay)] =>
      scrollTimeout (script st) = Some h /\ cb = FnScrollSettled /\ delay = 150
  | _ :: _ :: _ => False
  end.

(** The pending timeouts and the handle trackScroll remembers. *)
Definition scroll_timer (st : state) : list (nat * callback * Z) * option nat :=
  (timeouts (page st), scrollTimeout (script st)).

(** *** Engagement time *)

(** A clock that does not run backwards. *)
Definition monotone (c : nat -> Z) : Prop :=
  forall i j : nat, (i <= j)%nat -> c i <= c j.

(** Engagement time is not negative and not more than the time from
    [t0] to the last engagement check, which is not later than the next
    reading of the clock. *)
Definition paced (t0 : Z) (st : state) : Prop :=
  0 <= engagementTime (script st)
  /\ engagementTime (script st) + t0 <= lastEngagementCheck (script st)
  /\ lastEngagementCheck (script st) <= now_of st.

(** [paces st st']: the clock is the same and has been read some more
    times, and on a clock that does not run backwards engagement time
    stays paced. *)
Definition paces (st st' : state) : Prop :=
  clock (page st') = clock (page st)
  /\ (clock_reads (page st) <= clock_reads (page st'))%nat
  /\ (monotone (clock (page st)) ->
      forall t0, paced t0 st -> paced t0 st').

(** *** Whose events *)

(** The identifiers of the session in memory. *)
Definition ident (st : state) : value * value :=
  (Js.get (session (script st)) "id",
   Js.get (session (script st)) "visitorId").

Definition carries (i : value * value) (ev : value) : Prop :=
  Js.get ev "sessionId" = fst i /\ Js.get ev "visitorId" = snd i.

(** [loyal st st']: the identifiers of the session are the same and every
    event accepted in between carries them. *)
Definition loyal (st st' : state) : Prop :=
  ident st' = ident st
  /\ exists evs, emitted st' = emitted st ++ evs
                 /\ Forall (carries (ident st)) evs.

(** *** Hooks *)

(** No site id, no error hook, no listener but for DOMContentLoaded and
    no timer but the engagement check. *)
Definition unhooked (st : state) : Prop :=
  configured st = false
  /\ onerror (page st) = None
  /\ forallb (fun l => String.eqb (l_type l) "DOMContentLoaded")
             (listeners (page st)) = true
  /\ forallb (fun i => match snd (fst i) with
                       | FnUpdateEngagement => true
                       | _ => false
                       end)
             (intervals (page st)) = true.

Definition inert (st st' : state) : Prop := unhooked st -> unhooked st'.

(** Once window._waInitialized is truthy it stays so. *)
Definition flagged (st st' : state) : Prop :=
  Js.truthy (waInitialized (page st)) = true ->
  Js.truthy (waInitialized (page st')) = true.

(** The network log grows at its end only. *)
Definition extends (st st' : state) : Prop :=
  exists sent, network (page st') = network (page st) ++ sent.

(** *** The cookie and the session *)

Definition jar_value (name : string) (jar : list (string * string))
  : option string :=
  match find (fun e => String.eqb (fst e) name) jar with
  | Some e => Some (snd e)
  | None => None
  end.

(** The cookie name and expiry are those of the CONFIG literal and the
    jar holds, under that name, the text of the session in memory. *)
Definition settled (st : state) : Prop :=
  name_text (cookieName (config_of st)) = "wa_session"
  /\ cookieExpiry (config_of st) = 30
  /\ jar_value "wa_session" (cookie_jar (page st))
     = Some (cookie_text (session (script st))).

Definition settles (st st' : state) : Prop := settled st -> settled st'.


(** *** Scroll positions inside the document *)

(** The height the page can be scrolled by, as the settled-scroll arrow
    computes it. *)
Definition doc_height (d : dom) : Z :=
  Z.max (body_scrollHeight d) (documentElement_scrollHeight d) - innerHeight d.

(** The scroll position lies between the top of the document and its
    lowest scroll position. *)
Definition scroll_in_range (d : dom) : bool :=
  (0 <=? scroll_top d) && (scroll_top d <=? Z.max 0 (doc_height d)).

(** A turn that leaves the scroll position inside the document. *)
Definition stays_in_range (t : turn) : bool :=
  match t with
  | SetDom d => scroll_in_range d
  | _ => true
  end.

(** The page is scrolled inside the document and the depths reported so
    far are percentages. *)
Definition percentages (st : state) : Prop :=
  scroll_in_range (dom_of (page st)) = true
  /\ Forall (fun d => 0 <= d <= 100) (scroll_depths (emitted st)).

(** *** The start of tracking *)

(** The state in which the script decides whether to start tracking:
    the session [s] is in place, the first engagement check is taken,
    the engagement timer runs and window.WebAnalytics is installed. *)
Definition prepared (s : value) (st : state) : state :=
  on_page (set_WebAnalytics true)
    (exec (setInterval FnUpdateEngagement 1000)
       (on_script (set_lastEngagementCheck (now_of st))
          (tick (on_script (set_session s) st)))).

(** The data trackPageView passes to trackEvent. *)
Definition pageview_data (st : state) : list (string * value) :=
  [("isNewVisitor", Js.get (session (script st)) "isNew");
   ("pageViewNumber", Js.get (session (script st)) "pageViews")].

(** What the script reads of the page before it decides. *)
Definition boot (st : state) : list listener * nat * string :=
  (listeners (page st), next_closure (page st), readyState (page st)).

(** What the browser can call back before the script has registered
    anything: nothing. *)
Definition callbacks (st : state) :=
  (timeouts (page st), intervals (page st), onerror (page st)).

(** What can happen on a page that waits for DOMContentLoaded without
    tracking being started or an event being accepted: anything but
    DOMContentLoaded itself and a call of track, identify or setSiteId
    by the page. *)
Definition bystander (s : stimulus) : bool :=
  match s with
  | DomEvent EvDOMContentLoaded => false
  | HostCall (ApiTrack _ _) | HostCall (ApiIdentify _ _)
  | HostCall (ApiSetSiteId _) => false
  | _ => true
  end.

(** The page as the script leaves it when the document is still
    loading: the DOMContentLoaded arrow is the only listener, the
    engagement timer the only timer, and no event is queued. *)
Definition waiting (st : state) : Prop :=
  listeners (page st)
  = [Listener Document "DOMContentLoaded" (FnDomReady 0) false]
  /\ timeouts (page st) = []
  /\ Forall (fun t => snd (fst t) = FnUpdateEngagement) (intervals (page st))
  /\ onerror (page st) = None
  /\ eventQueue (script st) = [].

(** What a waiting page keeps until DOMContentLoaded. *)
Definition lobby (st : state) :=
  (listeners (page st), callbacks st, emitted st, eventQueue (script st),
   session (script st), siteId (config_of st)).

(** *** Where a batch goes *)

Definition url_of (t : transmission) : value :=
  match t with
  | Beacon url _ => url
  | Fetch url _ _ => url
  end.

(** The X-Site-ID header of a fetch; a beacon has no headers. *)
Definition site_header (t : transmission) : option value :=
  match t with
  | Beacon _ _ => None
  | Fetch _ headers _ => Some (Js.lookup "X-Site-ID" headers)
  end.


(** *** Configuration *)

(** The script tag the script reads its data attributes from. *)
Definition found_script (e : environment) : option script_tag :=
  match env_currentScript e with
  | Some t => Some t
  | None => env_querySelector_script e
  end.

(** An attribute of that tag, when there is a tag and the attribute is
    present and not empty. *)
Definition attribute (tag : option script_tag)
    (get : script_tag -> option string) : option string :=
  match tag with
  | Some t =>
      match get t with
      | Some s => if String.eqb s "" then None else Some s
      | None => None
      end
  | None => None
  end.

(** CONFIG as the data attributes determine it. *)
Definition config_from (tag : option script_tag) : config :=
  {| siteId := match attribute tag data_site_id with
               | Some s => VStr s
               | None => VNull
               end;
     cookieName := wa_session;
     cookieExpiry := 30;
     batchSize := 10;
     flushInterval := 5000;
     endpoint := match attribute tag data_endpoint with
                 | Some s => VStr s
                 | None => VStr "https://api.publickeyboard.com/api/analytics"
                 end;
     trackMouseMovement := true;
     mouseSampleRate := 100;
     debug := VBool match tag with
                    | Some t =>
                        match data_debug t with
                        | Some s => String.eqb s "true"
                        | None => false
                        end
                    | None => false
                    end |}.

(** The calls of the public API that assign to CONFIG. *)
Definition reconfiguring (t : turn) : bool :=
  match t with
  | Call (ApiSetSiteId _) | Call (ApiSetEndpoint _) | Call (ApiSetDebug _) =>
      true
  | _ => false
  end.

(** The settings no code of the script assigns to. *)
Definition constants (st : state) : string * Z * Z * Z * bool * Z :=
  let c := config_of st in
  (name_text (cookieName c), cookieExpiry c, batchSize c, flushInterval c,
   trackMouseMovement c, mouseSampleRate c).

(** *** Time stamps *)

Definition stamp (ev : value) : Z :=
  match Js.get ev "timestamp" with
  | VNum t => t
  | _ => 0
  end.

(** The events accepted so far are in the order of their time stamps,
    none of which is ahead of the clock. *)
Definition chronological (st : state) : Prop :=
  StronglySorted Z.le (map stamp (emitted st))
  /\ Forall (fun t => t <= now_of st) (map stamp (emitted st)).

Definition orders (st st' : state) : Prop :=
  clock (page st') = clock (page st)
  /\ (clock_reads (page st) <= clock_reads (page st'))%nat
  /\ (monotone (clock (page st)) -> chronological st -> chronological st').

(** *** More sample pages *)

(** The sample page with a site id, and the turns of a short visit: a
    click, a custom event and an identify call. *)
Definition sample_page : environment :=
  sample_environment "complete" (Some "T1") [].

Definition sample_visit : list turn :=
  [Run FnTrackClick (MouseArg padded_click);
   Call (ApiTrack "signup" (VObj [("plan", VStr "pro")]));
   Call (ApiIdentify (VStr "u1") (VObj [("plan", VStr "pro")]));
   Run FnUpdateEngagement NoArg;
   Run FnUpdateEngagement NoArg].

(** The sample page while its document is still loading, and what
    happens on it before DOMContentLoaded: a click, a tick of the
    engagement timer, a scroll and two calls of the API. *)
Definition sample_loading : environment :=
  sample_environment "loading" (Some "T1") [].

Definition sample_bystanders : list stimulus :=
  [DomEvent (EvClick padded_click); IntervalFires 1; DomEvent EvScroll;
   HostCall ApiFlush; HostCall (ApiSetDebug (VBool true))].

(** The same page without a site id, and turns that do not configure
    one. *)
Definition sample_quiet_page : environment :=
  sample_environment "complete" None [].

Definition sample_quiet_visit : list turn :=
  [Run FnTrackClick (MouseArg padded_click);
   Call (ApiTrack "signup" VNull);
   Call (ApiSetSiteId VNull);
   Run (FnDomReady 0) NoArg].

(** The state the visit leaves when it ends with an identify call whose
    traits hold the score 1.5, the session it leaves in memory and the
    page a later load finds: the same page with the cookies of the
    visit. *)
Definition sample_visited : state :=
  @run_turns Reference.engine
    (sample_visit
     ++ [Call (ApiIdentify (VStr "u1")
                 (VObj [("plan", VStr "pro"); ("score", VFrac 3 1)]))])
    (@page_load Reference.engine sample_page).

Definition visited_fields : list (string * value) :=
  match session (script sample_visited) with
  | VObj fields => fields
  | _ => []
  end.

Definition sample_return : environment :=
  sample_environment "complete" (Some "T1") (cookie_jar (page sample_visited)).

(** *** The listeners of init *)

(** What registering a listener and evaluating an arrow function depend
    on: the listeners of the page and the number of the next closure. *)
Definition wiring (st : state) : list listener * nat :=
  (listeners (page st), next_closure (page st)).

(** The list of listeners after addEventListener. *)
Definition registered (ls : list listener) (l : listener) : list listener :=
  if existsb (listener_eqb l) ls then ls else ls ++ [l].

(** The listeners init registers under the name of a function, and those
    it registers with an arrow evaluated as closure [k] and [k + 1]. *)
Definition named_listeners : list listener :=
  [Listener Document "click" FnTrackClick false;
   Listener Document "mousemove" FnTrackMouseMove false;
   Listener Window "scroll" FnTrackScroll false;
   Listener Document "focus" FnTrackFormInteraction true;
   Listener Document "blur" FnTrackFormInteraction true;
   Listener Document "change" FnTrackFormInteraction false;
   Listener Document "visibilitychange" FnTrackVisibility false].

Definition arrow_listeners (k : nat) : list listener :=
  [Listener Window "beforeunload" (FnBeforeUnload k) false;
   Listener Document "visibilitychange" (FnHiddenFlush (S k)) false].

(** The listener of the script itself, for DOMContentLoaded. *)
Definition ready_listener (l : listener) : bool :=
  String.eqb (l_type l) "DOMContentLoaded"
  && match l_callback l with
     | FnDomReady _ => true
     | _ => false
     end.

Definition hidden_flush_listener (l : listener) : bool :=
  String.eqb (l_type l) "visibilitychange"
  && match l_callback l with
     | FnHiddenFlush _ => true
     | _ => false
     end.

Definition arrow_listener (l : listener) : bool :=
  hidden_flush_listener l
  || String.eqb (l_type l) "beforeunload"
     && match l_callback l with
        | FnBeforeUnload _ => true
        | _ => false
        end.

(** The listeners of a page on which init has run: those of the script
    itself, then the named ones, once, then arrows, a visibilitychange
    arrow among them. *)
Definition hooked (ls : list listener) : Prop :=
  exists ready arrows,
    ls = ready ++ named_listeners ++ arrows
    /\ forallb ready_listener ready = true
    /\ forallb arrow_listener arrows = true
    /\ existsb hidden_flush_listener arrows = true.

(** Mouse tracking is on, and either init has run or the flag is not set
    and the only listeners are those of the script itself. *)
Definition wired (st : state) : Prop :=
  trackMouseMovement (config_of st) = true
  /\ (hooked (listeners (page st))
      \/ (forallb ready_listener (listeners (page st)) = true
          /\ Js.truthy (waInitialized (page st)) = false)).

(** What [wired] depends on. *)
Definition hooks (st : state) : list listener * value * bool :=
  (listeners (page st), waInitialized (page st),
   trackMouseMovement (config_of st)).

(** [drives m w q]: started where the wiring is [w], the computation [m]
    returns, with a result and a wiring for which [q] holds. *)
Definition drives {A : Type} (m : M A) (w : list listener * nat)
    (q : A -> list listener * nat -> Prop) : Prop :=
  forall st, wiring st = w ->
    exists a st', m st = (Ok a, st') /\ q a (wiring st').

(** The function init registers for an event of the user. *)
Definition handler_of (ev : dom_event) : option callback :=
  match ev with
  | EvClick _ => Some FnTrackClick
  | EvMouseMove _ => Some FnTrackMouseMove
  | EvScroll => Some FnTrackScroll
  | EvFocus _ | EvBlur _ | EvChange _ => Some FnTrackFormInteraction
  | EvVisibilityChange | EvBeforeUnload | EvDOMContentLoaded => None
  end.



(** A page on which init runs twice: the script loads without a site id
    while the document is loading, the page calls setSiteId, and
    DOMContentLoaded follows.  Then a click, and the tab is hidden. *)
Definition sample_late_page : environment :=
  sample_environment "loading" None [].


Definition sample_late_visit : list turn :=
  [Call (ApiSetSiteId (VStr "T1"));
   Run (FnDomReady 0) NoArg;
   Run FnTrackClick (MouseArg padded_click)].


(** *** The console *)

(** The console, and whether debug mode is on. *)
Definition voice (st : state) : list console_entry * bool :=
  (console (page st), Js.truthy (debug (config_of st))).

(** [hushed st st']: with debug mode off in [st], it is off in [st'] and
    nothing was written to the console in between. *)
Definition hushed (st st' : state) : Prop :=
  Js.truthy (debug (config_of st)) = false -> voice st' = voice st.

(** The turns that switch debug mode on. *)
Definition debugging (t : turn) : bool :=
  match t with
  | Call (ApiSetDebug enabled) => Js.truthy enabled
  | _ => false
  end.

(** * Properties *)

(** Running the monad by computation, up to the calls of flush. *)
Ltac run_monad :=
  repeat (progress (unfold bind, gets, modify, ret, liftO, when, console_log,
                      console_warn, transmit;
                    cbn -[flush])).

Section Properties.
Context {E : Engine}.

(** *** flush *)

Lemma flush_idle (st : state) :
  eventQueue (script st) = [] \/ configured st = false ->
  flush st = (Ok tt, st).
Proof.
  intros H. unfold flush, bind, gets, configured in *. cbn.
  destruct H as [H | H]; rewrite H; cbn.
  - reflexivity.
  - rewrite Bool.orb_true_r. reflexivity.
Qed.

Lemma flush_send (st : state) :
  eventQueue (script st) <> [] -> configured st = true ->
  flush st =
    (Ok tt, flushed (batch st) st).
Proof.
  intros Hq Hc. unfold flush, bind, gets, configured, batch in *. cbn.
  rewrite Hc. destruct (eventQueue (script st)) as [|ev q] eqn:Eq;
    [congruence|]. cbn.
  destruct (has_sendBeacon (dom_of (page st))); reflexivity.
Qed.

Lemma events_of_batch (st : state) :
  events_of (batch st) = eventQueue (script st).
Proof.
  unfold batch. destruct (has_sendBeacon _); reflexivity.
Qed.

(** *** createEvent and trackEvent *)

Lemma createEvent_unconfigured type data (st : state) :
  configured st = false ->
  createEvent type data st = (Ok None, warned st).
Proof.
  intros H. unfold createEvent, bind, gets, configured, warned in *. cbn.
  rewrite H. cbn. destruct (Js.truthy (debug (config_of st))); reflexivity.
Qed.

Lemma createEvent_configured type data (st : state) :
  configured st = true ->
  createEvent type data st = (Ok (Some (event_at type data st)), tick st).
Proof.
  intros H. unfold createEvent, bind, gets, configured in *. cbn.
  rewrite H. reflexivity.
Qed.

Lemma trackEvent_unconfigured type data (st : state) :
  configured st = false ->
  trackEvent type data st = (Ok tt, warned st).
Proof.
  intros H. unfold trackEvent, bind.
  rewrite (createEvent_unconfigured _ _ _ H). reflexivity.
Qed.

Lemma trackEvent_configured type data (st : state) :
  configured st = true ->
  trackEvent type data st =
    let st1 := pushed type (event_at type data st) (tick st) in
    if batchSize (config_of st)
       <=? Z.of_nat (length (eventQueue (script st) ++ [event_at type data st]))
    then flush st1 else (Ok tt, st1).
Proof.
  intros H. unfold trackEvent, bind at 1.
  rewrite (createEvent_configured _ _ _ H). cbv zeta.
  unfold pushed, config_of, tick. run_monad.
  destruct (Js.truthy (debug (CONFIG (script st)))); run_monad;
    destruct (batchSize _ <=? _); reflexivity.
Qed.

Lemma pushed_queue type ev (st : state) :
  eventQueue (script (pushed type ev st)) = eventQueue (script st) ++ [ev].
Proof. unfold pushed. destruct (Js.truthy _); reflexivity. Qed.

Lemma pushed_config type ev (st : state) :
  config_of (pushed type ev st) = config_of st.
Proof. unfold pushed. destruct (Js.truthy _); reflexivity. Qed.

Lemma pushed_network type ev (st : state) :
  network (page (pushed type ev st)) = network (page st).
Proof. unfold pushed. destruct (Js.truthy _); reflexivity. Qed.

Lemma warned_script (st : state) : script (warned st) = script st.
Proof. unfold warned. destruct (Js.truthy _); reflexivity. Qed.

Lemma warned_network (st : state) :
  network (page (warned st)) = network (page st).
Proof. unfold warned. destruct (Js.truthy _); reflexivity. Qed.

Lemma app_unit_not_nil {A : Type} (l : list A) (x : A) : l ++ [x] <> [].
Proof. destruct l; discriminate. Qed.

(** trackEvent in a configured state, when the push fills the batch. *)
Lemma trackEvent_full type data (st : state) :
  configured st = true ->
  batchSize (config_of st)
    <= Z.of_nat (length (eventQueue (script st) ++ [event_at type data st])) ->
  trackEvent type data st =
    let st1 := pushed type (event_at type data st) (tick st) in
    (Ok tt, flushed (batch st1) st1).
Proof.
  intros Hc Hfull. rewrite (trackEvent_configured _ _ _ Hc). cbv zeta.
  apply Z.leb_le in Hfull. rewrite Hfull.
  apply flush_send.
  - rewrite pushed_queue. apply app_unit_not_nil.
  - unfold configured. rewrite pushed_config. exact Hc.
Qed.

Lemma trackEvent_below type data (st : state) :
  configured st = true ->
  Z.of_nat (length (eventQueue (script st) ++ [event_at type data st]))
    < batchSize (config_of st) ->
  trackEvent type data st =
    (Ok tt, pushed type (event_at type data st) (tick st)).
Proof.
  intros Hc Hlt. rewrite (trackEvent_configured _ _ _ Hc). cbv zeta.
  apply Z.leb_gt in Hlt. rewrite Hlt. reflexivity.
Qed.

(** **** Claim C6 *)

(** C6.  flush with an empty queue, or without a site id, returns
    without sending and leaves the state as it was.  Hence a second
    flush right after a first is a no-op whatever the first did, and two
    flushes in a row hand exactly one transmission to the network when
    the first had a batch to send. *)
Theorem C6_flush_idle_and_idempotent (st : state) :
  (eventQueue (script st) = [] \/ configured st = false ->
   flush st = (Ok tt, st))
  /\ flush (exec flush st) = (Ok tt, exec flush st)
  /\ (eventQueue (script st) <> [] /\ configured st = true ->
      network (page (exec flush (exec flush st)))
      = network (page st) ++ [batch st]).
Proof.
  split; [apply flush_idle|].
  assert (Hsecond : flush (exec flush st) = (Ok tt, exec flush st)).
  { unfold exec.
    destruct (eventQueue (script st)) as [|ev q] eqn:Eq.
    - rewrite (flush_idle st) by (left; exact Eq). cbn.
      apply flush_idle. left. exact Eq.
    - destruct (configured st) eqn:Hc.
      + rewrite (flush_send st) by (rewrite ?Eq; congruence). cbn [snd].
        apply flush_idle. left. reflexivity.
      + rewrite (flush_idle st) by (right; exact Hc). cbn.
        apply flush_idle. right. exact Hc. }
  split; [exact Hsecond|].
  intros [Hq Hc]. unfold exec at 1. rewrite Hsecond. cbn [snd].
  unfold exec. rewrite (flush_send st Hq Hc). reflexivity.
Qed.

(** *** Stability of computations *)

Section Stable.
Variable R : state -> state -> Prop.
Context {R_pre : PreOrder R}.

Lemma stable_ret {A : Type} (a : A) : stable R (ret a).
Proof. intros st. reflexivity. Qed.

Lemma stable_gets {A : Type} (f : state -> A) : stable R (gets f).
Proof. intros st. reflexivity. Qed.

Lemma stable_liftO {A : Type} (o : outcome A) : stable R (liftO o).
Proof. intros st. reflexivity. Qed.

Lemma stable_modify (f : state -> state) :
  (forall st, R st (f st)) -> stable R (modify f).
Proof. intros H st. apply H. Qed.

Lemma stable_bind {A B : Type} (m : M A) (k : A -> M B) :
  stable R m -> (forall a, stable R (k a)) -> stable R (bind m k).
Proof.
  intros Hm Hk st. unfold exec, bind.
  specialize (Hm st). unfold exec in Hm.
  destruct (m st) as [[a | e] st1]; cbn in *.
  - transitivity st1; [exact Hm | apply Hk].
  - exact Hm.
Qed.

Lemma stable_when (b : bool) (m : M unit) :
  stable R m -> stable R (when b m).
Proof. intros H. destruct b; [exact H | apply stable_ret]. Qed.

Lemma stable_if {A : Type} (b : bool) (m1 m2 : M A) :
  stable R m1 -> stable R m2 -> stable R (if b then m1 else m2).
Proof. destruct b; auto. Qed.

End Stable.

(** *** What is accepted, and what each primitive leaves alone *)

Lemma emitted_flushed (st : state) :
  emitted (flushed (batch st) st) = emitted st.
Proof.
  unfold emitted, flushed. cbn.
  rewrite flat_map_app. cbn. rewrite events_of_batch, !app_nil_r.
  reflexivity.
Qed.

Lemma emitted_pushed type ev (st : state) :
  emitted (pushed type ev st) = emitted st ++ [ev].
Proof.
  unfold emitted. rewrite pushed_network, pushed_queue.
  apply app_assoc.
Qed.

Lemma emitted_warned (st : state) : emitted (warned st) = emitted st.
Proof. unfold emitted. rewrite warned_network, warned_script. reflexivity. Qed.

#[local] Instance quiet_preorder (k : signal) : PreOrder (quiet k).
Proof.
  split.
  - intros st. repeat split. exists []. rewrite app_nil_r. auto.
  - intros a b c (Hc1 & Hg1 & evs1 & He1 & Hf1) (Hc2 & Hg2 & evs2 & He2 & Hf2).
    split; [congruence|]. split; [congruence|].
    exists (evs1 ++ evs2). rewrite He2, He1, app_assoc. split; [reflexivity|].
    rewrite forallb_app, Hf1, Hf2. reflexivity.
Qed.

(** A state change that touches neither CONFIG, the gates, the queue nor
    the network is quiet. *)
Lemma quiet_frame (k : signal) (st st' : state) :
  CONFIG (script st') = CONFIG (script st) ->
  lastScrollDepth (script st') = lastScrollDepth (script st) ->
  lastMouseSample (script st') = lastMouseSample (script st) ->
  eventQueue (script st') = eventQueue (script st) ->
  network (page st') = network (page st) ->
  quiet k st st'.
Proof.
  intros Hc Hs Hm Hq Hn. split; [exact Hc|].
  split; [destruct k; assumption|].
  exists []. unfold emitted. rewrite Hq, Hn, app_nil_r. auto.
Qed.

Lemma trackEvent_effect type data (st : state) :
  let st' := exec (trackEvent type data) st in
  CONFIG (script st') = CONFIG (script st)
  /\ lastScrollDepth (script st') = lastScrollDepth (script st)
  /\ lastMouseSample (script st') = lastMouseSample (script st)
  /\ emitted st' = emitted st
                   ++ (if configured st then [event_at type data st] else []).
Proof.
  cbv zeta. unfold exec. destruct (configured st) eqn:Hc.
  - rewrite (trackEvent_configured _ _ _ Hc). cbv zeta.
    set (ev := event_at type data st).
    set (st1 := pushed type ev (tick st)).
    assert (H1 : CONFIG (script st1) = CONFIG (script st)
                 /\ lastScrollDepth (script st1) = lastScrollDepth (script st)
                 /\ lastMouseSample (script st1) = lastMouseSample (script st)
                 /\ emitted st1 = emitted st ++ [ev]).
    { subst st1. unfold pushed.
      destruct (Js.truthy _); repeat split;
        unfold emitted; cbn; rewrite app_assoc; reflexivity. }
    destruct H1 as (H1c & H1s & H1m & H1e).
    destruct (batchSize (config_of st) <=? _); [|cbn; auto].
    rewrite flush_send.
    + cbn [snd]. rewrite emitted_flushed. cbn. auto.
    + subst st1. rewrite pushed_queue. apply app_unit_not_nil.
    + subst st1. unfold configured. rewrite pushed_config. exact Hc.
  - rewrite (trackEvent_unconfigured _ _ _ Hc). cbn [snd].
    rewrite emitted_warned, warned_script, app_nil_r. auto.
Qed.

Lemma trackEvent_quiet (k : signal) type data :
  (forall st, other_type k (event_at type data st) = true) ->
  stable (quiet k) (trackEvent type data).
Proof.
  intros Hty st.
  destruct (trackEvent_effect type data st) as (Hc & Hs & Hm & He).
  split; [exact Hc|]. split; [destruct k; assumption|].
  eexists. split; [exact He|].
  destruct (configured st); cbn; [rewrite Hty|]; reflexivity.
Qed.

Lemma flush_quiet (k : signal) : stable (quiet k) flush.
Proof.
  intros st. unfold exec.
  destruct (eventQueue (script st)) as [|ev q] eqn:Eq.
  - rewrite flush_idle by (left; exact Eq). reflexivity.
  - destruct (configured st) eqn:Hc.
    + rewrite flush_send by (rewrite ?Eq; congruence). cbn [snd].
      split; [reflexivity|]. split; [destruct k; reflexivity|].
      exists []. rewrite emitted_flushed, app_nil_r. auto.
    + rewrite flush_idle by (right; exact Hc). reflexivity.
Qed.

#[local] Instance quiet_framed (k : signal) : Framed (quiet k).
Proof. split; [apply quiet_preorder | apply quiet_frame]. Qed.

#[local] Existing Instance framed_preorder.

Create HintDb stable discriminated.

Section FramedPrimitives.
Context {R : state -> state -> Prop} {F : Framed R}.

Lemma framed_page (f : browser -> browser) (st : state) :
  network (f (page st)) = network (page st) -> R st (on_page f st).
Proof. intros H. apply framed; auto. Qed.

Lemma framed_script (f : vars -> vars) (st : state) :
  CONFIG (f (script st)) = CONFIG (script st) ->
  lastScrollDepth (f (script st)) = lastScrollDepth (script st) ->
  lastMouseSample (f (script st)) = lastMouseSample (script st) ->
  eventQueue (f (script st)) = eventQueue (script st) ->
  R st (on_script f st).
Proof. intros. apply framed; auto. Qed.

Lemma Date_now_stable : stable R Date_now.
Proof. intros st. apply framed_page. reflexivity. Qed.

Lemma Math_random16_stable : stable R Math_random16.
Proof. intros st. apply framed_page. reflexivity. Qed.

Lemma console_warn_stable msg : stable R (console_warn msg).
Proof. intros st. apply framed_page. reflexivity. Qed.

Lemma console_log_stable msg args : stable R (console_log msg args).
Proof. intros st. apply framed_page. reflexivity. Qed.

Lemma addEventListener_stable t type cb capture :
  stable R (addEventListener t type cb capture).
Proof.
  intros st. apply framed_page. cbv beta zeta.
  match goal with |- context [if ?c then _ else _] => destruct c end;
    reflexivity.
Qed.

Lemma new_closure_stable : stable R new_closure.
Proof. intros st. apply framed_page. reflexivity. Qed.

Lemma setInterval_stable cb period : stable R (setInterval cb period).
Proof. intros st. apply framed_page. reflexivity. Qed.

Lemma setTimeout_stable cb delay : stable R (setTimeout cb delay).
Proof. intros st. apply framed_page. reflexivity. Qed.

Lemma clearTimeout_stable h : stable R (clearTimeout h).
Proof.
  destruct h; [|apply stable_ret; typeclasses eauto].
  intros st. apply framed_page. reflexivity.
Qed.

End FramedPrimitives.

Hint Resolve quiet_framed : stable.
Hint Resolve Date_now_stable Math_random16_stable console_warn_stable
  console_log_stable addEventListener_stable new_closure_stable
  setInterval_stable setTimeout_stable clearTimeout_stable flush_quiet : stable.

(** Stability of a composite computation from that of its parts. *)
Ltac stable_step :=
  match goal with
  | |- stable _ (bind _ _) =>
      apply stable_bind; [typeclasses eauto | | intros]
  | |- stable _ (ret _) => apply stable_ret; typeclasses eauto
  | |- stable _ (gets _) => apply stable_gets; typeclasses eauto
  | |- stable _ (liftO _) => apply stable_liftO; typeclasses eauto
  | |- stable _ (when _ _) => apply stable_when; [typeclasses eauto |]
  | |- stable _ (if ?b then _ else _) => destruct b
  | |- stable _ (match ?x with _ => _ end) => destruct x
  | |- stable _ (modify (on_page _)) =>
      intros ?; apply framed_page; reflexivity
  | |- stable _ (modify (on_script _)) =>
      intros ?; apply framed_script; reflexivity
  | |- stable (quiet ?k) (trackEvent _ _) =>
      apply trackEvent_quiet; intros ?;
      first [is_var k; destruct k; reflexivity | reflexivity]
  | |- stable _ _ => solve [auto with stable]
  | |- stable _ _ => progress cbv zeta
  end.
Ltac stable_tac := repeat stable_step.

Section FramedCookies.
Context {R : state -> state -> Prop} {F : Framed R}.

Lemma Cookie_set_stable name v days : stable R (Cookie_set name v days).
Proof. unfold Cookie_set. stable_tac. Qed.

Lemma Cookie_get_stable name : stable R (Cookie_get name).
Proof. unfold Cookie_get. stable_tac. Qed.

Lemma replace_xy_stable template : stable R (replace_xy template).
Proof.
  induction template as [|c rest IH]; cbn [replace_xy]; stable_tac;
    exact IH.
Qed.

End FramedCookies.

Hint Resolve Cookie_set_stable Cookie_get_stable replace_xy_stable : stable.

Lemma getOrCreateSession_quiet k : stable (quiet k) getOrCreateSession.
Proof. unfold getOrCreateSession, generateId. stable_tac. Qed.

Lemma trackPageView_quiet k : stable (quiet k) trackPageView.
Proof. unfold trackPageView. stable_tac. Qed.

Lemma trackClick_quiet k e : stable (quiet k) (trackClick e).
Proof. unfold trackClick. stable_tac. Qed.

Lemma trackScroll_quiet k : stable (quiet k) trackScroll.
Proof. unfold trackScroll. stable_tac. Qed.

Lemma trackFormInteraction_quiet k type t :
  stable (quiet k) (trackFormInteraction type t).
Proof. unfold trackFormInteraction. stable_tac. Qed.

Lemma trackVisibility_quiet k : stable (quiet k) trackVisibility.
Proof. unfold trackVisibility. stable_tac. Qed.

Lemma trackError_quiet k m s l c stack :
  stable (quiet k) (trackError m s l c stack).
Proof. unfold trackError. stable_tac. Qed.

Lemma updateEngagement_quiet k : stable (quiet k) updateEngagement.
Proof. unfold updateEngagement. stable_tac. Qed.

Lemma before_unload_quiet k : stable (quiet k) before_unload.
Proof. unfold before_unload. stable_tac. Qed.

Lemma hidden_flush_quiet k : stable (quiet k) hidden_flush.
Proof. unfold hidden_flush. stable_tac. Qed.

Hint Resolve getOrCreateSession_quiet trackPageView_quiet trackClick_quiet
  trackScroll_quiet trackFormInteraction_quiet trackVisibility_quiet
  trackError_quiet updateEngagement_quiet before_unload_quiet
  hidden_flush_quiet : stable.

Lemma init_quiet k : stable (quiet k) init.
Proof. unfold init. stable_tac. Qed.

Hint Resolve init_quiet : stable.

Lemma dom_ready_quiet k : stable (quiet k) dom_ready.
Proof. unfold dom_ready. stable_tac. Qed.

Lemma api_track_quiet k name data : stable (quiet k) (api_track name data).
Proof. unfold api_track. stable_tac. Qed.

Lemma api_identify_quiet k userId traits :
  stable (quiet k) (api_identify userId traits).
Proof. unfold api_identify. stable_tac. Qed.

Lemma api_getSession_quiet k : stable (quiet k) api_getSession.
Proof. unfold api_getSession. stable_tac. Qed.

(** The two gated listeners are quiet for the other signal. *)
Lemma trackMouseMove_quiet e : stable (quiet ScrollSignal) (trackMouseMove e).
Proof.
  unfold trackMouseMove. stable_tac.
  intros st. split; [reflexivity|]. split; [reflexivity|].
  exists []. rewrite app_nil_r. split; reflexivity.
Qed.

Lemma scroll_settled_quiet : stable (quiet MouseSignal) scroll_settled.
Proof.
  unfold scroll_settled. stable_tac.
  intros st. split; [reflexivity|]. split; [reflexivity|].
  exists []. rewrite app_nil_r. split; reflexivity.
Qed.

Hint Resolve dom_ready_quiet api_track_quiet api_identify_quiet
  api_getSession_quiet trackMouseMove_quiet scroll_settled_quiet : stable.

(** **** Claim C10 *)

Lemma setSiteId_run (s : value) (st : state) :
  setSiteId s st =
    if Js.truthy s && negb (Js.truthy (waInitialized (page st)))
    then init (on_page (set_waInitialized (VBool true)) (assigned s st))
    else (Ok tt, assigned s st).
Proof.
  unfold setSiteId, bind, modify, gets, assigned. cbn -[init].
  destruct (Js.truthy s && _); reflexivity.
Qed.

(** C10.  setSiteId(s) stores s in CONFIG.siteId whatever s is, also when
    the call goes on to run init.  When s is falsy the call does nothing
    else: listeners, timers, the error hook, the initialized flag and
    the queue stay as they were, and from then on, in every state whose
    site id is still s, createEvent returns null and trackEvent returns
    without queueing. *)
Theorem C10_setSiteId_overwrites (s : value) (st : state) :
  let st' := exec (setSiteId s) st in
  siteId (config_of st') = s
  /\ (Js.truthy s = false ->
      setSiteId s st = (Ok tt, assigned s st)
      /\ page st' = page st
      /\ eventQueue (script st') = eventQueue (script st)
      /\ forall st2 type data,
           siteId (config_of st2) = s ->
           createEvent type data st2 = (Ok None, warned st2)
           /\ trackEvent type data st2 = (Ok tt, warned st2)
           /\ eventQueue (script (exec (trackEvent type data) st2))
              = eventQueue (script st2)).
Proof.
  cbv zeta. unfold exec. rewrite setSiteId_run. split.
  - destruct (Js.truthy s && _); [|reflexivity].
    set (st1 := on_page _ _).
    destruct (init_quiet ScrollSignal st1) as [Hc _].
    unfold exec in Hc. unfold config_of. rewrite Hc. reflexivity.
  - intros Hs. rewrite Hs. cbn [andb snd].
    repeat split; try reflexivity.
    + apply createEvent_unconfigured. unfold configured. congruence.
    + apply trackEvent_unconfigured. unfold configured. congruence.
    + unfold exec. rewrite trackEvent_unconfigured
        by (unfold configured; congruence).
      cbn [snd]. rewrite warned_script. reflexivity.
Qed.

(** **** Claim C9 *)

Lemma substring_length_le (n : nat) (s : string) :
  (String.length (substring 0 n s) <= n)%nat.
Proof.
  revert s. induction n as [|n IH]; intros [|c s]; cbn; try lia.
  specialize (IH s). lia.
Qed.

Lemma trimEnd_length_le (s : string) :
  (String.length (JsString.trimEnd s) <= String.length s)%nat.
Proof.
  induction s as [|c s IH]; cbn; [lia|].
  destruct (JsString.trimEnd s) eqn:Et.
  - destruct (JsString.is_white_space c); cbn; lia.
  - cbn in *. lia.
Qed.

Lemma trimStart_length_le (s : string) :
  (String.length (JsString.trimStart s) <= String.length s)%nat.
Proof.
  induction s as [|c s IH]; cbn; [lia|].
  destruct (JsString.is_white_space c); cbn; lia.
Qed.

Lemma click_text_length (t : element) :
  (String.length (click_text t) <= 100)%nat.
Proof.
  unfold click_text, JsString.trim, JsString.slice0.
  etransitivity; [apply trimEnd_length_le|].
  etransitivity; [apply trimStart_length_le|].
  apply substring_length_le.
Qed.

(** C9, as the script has it.  For a click handled in a configured state
    the event appended has type click and the text field of its element
    descriptor is the first 100 characters of the text content (the
    empty string when the content is null or empty), cut first and
    stripped of surrounding white space afterwards; it is at most 100
    characters long. *)
Theorem C9_click_text_is_cut_then_trimmed (e : mouse_event) (st : state) :
  configured st = true ->
  exists ev,
    createEvent "click" (click_data e) st = (Ok (Some ev), tick st)
    /\ emitted (exec (trackClick e) st) = emitted st ++ [ev]
    /\ has_type "click" ev = true
    /\ recorded_text ev
       = VStr (JsString.trim
                 (JsString.slice0 100
                    match textContent (target e) with
                    | Some s => s
                    | None => ""
                    end))
    /\ (String.length (click_text (target e)) <= 100)%nat.
Proof.
  intros Hc. exists (event_at "click" (click_data e) st).
  split; [apply createEvent_configured; exact Hc|].
  split.
  - unfold trackClick.
    destruct (trackEvent_effect "click" (click_data e) st) as (_ & _ & _ & He).
    rewrite He, Hc. reflexivity.
  - split; [reflexivity|]. split; [reflexivity|]. apply click_text_length.
Qed.

(** *** Turns of the event loop *)

#[local] Instance calm_preorder (k : signal) : PreOrder (calm k).
Proof.
  split.
  - intros st. repeat split. exists []. rewrite app_nil_r. auto.
  - intros a b c (Hc1 & Hg1 & evs1 & He1 & Hf1) (Hc2 & Hg2 & evs2 & He2 & Hf2).
    split; [congruence|]. split; [congruence|].
    exists (evs1 ++ evs2). rewrite He2, He1, app_assoc. split; [reflexivity|].
    rewrite forallb_app, Hf1, Hf2. reflexivity.
Qed.

Lemma quiet_calm (k : signal) (st st' : state) : quiet k st st' -> calm k st st'.
Proof.
  intros (Hc & Hg & He). split; [|split; assumption].
  unfold config_of. rewrite Hc. reflexivity.
Qed.

Lemma stable_quiet_calm {A : Type} (k : signal) (m : M A) :
  stable (quiet k) m -> stable (calm k) m.
Proof. intros H st. apply quiet_calm, H. Qed.

(** An update of CONFIG that keeps the mouse sample interval is calm. *)
Lemma set_config_calm (k : signal) (f : config -> config) :
  (forall c, mouseSampleRate (f c) = mouseSampleRate c) ->
  stable (calm k) (set_config f).
Proof.
  intros Hf st. split; [apply Hf|].
  split; [destruct k; reflexivity|].
  exists []. rewrite app_nil_r. split; reflexivity.
Qed.

Ltac calm_tac :=
  repeat match goal with
         | |- stable (calm _) (set_config _) =>
             apply set_config_calm; intros; reflexivity
         | |- stable (calm _) _ =>
             solve [apply stable_quiet_calm; stable_tac]
         | |- _ => stable_step
         end.

Lemma setSiteId_calm k s : stable (calm k) (setSiteId s).
Proof.
  unfold setSiteId.
  change (modify (on_script
            (fun v => set_CONFIG (set_siteId s (CONFIG v)) v)))
    with (set_config (set_siteId s)).
  calm_tac.
Qed.

Lemma run_api_calm k c : stable (calm k) (run_api c).
Proof.
  destruct c; cbn [run_api]; unfold api_getSiteId;
    try solve [apply stable_quiet_calm; stable_tac].
  - change (api_setEndpoint url) with (set_config (set_endpoint url)).
    calm_tac.
  - apply setSiteId_calm.
  - change (api_setDebug enabled) with (set_config (set_debug enabled)).
    calm_tac.
Qed.

Lemma main_calm k : stable (calm k) main.
Proof. unfold main, read_script_tag, start. calm_tac. Qed.

(** Every callback but the settled-scroll arrow is quiet for the scroll
    signal, and every callback but trackMouseMove for the mouse signal. *)
Lemma run_callback_quiet_scroll cb arg :
  cb <> FnScrollSettled -> stable (quiet ScrollSignal) (run_callback cb arg).
Proof.
  intros Hcb. destruct cb, arg; cbn [run_callback]; try congruence;
    stable_tac.
Qed.

Lemma run_callback_quiet_mouse cb arg :
  cb <> FnTrackMouseMove -> stable (quiet MouseSignal) (run_callback cb arg).
Proof.
  intros Hcb. destruct cb, arg; cbn [run_callback]; try congruence;
    stable_tac.
Qed.

Lemma expire_calm k h (st : state) :
  calm k st (exec_turn (Expire h) st).
Proof. apply quiet_calm, framed_page. reflexivity. Qed.

Lemma set_dom_calm k d (st : state) :
  calm k st (exec_turn (SetDom d) st).
Proof. apply quiet_calm, framed_page. reflexivity. Qed.

(** *** The queue stays below the batch size *)

#[local] Instance within_preorder : PreOrder within.
Proof.
  split.
  - intros st. split; [reflexivity | auto].
  - intros a b c [Hb1 Hq1] [Hb2 Hq2]. split; [congruence | auto].
Qed.

#[local] Instance within_framed : Framed within.
Proof.
  split; [apply within_preorder|].
  intros st st' Hc _ _ Hq _. unfold within, bounded, config_of.
  rewrite Hc, Hq. auto.
Qed.

Lemma flushed_config (t : transmission) (st : state) :
  config_of (flushed t st) = config_of st.
Proof. reflexivity. Qed.

Lemma flushed_queue (t : transmission) (st : state) :
  eventQueue (script (flushed t st)) = [].
Proof. reflexivity. Qed.

Lemma flush_within : stable within flush.
Proof.
  intros st. unfold exec.
  destruct (eventQueue (script st)) as [|ev q] eqn:Eq.
  - rewrite flush_idle by (left; exact Eq). reflexivity.
  - destruct (configured st) eqn:Hc.
    + rewrite flush_send by (rewrite ?Eq; congruence). cbn [snd].
      split; [reflexivity|]. intros _. unfold bounded. cbn. lia.
    + rewrite flush_idle by (right; exact Hc). reflexivity.
Qed.

Lemma trackEvent_within type data : stable within (trackEvent type data).
Proof.
  intros st. unfold exec. destruct (configured st) eqn:Hc.
  - destruct (Z_le_gt_dec (batchSize (config_of st))
                (Z.of_nat (length (eventQueue (script st)
                                   ++ [event_at type data st]))))
      as [Hfull | Hbelow].
    + rewrite (trackEvent_full _ _ _ Hc Hfull). cbv zeta. cbn [snd].
      split; [rewrite flushed_config, pushed_config; reflexivity|].
      intros _. unfold bounded. rewrite flushed_queue. cbn. lia.
    + rewrite (trackEvent_below _ _ _ Hc) by lia. cbn [snd].
      split; [rewrite pushed_config; reflexivity|].
      intros _. unfold bounded. rewrite pushed_queue, pushed_config.
      change (config_of (tick st)) with (config_of st).
      change (eventQueue (script (tick st))) with (eventQueue (script st)).
      lia.
  - rewrite (trackEvent_unconfigured _ _ _ Hc). cbn [snd].
    unfold within, bounded, config_of. rewrite warned_script. auto.
Qed.

Lemma set_config_within (f : config -> config) :
  (forall c, batchSize (f c) = batchSize c) -> stable within (set_config f).
Proof.
  intros Hf st. unfold within, bounded. cbn. rewrite Hf. auto.
Qed.

Lemma within_script (f : vars -> vars) (st : state) :
  CONFIG (f (script st)) = CONFIG (script st) ->
  eventQueue (f (script st)) = eventQueue (script st) ->
  within st (on_script f st).
Proof.
  intros Hc Hq. unfold within, bounded, config_of. cbn. rewrite Hc, Hq. auto.
Qed.

Hint Resolve within_framed flush_within trackEvent_within : stable.

Ltac within_tac :=
  repeat match goal with
         | |- stable within (set_config _) =>
             apply set_config_within; intros; reflexivity
         | |- stable within
                (modify (on_script (fun v => set_CONFIG (?f (CONFIG v)) v))) =>
             change (stable within (set_config f))
         | |- stable within (modify (on_script _)) =>
             intros ?; apply within_script; reflexivity
         | |- _ => stable_step
         end.

Lemma run_callback_within cb arg : stable within (run_callback cb arg).
Proof.
  destruct cb, arg; cbn [run_callback];
    unfold trackClick, trackMouseMove, trackScroll, trackFormInteraction,
      trackVisibility, trackError, updateEngagement, scroll_settled,
      before_unload, hidden_flush, dom_ready, init, trackPageView;
    within_tac.
Qed.

Lemma run_api_within c : stable within (run_api c).
Proof.
  destruct c; cbn [run_api];
    unfold api_track, api_identify, api_getSession, api_setEndpoint,
      setSiteId, api_getSiteId, api_setDebug, init, trackPageView;
    within_tac.
Qed.

Lemma main_within : stable within main.
Proof.
  unfold main, read_script_tag, start, getOrCreateSession, generateId,
    init, trackPageView.
  within_tac.
Qed.

Lemma exec_turn_within (t : turn) (st : state) : within st (exec_turn t st).
Proof.
  destruct t as [cb arg | c | h | d].
  - apply run_callback_within.
  - apply run_api_within.
  - apply framed_page. reflexivity.
  - apply framed_page. reflexivity.
Qed.

Lemma run_turns_within (ts : list turn) (st : state) :
  within st (run_turns ts st).
Proof.
  revert st. induction ts as [|t ts IH]; intros st; [reflexivity|].
  change (run_turns (t :: ts) st) with (run_turns ts (exec_turn t st)).
  transitivity (exec_turn t st); [apply exec_turn_within | apply IH].
Qed.

Lemma page_load_bounded (e : environment) (ts : list turn) :
  Z.of_nat (length (eventQueue (script (run_turns ts (page_load e))))) < 10.
Proof.
  destruct (main_within (State initial_vars (fresh_browser e))) as [Hb Hq].
  destruct (run_turns_within ts (page_load e)) as [Hb' Hq'].
  unfold page_load in *.
  assert (H : bounded (run_turns ts (exec main
                         (State initial_vars (fresh_browser e))))).
  { apply Hq', Hq. unfold bounded. cbn. lia. }
  unfold bounded in H. rewrite Hb', Hb in H. cbn in H. exact H.
Qed.

(** **** Claim C1 *)

(** C1.  In a state with a site id configured, trackEvent returns
    normally and appends the event createEvent built to the queue.  If
    the queue length thereby reaches CONFIG.batchSize (10 in the CONFIG
    literal), flush runs inside the same call: one transmission carrying
    the whole queue, the new event last, is handed to the network and
    the queue is empty when trackEvent returns.  Otherwise nothing is
    sent and the queue is the old one followed by the new event.  So no
    event is accepted on top of a full batch: after the script ran and
    after any turns of the event loop, the queue holds fewer than 10
    events. *)
Theorem C1_enqueue_flushes_at_batch_size
    (type : string) (data : list (string * value)) (st : state) :
  configured st = true ->
  let ev := event_at type data st in
  let q := eventQueue (script st) ++ [ev] in
  let st' := exec (trackEvent type data) st in
  batchSize initial_config = 10
  /\ createEvent type data st = (Ok (Some ev), tick st)
  /\ fst (trackEvent type data st) = Ok tt
  /\ (batchSize (config_of st) <= Z.of_nat (length q) ->
      eventQueue (script st') = []
      /\ exists t, network (page st') = network (page st) ++ [t]
                   /\ events_of t = q)
  /\ (Z.of_nat (length q) < batchSize (config_of st) ->
      eventQueue (script st') = q
      /\ network (page st') = network (page st))
  /\ (forall (e : environment) (ts : list turn),
        Z.of_nat (length (eventQueue (script (run_turns ts (page_load e)))))
        < 10).
Proof.
  intros Hc ev q st'. subst st'. unfold exec.
  split; [reflexivity|].
  split; [apply createEvent_configured; exact Hc|].
  assert (Hreach : forall e ts,
            Z.of_nat (length (eventQueue (script (run_turns ts (page_load e)))))
            < 10) by apply page_load_bounded.
  destruct (Z_le_gt_dec (batchSize (config_of st)) (Z.of_nat (length q)))
    as [Hfull | Hbelow].
  - rewrite (trackEvent_full _ _ _ Hc Hfull). cbv zeta.
    split; [reflexivity|]. split; [|split; [intros; lia | exact Hreach]].
    intros _. split; [reflexivity|].
    exists (batch (pushed type ev (tick st))). cbn.
    rewrite pushed_network, events_of_batch, pushed_queue. split; reflexivity.
  - assert (Hlt : Z.of_nat (length q) < batchSize (config_of st)) by lia.
    rewrite (trackEvent_below _ _ _ Hc Hlt).
    split; [reflexivity|]. split; [intros; lia|]. split; [|exact Hreach].
    intros _. cbn. rewrite pushed_queue, pushed_network. split; reflexivity.
Qed.

(** *** Before a site id is configured *)

#[local] Instance idle_preorder : PreOrder idle.
Proof. split; unfold idle; [intros st; auto | intros a b c; auto]. Qed.

#[local] Instance idle_framed : Framed idle.
Proof.
  split; [apply idle_preorder|].
  intros st st' Hc _ _ Hq Hn. unfold idle, dormant, configured, config_of.
  rewrite Hc, Hq, Hn. auto.
Qed.

Lemma trackEvent_idle type data : stable idle (trackEvent type data).
Proof.
  intros st (Hc & Hq & Hn). unfold exec.
  rewrite (trackEvent_unconfigured _ _ _ Hc). cbn [snd].
  unfold dormant, configured, config_of.
  rewrite warned_script, warned_network. auto.
Qed.

Lemma flush_dormant : stable idle flush.
Proof.
  intros st H. unfold exec. destruct H as (Hc & Hq & Hn).
  rewrite flush_idle by (left; exact Hq). repeat split; assumption.
Qed.

Lemma idle_script (f : vars -> vars) (st : state) :
  CONFIG (f (script st)) = CONFIG (script st) ->
  eventQueue (f (script st)) = eventQueue (script st) ->
  idle st (on_script f st).
Proof.
  intros Hc Hq. unfold idle, dormant, configured, config_of. cbn.
  rewrite Hc, Hq. auto.
Qed.

Lemma set_config_idle (f : config -> config) :
  (forall c, siteId (f c) = siteId c) -> stable idle (set_config f).
Proof.
  intros Hf st. unfold idle, dormant, configured. cbn. rewrite Hf. auto.
Qed.

Hint Resolve idle_framed flush_dormant trackEvent_idle : stable.

Ltac idle_tac :=
  repeat match goal with
         | |- stable idle (set_config _) =>
             apply set_config_idle; intros; reflexivity
         | |- stable idle
                (modify (on_script (fun v => set_CONFIG (?f (CONFIG v)) v))) =>
             change (stable idle (set_config f))
         | |- stable idle (modify (on_script _)) =>
             intros ?; apply idle_script; reflexivity
         | |- _ => stable_step
         end.

Lemma run_callback_idle cb arg : stable idle (run_callback cb arg).
Proof.
  destruct cb, arg; cbn [run_callback];
    unfold trackClick, trackMouseMove, trackScroll, trackFormInteraction,
      trackVisibility, trackError, updateEngagement, scroll_settled,
      before_unload, hidden_flush, dom_ready, init, trackPageView;
    idle_tac.
Qed.

Lemma setSiteId_idle (s : value) :
  Js.truthy s = false -> stable idle (setSiteId s).
Proof.
  intros Hs st (Hc & Hq & Hn). unfold exec.
  rewrite setSiteId_run, Hs. cbn [andb snd].
  repeat split; assumption.
Qed.

Lemma run_api_idle c : activating (Call c) = false -> stable idle (run_api c).
Proof.
  intros Hc. destruct c; cbn [run_api]; cbn [activating] in Hc;
    try (apply setSiteId_idle; exact Hc);
    unfold api_track, api_identify, api_getSession, api_setEndpoint,
      api_getSiteId, api_setDebug;
    idle_tac.
Qed.

Lemma start_idle : stable idle start.
Proof.
  unfold start, getOrCreateSession, generateId, init, trackPageView.
  idle_tac.
Qed.

Lemma start_quiet k : stable (quiet k) start.
Proof. unfold start. stable_tac. Qed.

(** Reading the script tag returns and touches CONFIG only. *)
Lemma read_script_tag_run (st : state) :
  fst (read_script_tag st) = Ok tt
  /\ eventQueue (script (exec read_script_tag st)) = eventQueue (script st)
  /\ page (exec read_script_tag st) = page st.
Proof.
  unfold exec, read_script_tag, bind, gets, when, set_config, modify, ret.
  cbn.
  repeat (match goal with
          | |- context [match ?x with _ => _ end] =>
              match type of x with
              | option _ => destruct x
              | bool => destruct x
              end
          end; cbn);
    auto.
Qed.

Lemma main_run (st : state) :
  exec main st = exec start (exec read_script_tag st).
Proof.
  destruct (read_script_tag_run st) as [Hok _].
  unfold main, exec, bind in *.
  destruct (read_script_tag st) as [[[]|e] st1]; cbn in *;
    [reflexivity | discriminate].
Qed.

Lemma exec_turn_idle (t : turn) (st : state) :
  activating t = false -> idle st (exec_turn t st).
Proof.
  intros Ht. destruct t as [cb arg | c | h | d].
  - apply run_callback_idle.
  - apply run_api_idle, Ht.
  - apply framed_page. reflexivity.
  - apply framed_page. reflexivity.
Qed.

Lemma page_load_dormant (e : environment) (ts : list turn) :
  configured (page_load e) = false ->
  forallb (fun t => negb (activating t)) ts = true ->
  dormant (run_turns ts (page_load e)).
Proof.
  intros Hc Hts.
  assert (H0 : dormant (page_load e)).
  { unfold page_load in *. rewrite main_run in *.
    set (st0 := State initial_vars (fresh_browser e)) in *.
    destruct (read_script_tag_run st0) as (_ & Hq & Hp).
    destruct (start_quiet ScrollSignal (exec read_script_tag st0)) as [Hcfg _].
    apply start_idle. repeat split.
    - unfold configured, config_of in *. rewrite <- Hcfg. exact Hc.
    - rewrite Hq. reflexivity.
    - rewrite Hp. reflexivity. }
  revert H0. generalize (page_load e) as st. clear Hc.
  induction ts as [|t ts IH]; intros st H0; [exact H0|].
  cbn [forallb] in Hts. apply andb_prop in Hts. destruct Hts as [Ht Hts].
  apply negb_true_iff in Ht.
  change (run_turns (t :: ts) st) with (run_turns ts (exec_turn t st)).
  apply (IH Hts). apply (exec_turn_idle t st Ht), H0.
Qed.

(** **** Claim C3 *)

(** C3.  In a state without a site id (CONFIG.siteId falsy), createEvent
    returns null and trackEvent returns normally without touching any
    variable of the script or the network: the queue is the same, so a
    queue of length 0 stays at length 0.  The only trace is the warning
    createEvent logs in debug mode; with debug off the whole state is
    unchanged.  On a page whose script tag configured no site id, for as
    long as no turn calls setSiteId with a truthy value, the queue is
    empty and nothing has been sent. *)
Theorem C3_unconfigured_enqueue_is_noop
    (type : string) (data : list (string * value)) (st : state) :
  configured st = false ->
  let st' := exec (trackEvent type data) st in
  createEvent type data st = (Ok None, warned st)
  /\ trackEvent type data st = (Ok tt, warned st)
  /\ script st' = script st
  /\ network (page st') = network (page st)
  /\ (length (eventQueue (script st)) = 0%nat ->
      length (eventQueue (script st')) = 0%nat)
  /\ (Js.truthy (debug (config_of st)) = false -> st' = st)
  /\ (Js.truthy (debug (config_of st)) = true ->
      console (page st') = console (page st) ++ [Warn site_id_warning])
  /\ (forall (e : environment) (ts : list turn),
        configured (page_load e) = false ->
        forallb (fun t => negb (activating t)) ts = true ->
        length (eventQueue (script (run_turns ts (page_load e)))) = 0%nat
        /\ network (page (run_turns ts (page_load e))) = []).
Proof.
  intros Hc st'. subst st'. unfold exec.
  rewrite (trackEvent_unconfigured _ _ _ Hc). cbn [snd].
  split; [apply createEvent_unconfigured; exact Hc|].
  split; [reflexivity|].
  split; [apply warned_script|].
  split; [apply warned_network|].
  split; [rewrite warned_script; auto|].
  split; [unfold warned; intros Hd; rewrite Hd; reflexivity|].
  split; [unfold warned; intros Hd; rewrite Hd; reflexivity|].
  intros e ts He Hts.
  destruct (page_load_dormant e ts He Hts) as (_ & Hq & Hn).
  rewrite Hq, Hn. split; reflexivity.
Qed.

(** *** The scroll trail *)

Lemma filter_none {A : Type} (p q : A -> bool) (l : list A) :
  (forall x, q x = true -> p x = false) ->
  forallb q l = true -> filter p l = [].
Proof.
  intros Hpq. induction l as [|x l IH]; cbn; [reflexivity|].
  intros H. apply andb_prop in H. destruct H as [Hx Hl].
  rewrite (Hpq x Hx). auto.
Qed.

Lemma scroll_depths_other (l evs : list value) :
  forallb (other_type ScrollSignal) evs = true ->
  scroll_depths (l ++ evs) = scroll_depths l.
Proof.
  intros H. unfold scroll_depths. rewrite filter_app.
  rewrite (filter_none (has_type "scroll") (other_type ScrollSignal) evs).
  - rewrite app_nil_r. reflexivity.
  - intros x Hx. unfold other_type in Hx. cbn in Hx.
    destruct (has_type "scroll" x); [discriminate | reflexivity].
  - exact H.
Qed.

Lemma last_default (a b x : Z) (l : list Z) :
  last (x :: l) a = last (x :: l) b.
Proof.
  revert x. induction l as [|y l IH]; intros x; [reflexivity|].
  change (last (y :: l) a = last (y :: l) b). apply IH.
Qed.

Lemma sparse_snoc (floor d : Z) (ds : list Z) :
  sparse floor ds -> last ds floor + 10 < d -> sparse floor (ds ++ [d]).
Proof.
  revert floor. induction ds as [|x ds IH]; intros floor Hs Hd.
  - cbn in *. auto.
  - destruct Hs as [Hx Hs]. split; [exact Hx|]. apply IH; [exact Hs|].
    destruct ds as [|y ds]; [exact Hd|].
    rewrite (last_default x floor). exact Hd.
Qed.

Lemma last_snoc (floor d : Z) (ds : list Z) : last (ds ++ [d]) floor = d.
Proof. apply last_last. Qed.

Lemma trail_ok_calm (st st' : state) :
  calm ScrollSignal st st' -> trail_ok st -> trail_ok st'.
Proof.
  intros (_ & Hg & evs & He & Hf) [Hs Hl]. unfold trail_ok.
  rewrite He, (scroll_depths_other _ _ Hf). cbn in Hg. rewrite Hg.
  split; assumption.
Qed.

Lemma scroll_settled_run (st : state) :
  scroll_settled st =
    let depth := scroll_depth (dom_of (page st)) in
    if lastScrollDepth (script st) + 10 <? depth then
      trackEvent "scroll"
        [("depth", VNum depth);
         ("position", VNum (scroll_top (dom_of (page st))))]
        (on_script (set_lastScrollDepth depth) st)
    else (Ok tt, st).
Proof.
  unfold scroll_settled, scroll_depth, scroll_top, bind, gets, modify.
  cbn -[trackEvent Z.mul Z.add Z.max round_percent].
  destruct (_ <? _); reflexivity.
Qed.

Lemma scroll_settled_trail (st : state) :
  trail_ok st -> trail_ok (exec scroll_settled st).
Proof.
  intros [Hs Hl]. unfold exec. rewrite scroll_settled_run. cbv zeta.
  set (depth := scroll_depth (dom_of (page st))).
  destruct (Z.ltb_spec (lastScrollDepth (script st) + 10) depth) as [Hlt|Hge];
    [|split; assumption].
  set (data := [("depth", VNum depth); _]).
  set (st1 := on_script (set_lastScrollDepth depth) st).
  destruct (trackEvent_effect "scroll" data st1) as (_ & Hd & _ & He).
  unfold exec in *. unfold trail_ok. rewrite He, Hd.
  change (emitted st1) with (emitted st).
  change (lastScrollDepth (script st1)) with depth.
  destruct (configured st1).
  - unfold scroll_depths. rewrite filter_app, map_app.
    change (map depth_of (filter (has_type "scroll") [event_at "scroll" data st1]))
      with [depth].
    split.
    + apply sparse_snoc; [exact Hs|]. fold (scroll_depths (emitted st)). lia.
    + rewrite last_snoc. lia.
  - rewrite app_nil_r. split; [exact Hs | lia].
Qed.

Lemma exec_turn_trail (t : turn) (st : state) :
  trail_ok st -> trail_ok (exec_turn t st).
Proof.
  intros H. destruct t as [cb arg | c | h | d].
  - destruct cb;
      try (refine (trail_ok_calm _ _ _ H); apply quiet_calm;
           apply run_callback_quiet_scroll; discriminate).
    apply scroll_settled_trail, H.
  - refine (trail_ok_calm _ _ _ H). apply run_api_calm.
  - refine (trail_ok_calm _ _ _ H). apply expire_calm.
  - refine (trail_ok_calm _ _ _ H). apply set_dom_calm.
Qed.

Lemma run_turns_trail (ts : list turn) (st : state) :
  trail_ok st -> trail_ok (run_turns ts st).
Proof.
  revert st. induction ts as [|t ts IH]; intros st H; cbn; [exact H|].
  apply IH, exec_turn_trail, H.
Qed.

Lemma page_load_trail (e : environment) : trail_ok (page_load e).
Proof.
  unfold page_load.
  refine (trail_ok_calm _ _ (main_calm ScrollSignal _) _).
  split; cbn; lia.
Qed.

(** A sparse trail that stays at or below [top] has at most
    ([top] - [floor]) / 11 entries. *)
Lemma sparse_length (floor top : Z) (ds : list Z) :
  sparse floor ds -> Forall (fun d => d <= top) ds ->
  floor + 11 * Z.of_nat (length ds) <= Z.max floor top.
Proof.
  revert floor. induction ds as [|d ds IH]; intros floor Hs Hf.
  - cbn. lia.
  - destruct Hs as [Hd Hs]. inversion Hf as [|? ? Hdt Hf']; subst.
    specialize (IH d Hs Hf'). cbn [length]. lia.
Qed.

Lemma sparse_sorted (floor : Z) (ds : list Z) :
  sparse floor ds ->
  Forall (fun d => floor + 10 < d) ds
  /\ StronglySorted (fun a b => a + 10 < b) ds.
Proof.
  revert floor. induction ds as [|d ds IH]; intros floor Hs.
  - split; constructor.
  - destruct Hs as [Hd Hs]. destruct (IH d Hs) as [Hall Hsorted].
    split.
    + constructor; [exact Hd|].
      eapply Forall_impl; [|exact Hall]. cbn. intros; lia.
    + constructor; assumption.
Qed.

Lemma react_all_run_turns (ss : list stimulus) (st : state) :
  react_all ss st = run_turns (trace_of ss st) st.
Proof.
  revert st. induction ss as [|s ss IH]; intros st; [reflexivity|].
  cbn [trace_of react_all fold_left]. unfold run_turns.
  rewrite fold_left_app. apply IH.
Qed.

(** **** Claim C4 *)

(** C4.  Whatever turns the event loop takes after the script ran
    (scroll signals, settled-scroll timers and anything else, in any
    order), the depths of the scroll events accepted so far, oldest
    first, exceed one another by more than 10, the first exceeding 0 by
    more than 10: they are strictly increasing and any later one is more
    than 10 above any earlier one.  If none of them is above 100 there
    are at most 9 of them, which is within 100 / 10.  The same holds
    after any sequence of stimuli, since a stimulus is run as turns. *)
Theorem C4_scroll_depths_sparse (e : environment) :
  (forall ts : list turn,
     let ds := scroll_depths (emitted (run_turns ts (page_load e))) in
     sparse 0 ds
     /\ StronglySorted (fun a b => a + 10 < b) ds
     /\ (Forall (fun d => d <= 100) ds ->
         (length ds <= 9)%nat /\ Z.of_nat (length ds) <= 100 / 10))
  /\ (forall ss : list stimulus,
        sparse 0 (scroll_depths (emitted (react_all ss (page_load e))))).
Proof.
  assert (H : forall ts,
             sparse 0 (scroll_depths (emitted (run_turns ts (page_load e))))).
  { intros ts. apply (run_turns_trail ts (page_load e)), page_load_trail. }
  split.
  - intros ts ds. subst ds. specialize (H ts).
    split; [exact H|]. split; [apply (sparse_sorted 0), H|].
    intros Hf. pose proof (sparse_length 0 100 _ H Hf) as Hlen.
    change (100 / 10) with 10. lia.
  - intros ss. rewrite react_all_run_turns. apply H.
Qed.

(** *** Mouse sampling *)

Lemma trackMouseMove_run (e : mouse_event) (st : state) :
  trackMouseMove e st =
    if now_of st - lastMouseSample (script st) <? mouseSampleRate (config_of st)
    then (Ok tt, tick st)
    else trackEvent "mousemove" [("position", position_of e)]
           (on_script (set_lastMouseSample (now_of st)) (tick st)).
Proof.
  unfold trackMouseMove, bind, gets, modify, Date_now, now_of, tick.
  cbn -[trackEvent Z.sub].
  destruct (_ <? _); reflexivity.
Qed.

Lemma count_type_app type (l1 l2 : list value) :
  count_type type (l1 ++ l2) = (count_type type l1 + count_type type l2)%nat.
Proof. unfold count_type. rewrite filter_app, length_app. reflexivity. Qed.

Lemma moves_calm (st st' : state) :
  calm MouseSignal st st' ->
  moves st' = moves st
  /\ lastMouseSample (script st') = lastMouseSample (script st)
  /\ mouseSampleRate (config_of st') = mouseSampleRate (config_of st).
Proof.
  intros (Hr & Hg & evs & He & Hf). split; [|split; assumption].
  unfold moves, count_type. rewrite He, filter_app.
  rewrite (filter_none (has_type "mousemove") (other_type MouseSignal) evs).
  - rewrite app_nil_r. reflexivity.
  - intros x Hx. unfold other_type in Hx. cbn in Hx.
    destruct (has_type "mousemove" x); [discriminate | reflexivity].
  - exact Hf.
Qed.

(** One call of trackMouseMove: dropped, or accepted with the gate moved
    to the time of the call. *)
Lemma trackMouseMove_step (e : mouse_event) (st : state) :
  let st' := exec (trackMouseMove e) st in
  mouseSampleRate (config_of st') = mouseSampleRate (config_of st)
  /\ ((now_of st - lastMouseSample (script st) < mouseSampleRate (config_of st)
       /\ st' = tick st)
      \/ (lastMouseSample (script st) + mouseSampleRate (config_of st)
            <= now_of st
          /\ lastMouseSample (script st') = now_of st
          /\ (moves st' <= moves st + 1)%nat)).
Proof.
  cbv zeta. unfold exec. rewrite trackMouseMove_run.
  destruct (Z.ltb_spec (now_of st - lastMouseSample (script st))
                       (mouseSampleRate (config_of st))) as [Hlt | Hge].
  - split; [reflexivity|]. left. split; [exact Hlt | reflexivity].
  - set (st1 := on_script _ _).
    destruct (trackEvent_effect "mousemove" [("position", position_of e)] st1)
      as (Hc & _ & Hm & He).
    unfold exec in *. split; [unfold config_of; rewrite Hc; reflexivity|].
    right. split; [lia|]. split; [rewrite Hm; reflexivity|].
    unfold moves. rewrite He, count_type_app.
    change (emitted st1) with (emitted st).
    destruct (configured st1); cbn; lia.
Qed.

Lemma exec_turn_calm_mouse (t : turn) (st : state) :
  (forall e, t <> Run FnTrackMouseMove (MouseArg e)) ->
  calm MouseSignal st (exec_turn t st).
Proof.
  intros Ht. destruct t as [cb arg | c | h | d].
  - destruct cb;
      try (apply quiet_calm; apply run_callback_quiet_mouse; discriminate).
    destruct arg as [| e | |]; try (specialize (Ht e); congruence);
      cbn; reflexivity.
  - apply run_api_calm.
  - apply expire_calm.
  - apply set_dom_calm.
Qed.

Lemma mouse_times_other (t : turn) (ts : list turn) (st : state) :
  (forall e, t <> Run FnTrackMouseMove (MouseArg e)) ->
  mouse_times (t :: ts) st = mouse_times ts (exec_turn t st).
Proof.
  intros Ht. cbn [mouse_times].
  destruct t as [cb arg | | |]; try reflexivity.
  destruct cb; try reflexivity.
  destruct arg as [| e | |]; try reflexivity.
  specialize (Ht e). congruence.
Qed.

Lemma turn_cases (t : turn) :
  (exists e, t = Run FnTrackMouseMove (MouseArg e))
  \/ (forall e, t <> Run FnTrackMouseMove (MouseArg e)).
Proof.
  destruct t as [cb arg | | |]; try (right; discriminate).
  destruct cb; try (right; discriminate).
  destruct arg as [| e | |]; try (right; discriminate).
  left. exists e. reflexivity.
Qed.

(** Once the gate lies at or after the start of a window shorter than
    the interval, every move inside the window is dropped. *)
Lemma window_closed (a : Z) (ts : list turn) (st : state) :
  a <= lastMouseSample (script st) ->
  Forall (fun t => t < a + mouseSampleRate (config_of st)) (mouse_times ts st) ->
  moves (run_turns ts st) = moves st.
Proof.
  revert st. induction ts as [|t ts IH]; intros st Ha Hw; [reflexivity|].
  change (run_turns (t :: ts) st) with (run_turns ts (exec_turn t st)).
  destruct (turn_cases t) as [[e ->] | Hother].
  - cbn [mouse_times app] in Hw. inversion Hw as [|? ? Hnow Hrest]; subst.
    cbn [exec_turn run_callback] in *.
    destruct (trackMouseMove_step e st) as [Hr [[_ Hst] | [Hacc _]]].
    + rewrite Hst in *.
      transitivity (moves (tick st)); [|reflexivity].
      apply IH; [exact Ha | exact Hrest].
    + lia.
  - destruct (moves_calm _ _ (exec_turn_calm_mouse t st Hother))
      as (Hm & Hl & Hr).
    rewrite (mouse_times_other _ _ _ Hother) in Hw.
    rewrite IH; [exact Hm | rewrite Hl; exact Ha | rewrite Hr; exact Hw].
Qed.

Lemma window_once (a : Z) (ts : list turn) (st : state) :
  Forall (fun t => a <= t < a + mouseSampleRate (config_of st))
         (mouse_times ts st) ->
  (moves (run_turns ts st) <= moves st + 1)%nat.
Proof.
  revert st. induction ts as [|t ts IH]; intros st Hw; [cbn; lia|].
  change (run_turns (t :: ts) st) with (run_turns ts (exec_turn t st)).
  destruct (turn_cases t) as [[e ->] | Hother].
  - cbn [mouse_times app] in Hw. inversion Hw as [|? ? Hnow Hrest]; subst.
    cbn [exec_turn run_callback] in *.
    destruct (trackMouseMove_step e st) as [Hr [[_ Hst] | (_ & Hlast & Hmv)]].
    + rewrite Hst in *.
      change (moves st) with (moves (tick st)). apply IH. exact Hrest.
    + rewrite (window_closed a).
      * exact Hmv.
      * rewrite Hlast. lia.
      * rewrite Hr. eapply Forall_impl; [|exact Hrest]. cbn. intros; lia.
  - destruct (moves_calm _ _ (exec_turn_calm_mouse t st Hother))
      as (Hm & Hl & Hr).
    rewrite (mouse_times_other _ _ _ Hother) in Hw.
    rewrite <- Hm. apply IH. rewrite Hr. exact Hw.
Qed.

Lemma accepted_times_spaced (ts : list turn) (st : state) :
  spaced (mouseSampleRate (config_of st)) (lastMouseSample (script st))
         (accepted_times ts st).
Proof.
  revert st. induction ts as [|t ts IH]; intros st; [exact I|].
  cbn [accepted_times].
  destruct (turn_cases t) as [[e ->] | Hother].
  - specialize (IH (exec_turn (Run FnTrackMouseMove (MouseArg e)) st)).
    cbn [exec_turn run_callback] in *.
    destruct (trackMouseMove_step e st) as [Hr [[Hlt Hst] | (Hge & Hlast & _)]].
    + apply Z.ltb_lt in Hlt. rewrite Hlt.
      rewrite Hst in IH |- *. exact IH.
    + assert (Hnlt : (now_of st - lastMouseSample (script st)
                      <? mouseSampleRate (config_of st)) = false)
        by (apply Z.ltb_ge; lia).
      rewrite Hnlt. cbn [app spaced]. split; [exact Hge|].
      rewrite Hr, Hlast in IH. exact IH.
  - destruct (moves_calm _ _ (exec_turn_calm_mouse t st Hother))
      as (_ & Hl & Hr).
    specialize (IH (exec_turn t st)). rewrite Hl, Hr in IH.
    destruct t as [cb arg | | |]; try exact IH.
    destruct cb; try exact IH.
    destruct arg as [| e | |]; try exact IH.
    specialize (Hother e). congruence.
Qed.

Lemma spaced_sorted (gap floor : Z) (times : list Z) :
  0 <= gap -> spaced gap floor times ->
  Forall (fun t => floor + gap <= t) times
  /\ StronglySorted (fun a b => a + gap <= b) times.
Proof.
  intros Hgap. revert floor.
  induction times as [|t times IH]; intros floor Hs.
  - split; constructor.
  - destruct Hs as [Ht Hs]. destruct (IH t Hs) as [Hall Hsorted].
    split.
    + constructor; [exact Ht|].
      eapply Forall_impl; [|exact Hall]. cbn. intros; lia.
    + constructor; assumption.
Qed.

(** **** Claim C5 *)

(** C5.  The sample interval of the CONFIG literal is 100 ms.  A move
    signal that arrives less than CONFIG.mouseSampleRate after the last
    accepted sample is dropped: trackMouseMove returns having done
    nothing but read the clock.  In any run of turns the accepted
    samples are at least the interval apart, each from the one before it
    (and so any two of them, the interval not being negative).  If the
    times of all move signals of a run lie in one window shorter than
    the interval, the run adds at most one mousemove event to those
    accepted. *)
Theorem C5_mouse_samples_throttled :
  mouseSampleRate initial_config = 100
  /\ (forall (e : mouse_event) (st : state),
        now_of st - lastMouseSample (script st) < mouseSampleRate (config_of st) ->
        trackMouseMove e st = (Ok tt, tick st))
  /\ (forall (ts : list turn) (st : state),
        let gap := mouseSampleRate (config_of st) in
        let times := accepted_times ts st in
        spaced gap (lastMouseSample (script st)) times
        /\ (0 <= gap -> StronglySorted (fun a b => a + gap <= b) times))
  /\ (forall (a : Z) (ts : list turn) (st : state),
        Forall (fun t => a <= t < a + mouseSampleRate (config_of st))
               (mouse_times ts st) ->
        (moves (run_turns ts st) <= moves st + 1)%nat).
Proof.
  split; [reflexivity|]. split; [|split].
  - intros e st Hlt. rewrite trackMouseMove_run.
    apply Z.ltb_lt in Hlt. rewrite Hlt. reflexivity.
  - intros ts st gap times. subst gap times.
    pose proof (accepted_times_spaced ts st) as Hs.
    split; [exact Hs|]. intros Hgap.
    apply (spaced_sorted _ _ _ Hgap Hs).
  - intros a ts st. apply window_once.
Qed.

(** *** Sessions *)

Lemma Cookie_get_run (st : state) :
  Cookie_get (cookieName (config_of st)) st = (Ok (parsed_cookie st), st).
Proof.
  unfold Cookie_get, parsed_cookie, stored_text, bind, gets. cbn.
  destruct (CookieJar.regexp_match _ _) as [m2|]; [|reflexivity].
  destruct (decodeURIComponent m2) as [text|]; [|reflexivity].
  destruct (JSON_parse text); reflexivity.
Qed.

Lemma absent_or_unparsable_null (st : state) :
  absent_or_unparsable st -> parsed_cookie st = VNull.
Proof.
  unfold absent_or_unparsable, parsed_cookie.
  destruct (stored_text st) as [m2|]; [|reflexivity].
  destruct (decodeURIComponent m2) as [text|]; [|reflexivity].
  intros ->. reflexivity.
Qed.

(** generateId returns, with a string as long as its template. *)
Lemma replace_xy_returns (template : string) (st : state) :
  exists s st1, replace_xy template st = (Ok s, st1)
                /\ String.length s = String.length template.
Proof.
  revert st. induction template as [|c rest IH]; intros st.
  - exists "", st. split; reflexivity.
  - cbn [replace_xy]. destruct (Ascii.eqb c "x" || Ascii.eqb c "y").
    + unfold bind at 1. cbn [Math_random16].
      set (st0 := on_page _ st).
      destruct (IH st0) as (s & st1 & Hs & Hlen).
      unfold bind. rewrite Hs. eexists _, st1. split; [reflexivity|].
      cbn. rewrite Hlen. reflexivity.
    + destruct (IH st) as (s & st1 & Hs & Hlen).
      unfold bind. rewrite Hs. eexists _, st1. split; [reflexivity|].
      cbn. rewrite Hlen. reflexivity.
Qed.

Lemma generateId_returns (st : state) :
  exists id st1, generateId st = (Ok id, st1) /\ String.length id = 36%nat.
Proof. apply replace_xy_returns. Qed.

(** getOrCreateSession when Cookie.get returns a falsy value. *)
Lemma getOrCreateSession_fresh (st : state) :
  Js.truthy (parsed_cookie st) = false ->
  exists id visitorId st1 st2 st',
    generateId st = (Ok id, st1)
    /\ generateId st1 = (Ok visitorId, st2)
    /\ String.length id = 36%nat /\ String.length visitorId = 36%nat
    /\ getOrCreateSession st
       = (Ok (fresh_session id visitorId (now_of st2) (now_of (tick st2))), st').
Proof.
  intros Hfalsy.
  destruct (generateId_returns st) as (id & st1 & Hid & Hlen1).
  destruct (generateId_returns st1) as (vid & st2 & Hvid & Hlen2).
  exists id, vid, st1, st2. eexists.
  repeat (split; [eassumption|]).
  unfold getOrCreateSession. unfold bind at 1. unfold gets at 1.
  unfold bind at 1. rewrite Cookie_get_run, Hfalsy. cbn [negb].
  unfold bind at 1. unfold bind at 1. rewrite Hid.
  unfold bind at 1. rewrite Hvid.
  reflexivity.
Qed.

(** A cookie that parses to a number, a string or true is not covered by
    the two cases above: the assignment session.isNew = false in strict
    mode throws, and getOrCreateSession with it. *)
Lemma getOrCreateSession_primitive (st : state) :
  Js.truthy (parsed_cookie st) = true ->
  (forall fields, parsed_cookie st <> VObj fields) ->
  (forall items props, parsed_cookie st <> VArr items props) ->
  exists msg, getOrCreateSession st = (Throw (TypeError msg), st).
Proof.
  intros Htruthy Hobj Harr.
  unfold getOrCreateSession. unfold bind at 1. unfold gets at 1.
  unfold bind at 1. rewrite Cookie_get_run, Htruthy. cbn [negb].
  unfold bind at 1.
  destruct (parsed_cookie st) as [| | b | n | | s | fields | items props | m k | sgn];
    try discriminate; cbn.
  - eexists. reflexivity.
  - eexists. reflexivity.
  - eexists. reflexivity.
  - exfalso. apply (Hobj fields). reflexivity.
  - exfalso. apply (Harr items props). reflexivity.
  - eexists. reflexivity.
  - eexists. reflexivity.
Qed.

(** *** Text of cookies *)

Lemma append_assoc (a b c : string) : (a +++ b) +++ c = a +++ (b +++ c).
Proof. induction a as [|x a IH]; cbn; [reflexivity | rewrite IH; reflexivity]. Qed.

Lemma string_all_app p (a b : string) :
  string_all p (a +++ b) = string_all p a && string_all p b.
Proof.
  induction a as [|x a IH]; cbn; [reflexivity|].
  rewrite IH, andb_assoc. reflexivity.
Qed.

Lemma string_all_impl (p q : ascii -> bool) (s : string) :
  (forall c, p c = true -> q c = true) ->
  string_all p s = true -> string_all q s = true.
Proof.
  intros Hpq. induction s as [|c s IH]; cbn; [reflexivity|].
  intros H. apply andb_prop in H. destruct H as [Hc Hs].
  rewrite (Hpq c Hc), (IH Hs). reflexivity.
Qed.

Lemma take_until_all (stop : ascii) (s : string) :
  string_all (is_not stop) s = true -> CookieJar.take_until stop s = s.
Proof.
  induction s as [|c s IH]; cbn; [reflexivity|].
  intros H. apply andb_prop in H. destruct H as [Hc Hs].
  unfold is_not in Hc. apply negb_true_iff in Hc. rewrite Hc, (IH Hs).
  reflexivity.
Qed.

Lemma take_until_app (stop : ascii) (s rest : string) :
  string_all (is_not stop) s = true ->
  CookieJar.take_until stop (s +++ String stop rest) = s.
Proof.
  induction s as [|c s IH]; cbn.
  - rewrite Ascii.eqb_refl. reflexivity.
  - intros H. apply andb_prop in H. destruct H as [Hc Hs].
    unfold is_not in Hc. apply negb_true_iff in Hc. rewrite Hc, (IH Hs).
    reflexivity.
Qed.

Lemma drop_through_app (stop : ascii) (s rest : string) :
  string_all (is_not stop) s = true ->
  CookieJar.drop_through stop (s +++ String stop rest) = Some rest.
Proof.
  induction s as [|c s IH]; cbn.
  - rewrite Ascii.eqb_refl. reflexivity.
  - intros H. apply andb_prop in H. destruct H as [Hc Hs].
    unfold is_not in Hc. apply negb_true_iff in Hc. rewrite Hc. apply IH, Hs.
Qed.

Lemma strip_wsp_start_id (s : string) :
  string_all (fun c => negb (CookieJar.is_wsp c)) s = true ->
  CookieJar.strip_wsp_start s = s.
Proof.
  destruct s as [|c s]; cbn; [reflexivity|].
  intros H. apply andb_prop in H. destruct H as [Hc _].
  apply negb_true_iff in Hc. rewrite Hc. reflexivity.
Qed.

Lemma strip_wsp_end_id (s : string) :
  string_all (fun c => negb (CookieJar.is_wsp c)) s = true ->
  CookieJar.strip_wsp_end s = s.
Proof.
  induction s as [|c s IH]; cbn; [reflexivity|].
  intros H. apply andb_prop in H. destruct H as [Hc Hs].
  apply negb_true_iff in Hc. rewrite (IH Hs), Hc.
  destruct s; reflexivity.
Qed.

Lemma strip_wsp_id (s : string) :
  string_all (fun c => negb (CookieJar.is_wsp c)) s = true ->
  CookieJar.strip_wsp s = s.
Proof.
  intros H. unfold CookieJar.strip_wsp.
  rewrite (strip_wsp_start_id s H). apply strip_wsp_end_id, H.
Qed.

(** encodeURIComponent writes unreserved characters, percent signs and
    hexadecimal digits only. *)
Lemma encode_char_value (c : ascii) :
  string_all value_char (Codec.encode_char c) = true
  /\ Codec.encode_char c <> "".
Proof.
  destruct c as [b0 b1 b2 b3 b4 b5 b6 b7].
  destruct b0, b1, b2, b3, b4, b5, b6, b7;
    (split; [vm_compute; reflexivity | discriminate]).
Qed.

Lemma encodeURIComponent_value (s : string) :
  string_all value_char (Codec.encodeURIComponent s) = true.
Proof.
  induction s as [|c s IH]; cbn; [reflexivity|].
  rewrite string_all_app, (proj1 (encode_char_value c)), IH. reflexivity.
Qed.

Lemma encodeURIComponent_nonempty (s : string) :
  s <> "" -> Codec.encodeURIComponent s <> "".
Proof.
  destruct s as [|c s]; [congruence|]. intros _. cbn.
  pose proof (proj2 (encode_char_value c)) as Hc.
  destruct (Codec.encode_char c); [congruence | discriminate].
Qed.

Lemma cookie_text_object_nonempty (fields : list (string * value)) :
  cookie_text (VObj fields) <> "".
Proof.
  unfold cookie_text. cbn [Codec.JSON_stringify].
  apply encodeURIComponent_nonempty. discriminate.
Qed.

(** The pair the browser reads from the text Cookie.set assigns. *)
Lemma parse_pair_written (name enc attrs : string) :
  cookie_name_ok name = true -> string_all value_char enc = true ->
  CookieJar.parse_pair (name +++ String "=" (enc +++ String ";" attrs))
  = (name, enc).
Proof.
  intros Hname Henc.
  change (name +++ String "=" (enc +++ String ";" attrs))
    with (name +++ "=" +++ enc +++ String ";" attrs).
  unfold cookie_name_ok in Hname.
  apply andb_prop in Hname. destruct Hname as [_ Hname].
  assert (Hn1 : string_all (is_not ";") name = true).
  { eapply string_all_impl; [|exact Hname]. unfold name_char. intros c H.
    apply andb_prop in H. destruct H as [H _].
    apply andb_prop in H. tauto. }
  assert (Hn2 : string_all (is_not "=") name = true).
  { eapply string_all_impl; [|exact Hname]. unfold name_char. intros c H.
    apply andb_prop in H. destruct H as [H _].
    apply andb_prop in H. tauto. }
  assert (Hn3 : string_all (fun c => negb (CookieJar.is_wsp c)) name = true).
  { eapply string_all_impl; [|exact Hname]. unfold name_char. intros c H.
    apply andb_prop in H. tauto. }
  assert (He1 : string_all (is_not ";") enc = true).
  { eapply string_all_impl; [|exact Henc]. unfold value_char. intros c H.
    apply andb_prop in H. tauto. }
  assert (He2 : string_all (fun c => negb (CookieJar.is_wsp c)) enc = true).
  { eapply string_all_impl; [|exact Henc]. unfold value_char. intros c H.
    apply andb_prop in H. tauto. }
  unfold CookieJar.parse_pair.
  replace (name +++ "=" +++ enc +++ String ";" attrs)
    with ((name +++ "=" +++ enc) +++ String ";" attrs)
    by (rewrite !append_assoc; reflexivity).
  rewrite take_until_app
    by (rewrite !string_all_app, Hn1, He1; reflexivity).
  change (name +++ "=" +++ enc) with (name +++ String "=" enc).
  rewrite (drop_through_app "=" name enc Hn2).
  rewrite (take_until_app "=" name enc Hn2).
  rewrite (strip_wsp_id name Hn3), (strip_wsp_id enc He2). reflexivity.
Qed.

Lemma assign_written (name enc attrs : string) (now days : Z)
    (jar : list (string * string)) :
  cookie_name_ok name = true -> string_all value_char enc = true ->
  0 < days ->
  CookieJar.assign (name +++ String "=" (enc +++ String ";" attrs))
    (now + days * 24 * 60 * 60 * 1000) now jar
  = CookieJar.store name enc jar.
Proof.
  intros Hname Henc Hdays. unfold CookieJar.assign.
  rewrite (parse_pair_written name enc attrs Hname Henc).
  unfold cookie_name_ok in Hname. apply andb_prop in Hname.
  destruct Hname as [Hne _]. apply negb_true_iff in Hne. rewrite Hne.
  cbn [andb].
  assert (Hlt : (now <? now + days * 24 * 60 * 60 * 1000) = true)
    by (apply Z.ltb_lt; lia).
  rewrite Hlt. reflexivity.
Qed.

Lemma strip_prefix_app (a b c : string) :
  CookieJar.strip_prefix (a +++ b) (a +++ c) = CookieJar.strip_prefix b c.
Proof.
  induction a as [|x a IH]; cbn; [reflexivity|].
  rewrite Ascii.eqb_refl. exact IH.
Qed.

Lemma strip_prefix_other (name n rest : string) :
  n <> name ->
  string_all (is_not "=") name = true -> string_all (is_not "=") n = true ->
  CookieJar.strip_prefix (name +++ "=") (n +++ String "=" rest) = None.
Proof.
  revert n. induction name as [|a name IH]; intros n Hne Hname Hn.
  - destruct n as [|c n]; [congruence|].
    cbn [String.append CookieJar.strip_prefix string_all] in *.
    apply andb_prop in Hn. destruct Hn as [Hc _]. unfold is_not in Hc.
    apply negb_true_iff in Hc. rewrite Ascii.eqb_sym, Hc. reflexivity.
  - cbn [string_all] in Hname. apply andb_prop in Hname.
    destruct Hname as [Ha Hname].
    unfold is_not in Ha. apply negb_true_iff in Ha.
    destruct n as [|c n]; cbn [String.append CookieJar.strip_prefix].
    + rewrite Ha. reflexivity.
    + cbn [string_all] in Hn. apply andb_prop in Hn. destruct Hn as [_ Hn].
      destruct (Ascii.eqb_spec a c) as [->|]; [|reflexivity].
      apply IH; [congruence | exact Hname | exact Hn].
Qed.

Lemma match_after_space_skip (name s rest : string) :
  string_all (is_not " ") s = true ->
  CookieJar.match_after_space name (s +++ rest)
  = CookieJar.match_after_space name rest.
Proof.
  induction s as [|c s IH]; cbn; [reflexivity|].
  intros H. apply andb_prop in H. destruct H as [Hc Hs].
  unfold is_not in Hc. apply negb_true_iff in Hc. rewrite Hc. apply IH, Hs.
Qed.

Lemma match_here_found (name enc tail : string) :
  string_all (is_not ";") enc = true -> enc <> "" ->
  tail = "" \/ (exists t, tail = String ";" t) ->
  CookieJar.match_here name (name +++ "=" +++ enc +++ tail) = Some enc.
Proof.
  intros Henc Hne Htail. unfold CookieJar.match_here.
  replace (name +++ "=" +++ enc +++ tail)
    with ((name +++ "=") +++ (enc +++ tail))
    by (rewrite !append_assoc; reflexivity).
  replace (name +++ "=") with ((name +++ "=") +++ "") at 1
    by (rewrite append_assoc; reflexivity).
  rewrite strip_prefix_app. cbn [CookieJar.strip_prefix].
  assert (Htake : CookieJar.take_until ";" (enc +++ tail) = enc).
  { destruct Htail as [-> | [t ->]].
    - replace (enc +++ "") with enc
        by (clear; induction enc; cbn; congruence).
      apply take_until_all, Henc.
    - apply take_until_app, Henc. }
  rewrite Htake. destruct enc; [congruence | reflexivity].
Qed.

Lemma render_named (n v : string) :
  n <> "" -> CookieJar.render (n, v) = n +++ "=" +++ v.
Proof.
  intros Hn. unfold CookieJar.render. cbn [fst snd].
  destruct (String.eqb_spec n ""); [congruence | reflexivity].
Qed.

Lemma document_cookie_cons (nv : string * string)
    (jar : list (string * string)) :
  CookieJar.document_cookie (nv :: jar)
  = CookieJar.render nv
    +++ match jar with
        | [] => ""
        | _ :: _ => "; " +++ CookieJar.document_cookie jar
        end.
Proof.
  unfold CookieJar.document_cookie. destruct jar as [|nv' jar]; cbn.
  - clear. induction (CookieJar.render nv); cbn; congruence.
  - reflexivity.
Qed.

Lemma store_nonempty (name enc : string) (jar : list (string * string)) :
  CookieJar.store name enc jar <> [].
Proof.
  destruct jar as [|[n v] jar]; cbn; [discriminate|].
  destruct (String.eqb name n); discriminate.
Qed.

(** After the session cookie is stored among tidy cookies, the regular
    expression of Cookie.get finds the stored text. *)
Lemma literal_match_store (name enc : string) (jar : list (string * string)) :
  cookie_name_ok name = true ->
  string_all value_char enc = true -> enc <> "" ->
  forallb tidy jar = true ->
  CookieJar.literal_match name
    (CookieJar.document_cookie (CookieJar.store name enc jar))
  = Some enc.
Proof.
  intros Hname Henc Hne.
  assert (Hname' := Hname). unfold cookie_name_ok in Hname'.
  apply andb_prop in Hname'. destruct Hname' as [Hnn Hnc].
  apply negb_true_iff in Hnn.
  assert (Hnn' : name <> "") by (destruct (String.eqb_spec name ""); congruence).
  assert (Hn_eq : string_all (is_not "=") name = true).
  { eapply string_all_impl; [|exact Hnc]. unfold name_char. intros c H.
    apply andb_prop in H. destruct H as [H _].
    apply andb_prop in H. tauto. }
  assert (He1 : string_all (is_not ";") enc = true).
  { eapply string_all_impl; [|exact Henc]. unfold value_char. intros c H.
    apply andb_prop in H. tauto. }
  assert (Hhere : forall post,
    CookieJar.literal_match name
      (CookieJar.document_cookie ((name, enc) :: post)) = Some enc).
  { intros post. rewrite document_cookie_cons, (render_named _ _ Hnn').
    unfold CookieJar.literal_match.
    rewrite append_assoc, append_assoc, match_here_found; auto.
    destruct post; [left; reflexivity | right; eexists; reflexivity]. }
  induction jar as [|[n v] jar IH]; intros Hjar.
  - apply Hhere.
  - cbn [CookieJar.store]. destruct (String.eqb_spec name n) as [-> | Hdiff].
    + apply Hhere.
    + cbn [forallb] in Hjar. apply andb_prop in Hjar.
      destruct Hjar as [Hnv Hjar]. specialize (IH Hjar).
      unfold tidy in Hnv. cbn [fst snd] in Hnv.
      apply andb_prop in Hnv. destruct Hnv as [Hnv Hv].
      apply andb_prop in Hnv. destruct Hnv as [Hn0 Hn].
      apply negb_true_iff in Hn0.
      assert (Hn0' : n <> "") by (destruct (String.eqb_spec n ""); congruence).
      assert (Hn_sp : string_all (is_not " ") n = true).
      { eapply string_all_impl; [|exact Hn]. intros c H.
        apply andb_prop in H. tauto. }
      assert (Hn_e : string_all (is_not "=") n = true).
      { eapply string_all_impl; [|exact Hn]. intros c H.
        apply andb_prop in H. tauto. }
      rewrite document_cookie_cons, (render_named _ _ Hn0').
      pose proof (store_nonempty name enc jar) as Hst.
      destruct (CookieJar.store name enc jar) as [|nv' jar'] eqn:Es;
        [congruence|].
      set (R := CookieJar.document_cookie (nv' :: jar')) in *.
      unfold CookieJar.literal_match at 1. unfold CookieJar.match_here at 1.
      change ((n +++ "=" +++ v) +++ "; " +++ R)
        with ((n +++ String "=" v) +++ "; " +++ R).
      rewrite append_assoc.
      change (String "=" v +++ "; " +++ R) with (String "=" (v +++ "; " +++ R)).
      rewrite (strip_prefix_other name n _ (not_eq_sym Hdiff) Hn_eq Hn_e).
      replace (n +++ String "=" (v +++ "; " +++ R))
        with ((n +++ "=" +++ v +++ ";") +++ String " " R)
        by (rewrite !append_assoc; reflexivity).
      rewrite match_after_space_skip
        by (rewrite !string_all_app, Hn_sp, Hv; reflexivity).
      cbn [CookieJar.match_after_space]. rewrite Ascii.eqb_refl.
      exact IH.
Qed.

Lemma lookup_assoc_set (k k' : string) (v : value)
    (fs : list (string * value)) :
  Js.lookup k (Js.assoc_set k' v fs)
  = if String.eqb k k' then v else Js.lookup k fs.
Proof.
  induction fs as [|[k0 v0] fs IH]; cbn.
  - destruct (String.eqb k k'); reflexivity.
  - destruct (String.eqb_spec k' k0) as [-> | Hne]; cbn.
    + destruct (String.eqb k k0); reflexivity.
    + rewrite IH. destruct (String.eqb_spec k k0) as [-> | Hne'].
      * destruct (String.eqb_spec k0 k'); [congruence | reflexivity].
      * reflexivity.
Qed.

(** Cookie.set stores the text of the value under the name. *)
Lemma Cookie_set_run (name : string) (v : value) (days : Z) (st : state) :
  cookie_name_ok name = true -> 0 < days ->
  Cookie_set name v days st
  = (Ok tt,
     on_page (fun b => set_cookie_jar
                (CookieJar.store name (cookie_text v) (cookie_jar b)) b)
             (tick st)).
Proof.
  intros Hname Hdays.
  unfold Cookie_set, bind, modify, Date_now, tick, on_page.
  cbn -[CookieJar.assign Z.mul Z.add JsString.of_Z].
  fold (cookie_text v).
  rewrite (assign_written name (cookie_text v));
    [reflexivity | exact Hname | apply encodeURIComponent_value | exact Hdays].
Qed.

Lemma Cookie_set_returns (name : string) (v : value) (days : Z) (st : state) :
  Cookie_set name v days st = (Ok tt, exec (Cookie_set name v days) st).
Proof. reflexivity. Qed.

Lemma getOrCreateSession_stored (st : state)
    (fields : list (string * value)) (n : Z) :
  parsed_cookie st = VObj fields ->
  Js.lookup "pageViews" fields = VNum n ->
  getOrCreateSession st
  = let s' := refreshed_session fields n (now_of st) in
    (Ok s',
     exec (Cookie_set (cookieName (config_of st)) s'
             (cookieExpiry (config_of st))) (tick st)).
Proof.
  intros Hstored Hviews.
  unfold getOrCreateSession. unfold bind at 1. unfold gets at 1.
  unfold bind at 1. rewrite Cookie_get_run, Hstored.
  unfold bind, liftO, ret.
  cbn -[Cookie_set Js.lookup Js.assoc_set increment].
  cbn [Js.lookup Js.assoc_set].
  rewrite lookup_assoc_set.
  change (String.eqb "pageViews" "isNew") with false. cbv iota.
  rewrite Hviews. unfold increment. cbn [ToNumber Js.to_double].
  fold (next_count n). fold (now_of st). fold (tick st).
  fold (refreshed_session fields n (now_of st)).
  rewrite Cookie_set_returns. reflexivity.
Qed.

(** [++] adds 1 exactly as long as the sum is within 2^53. *)
Lemma next_count_exact (n : Z) :
  - 2 ^ 53 <= n < 2 ^ 53 -> next_count n = VNum (n + 1).
Proof.
  intros Hn. unfold next_count, Double.add, Double.of_dyadic, Double.of_int.
  change (Z.min 0 0) with 0. change (0 - 0) with 0. change (0 <=? 0) with true.
  cbv iota. change (2 ^ 0) with 1.
  replace ((n * 1 + 1 * 1) * 1) with (n + 1) by lia.
  change (2 ^ 53) with 9007199254740992 in *.
  destruct (Z.leb_spec (Z.abs (n + 1)) 9007199254740992) as [_ | H]; [|lia].
  unfold Js.of_double, Double.to_Z. change (0 <=? 0) with true. cbv iota.
  change (2 ^ 0) with 1. rewrite Z.mul_1_r. reflexivity.
Qed.

(** **** Claim C2 *)

(** C2.  When Cookie.get returns an object whose pageViews is an integer
    n (a valid session record), getOrCreateSession returns normally that
    object with isNew set to false, pageViews set to what [++] makes of
    n, and lastActivity set to the time of the call; its id and
    visitorId are those of the stored record.  What [++] makes of n is
    n + 1 for every n from -2^53 to below 2^53, and the double nearest
    to n + 1 beyond.  With a cookie name and an expiry as in
    the CONFIG literal, the text of exactly this object is stored under
    the cookie name, in place of the old text.  Reading the cookie right
    after the write gives the written object back, hence the same
    identifiers, as far as the engine reads back what the script wrote
    and no other cookie can be taken for the session cookie. *)
Theorem C2_valid_cookie_is_refreshed
    (st : state) (fields : list (string * value)) (n : Z) :
  parsed_cookie st = VObj fields ->
  Js.lookup "pageViews" fields = VNum n ->
  cookie_name_ok (cookieName (config_of st)) = true ->
  0 < cookieExpiry (config_of st) ->
  exists s' st',
    getOrCreateSession st = (Ok s', st')
    /\ s' = refreshed_session fields n (now_of st)
    /\ Js.get s' "id" = Js.lookup "id" fields
    /\ Js.get s' "visitorId" = Js.lookup "visitorId" fields
    /\ Js.get s' "isNew" = VBool false
    /\ Js.get s' "pageViews" = next_count n
    /\ (- 2 ^ 53 <= n < 2 ^ 53 -> Js.get s' "pageViews" = VNum (n + 1))
    /\ config_of st' = config_of st
    /\ cookie_jar (page st')
       = CookieJar.store (cookieName (config_of st)) (cookie_text s')
           (cookie_jar (page st))
    /\ (forallb tidy (cookie_jar (page st)) = true -> reads_back s' ->
        stored_text st' = Some (cookie_text s')
        /\ Cookie_get (cookieName (config_of st')) st' = (Ok s', st')).
Proof.
  intros Hstored Hviews Hname Hdays.
  set (s' := refreshed_session fields n (now_of st)).
  set (st' := on_page (fun b => set_cookie_jar
                         (CookieJar.store (cookieName (config_of st))
                            (cookie_text s') (cookie_jar b)) b)
                      (tick (tick st))).
  exists s', st'. split.
  { rewrite (getOrCreateSession_stored st fields n Hstored Hviews).
    cbv zeta. unfold exec.
    rewrite (Cookie_set_run _ _ _ _ Hname Hdays). reflexivity. }
  split; [reflexivity|].
  assert (Hget : forall k,
            String.eqb k "lastActivity" = false ->
            String.eqb k "pageViews" = false ->
            String.eqb k "isNew" = false ->
            Js.get s' k = Js.lookup k fields).
  { intros k H1 H2 H3. subst s'. unfold refreshed_session. cbn [Js.get].
    rewrite !lookup_assoc_set, H1, H2, H3. reflexivity. }
  split; [apply Hget; reflexivity|]. split; [apply Hget; reflexivity|].
  split.
  { subst s'. unfold refreshed_session. cbn [Js.get].
    rewrite !lookup_assoc_set. reflexivity. }
  assert (Hcount : Js.get s' "pageViews" = next_count n).
  { subst s'. unfold refreshed_session. cbn [Js.get].
    rewrite !lookup_assoc_set. reflexivity. }
  split; [exact Hcount|].
  split; [intros Hn; rewrite Hcount; apply next_count_exact, Hn|].
  split; [reflexivity|]. split; [reflexivity|].
  intros Htidy (text & Htext & Hdecode & Hparse).
  assert (Hfound : stored_text st' = Some (cookie_text s')).
  { unfold stored_text. subst st'.
    cbn [page on_page tick cookie_jar set_cookie_jar
      set_clock_reads config_of script].
    apply literal_match_store;
      [exact Hname | apply encodeURIComponent_value
       | apply cookie_text_object_nonempty | exact Htidy]. }
  split; [exact Hfound|].
  rewrite Cookie_get_run. unfold parsed_cookie. rewrite Hfound.
  unfold cookie_text. rewrite Htext, Hdecode, Hparse. reflexivity.
Qed.

(** *** Activation *)

(** setSiteId checks window._waInitialized before it runs init; the
    DOMContentLoaded arrow sets the flag and runs init without a look at
    it. *)
Lemma setSiteId_guarded (s : value) (st : state) :
  Js.truthy (waInitialized (page st)) = true ->
  setSiteId s st = (Ok tt, assigned s st).
Proof.
  intros H. rewrite setSiteId_run, H, Bool.andb_false_r. reflexivity.
Qed.

Lemma dom_ready_unguarded (st : state) :
  configured st = true ->
  dom_ready st = init (on_page (set_waInitialized (VBool true)) st).
Proof.
  intros H. unfold dom_ready, configured, bind, modify, gets in *.
  cbn -[init]. rewrite H. reflexivity.
Qed.

(** ** Further properties of the script *)

(** *** Running a sequence *)

Lemma exec_bind {A B : Type} (m : M A) (k : A -> M B) (st : state) :
  exec (bind m k) st
  = match m st with
    | (Ok a, st1) => exec (k a) st1
    | (Throw _, st1) => st1
    end.
Proof. unfold exec, bind. destruct (m st) as [[a|e] st1]; reflexivity. Qed.

Lemma bind_ok {A B : Type} (m : M A) (k : A -> M B) (st st' : state) (b : B) :
  bind m k st = (Ok b, st') ->
  exists a st1, m st = (Ok a, st1) /\ k a st1 = (Ok b, st').
Proof.
  unfold bind. destruct (m st) as [[a|e] st1]; [|discriminate].
  intros H. exists a, st1. split; [reflexivity | exact H].
Qed.

(** Two steps taken as one, in front of the rest of a sequence. *)
Lemma stable_bind_pair {A B C : Type} (R : state -> state -> Prop)
    {R_pre : PreOrder R} (m : M A) (k1 : A -> M B) (k2 : B -> M C) :
  stable R (bind m k1) -> (forall b, stable R (k2 b)) ->
  stable R (bind m (fun a => bind (k1 a) k2)).
Proof.
  intros H1 H2 st. specialize (H1 st). unfold exec, bind in *.
  destruct (m st) as [[a|e] st1]; cbn in *; [|exact H1].
  destruct (k1 a st1) as [[b|e] st2]; cbn in *; [|exact H1].
  transitivity st2; [exact H1 | apply H2].
Qed.

#[local] Instance keeps_preorder {A : Type} (f : state -> A)
  : PreOrder (keeps f).
Proof.
  split; unfold keeps.
  - intros st. reflexivity.
  - intros a b c H1 H2. congruence.
Qed.

(** *** generateId *)

Lemma hex_digit_lower (n : N) :
  (n < 16)%N -> is_hex_lower (JsString.hex_digit false n) = true.
Proof.
  intros H.
  destruct n as [|p]; [reflexivity|].
  do 4 (destruct p as [p|p|]; try reflexivity); lia.
Qed.

Lemma variant_digit (r : Z) :
  0 <= r < 16 ->
  existsb (Ascii.eqb (JsString.hex_digit false (Z.to_N (Z.lor (Z.land r 3) 8))))
          ["8"; "9"; "a"; "b"]%char = true.
Proof.
  intros H.
  assert (Hr : r = 0 \/ r = 1 \/ r = 2 \/ r = 3 \/ r = 4 \/ r = 5 \/ r = 6
               \/ r = 7 \/ r = 8 \/ r = 9 \/ r = 10 \/ r = 11 \/ r = 12
               \/ r = 13 \/ r = 14 \/ r = 15) by lia.
  repeat (destruct Hr as [-> | Hr]; [reflexivity|]). subst r. reflexivity.
Qed.

Lemma drawn_zero (st : state) : drawn 0 st = st.
Proof.
  destruct st as [v b]. destruct b. unfold drawn, on_page, set_random_reads.
  cbn. rewrite Nat.add_0_r. reflexivity.
Qed.

Lemma drawn_succ (n : nat) (st : state) :
  drawn n (on_page (set_random_reads (S (random_reads (page st)))) st)
  = drawn (S n) st.
Proof.
  unfold drawn, on_page, set_random_reads. cbn.
  rewrite Nat.add_succ_r. reflexivity.
Qed.

Lemma drawn_drawn (n m : nat) (st : state) :
  drawn n (drawn m st) = drawn (m + n) st.
Proof.
  unfold drawn, on_page, set_random_reads. cbn.
  rewrite Nat.add_assoc. reflexivity.
Qed.

(** The replace callback runs once per x and per y, each time on a fresh
    draw, and returns without throwing. *)
Lemma replace_xy_run (template : string) (st : state) :
  exists s,
    replace_xy template st = (Ok s, drawn (count_xy template) st)
    /\ fits template s = true.
Proof.
  revert st. induction template as [|c rest IH]; intros st.
  - exists "". rewrite drawn_zero. split; reflexivity.
  - cbn [replace_xy count_xy fits].
    destruct (Ascii.eqb c "x" || Ascii.eqb c "y") eqn:Exy.
    + unfold bind at 1. cbn [Math_random16].
      set (r := random (page st) (random_reads (page st)) mod 16).
      assert (Hr : 0 <= r < 16) by (apply Z.mod_pos_bound; lia).
      destruct (IH (on_page (set_random_reads (S (random_reads (page st)))) st))
        as (s & Hs & Hfits).
      unfold bind. rewrite Hs. eexists. split.
      * unfold ret. rewrite drawn_succ. reflexivity.
      * cbn [fits]. rewrite Hfits, andb_true_r.
        destruct (Ascii.eqb c "x") eqn:Ex.
        -- apply hex_digit_lower. lia.
        -- cbn in Exy. rewrite Exy. apply variant_digit, Hr.
    + apply orb_false_elim in Exy. destruct Exy as [Ex Ey].
      destruct (IH st) as (s & Hs & Hfits).
      unfold bind. rewrite Hs. eexists. split; [reflexivity|].
      cbn [fits]. rewrite Ex, Ey, Hfits, Ascii.eqb_refl. reflexivity.
Qed.

Lemma fits_length (template s : string) :
  fits template s = true -> String.length s = String.length template.
Proof.
  revert s. induction template as [|t template IH]; intros [|c s] H;
    try discriminate H; [reflexivity|].
  cbn [fits] in H. apply andb_prop in H. destruct H as [_ H].
  cbn. rewrite (IH s H). reflexivity.
Qed.

Lemma hex_run_step (n : nat) (c : ascii) (rest : string) :
  is_hex_lower c = true -> hex_run (S n) (String c rest) = hex_run n rest.
Proof. intros H. cbn [hex_run]. rewrite H. reflexivity. Qed.

Lemma hex_run_zero (s : string) : hex_run 0 s = Some s.
Proof. reflexivity. Qed.

Lemma one_of_hit (cs : list ascii) (c : ascii) (rest : string) :
  existsb (Ascii.eqb c) cs = true -> one_of cs (String c rest) = Some rest.
Proof. intros H. unfold one_of. rewrite H. reflexivity. Qed.

Lemma fits_uuid_v4 (s : string) :
  fits "xxxxxxxx-xxxx-4xxx-yxxx-xxxxxxxxxxxx" s = true ->
  uuid_v4 s = true /\ String.length s = 36%nat.
Proof.
  intros H. pose proof (fits_length _ _ H) as Hlen.
  split; [|exact Hlen].
  do 36 (destruct s as [|? s]; [discriminate Hlen | apply Nat.succ_inj in Hlen]).
  destruct s; [clear Hlen | discriminate Hlen].
  cbn [fits Ascii.eqb Bool.eqb] in H.
  repeat match type of H with
         | (_ && _) = true =>
             let H1 := fresh "Hc" in
             apply andb_prop in H; destruct H as [H1 H]
         end.
  repeat match goal with
         | Hc : Ascii.eqb _ _ = true |- _ => apply Ascii.eqb_eq in Hc; subst
         end.
  unfold uuid_v4. cbv zeta.
  repeat (cbn [fold_left and_then];
          first [ rewrite hex_run_step by assumption
                | rewrite hex_run_zero
                | rewrite one_of_hit by first [assumption | reflexivity] ]).
  reflexivity.
Qed.

(** X1.  generateId returns, without throwing, the text of a version-4
    UUID in lower case: 36 characters, hexadecimal digits in groups of
    8, 4, 4, 4 and 12 separated by hyphens, the third group led by 4 and
    the fourth by 8, 9, a or b.  It takes 31 draws of Math.random() and
    changes nothing else. *)
Theorem X1_generateId_is_uuid_v4 (st : state) :
  exists id,
    generateId st = (Ok id, drawn 31 st)
    /\ uuid_v4 id = true
    /\ String.length id = 36%nat.
Proof.
  destruct (replace_xy_run "xxxxxxxx-xxxx-4xxx-yxxx-xxxxxxxxxxxx" st)
    as (id & Hrun & Hfits).
  exists id. split; [exact Hrun|]. apply fits_uuid_v4, Hfits.
Qed.

(** **** Claim C7 *)

(** The replace callback returns the template filled with the draws not
    read before. *)
Lemma replace_xy_filled (template : string) (st : state) :
  replace_xy template st
  = (Ok (filled template (random (page st)) (random_reads (page st))),
     drawn (count_xy template) st).
Proof.
  revert st. induction template as [|c rest IH]; intros st.
  - cbn [replace_xy filled count_xy]. rewrite drawn_zero. reflexivity.
  - cbn [replace_xy count_xy filled].
    destruct (Ascii.eqb c "x") eqn:Ex; [|destruct (Ascii.eqb c "y") eqn:Ey];
      cbn [orb].
    + unfold bind at 1. cbn [Math_random16].
      unfold bind. rewrite IH, drawn_succ. reflexivity.
    + unfold bind at 1. cbn [Math_random16].
      unfold bind. rewrite IH, drawn_succ. reflexivity.
    + unfold bind. rewrite IH. reflexivity.
Qed.

Lemma generateId_identifier (st : state) :
  generateId st
  = (Ok (identifier (random (page st)) (random_reads (page st))),
     drawn 31 st)
  /\ uuid_v4 (identifier (random (page st)) (random_reads (page st))) = true
  /\ String.length (identifier (random (page st)) (random_reads (page st)))
     = 36%nat.
Proof.
  pose proof (replace_xy_filled "xxxxxxxx-xxxx-4xxx-yxxx-xxxxxxxxxxxx" st)
    as Hrun.
  destruct (replace_xy_run "xxxxxxxx-xxxx-4xxx-yxxx-xxxxxxxxxxxx" st)
    as (id & Hid & Hfits).
  rewrite Hrun in Hid. injection Hid as <-.
  split; [exact Hrun|]. apply fits_uuid_v4, Hfits.
Qed.

(** C7.  When Cookie.get finds no session cookie, or finds one whose
    text does not decode or does not parse, it returns null without
    throwing, the same in all three cases, and getOrCreateSession
    returns normally a new session object with pageViews 1 and isNew
    true.  Its two identifiers are new: generateId makes the session id
    of the next 31 draws of Math.random(), none of them read before, and
    the visitor id of the 31 draws after those; each is the text of a
    version-4 UUID, 36 characters long. *)
Theorem C7_absent_or_corrupt_cookie_gives_fresh_session (st : state) :
  absent_or_unparsable st ->
  let draw := random (page st) in
  let r := random_reads (page st) in
  let id := identifier draw r in
  let visitorId := identifier draw (r + 31) in
  let st2 := drawn 62 st in
  let s := fresh_session id visitorId (now_of st2) (now_of (tick st2)) in
  Cookie_get (cookieName (config_of st)) st = (Ok VNull, st)
  /\ generateId st = (Ok id, drawn 31 st)
  /\ generateId (drawn 31 st) = (Ok visitorId, st2)
  /\ uuid_v4 id = true /\ uuid_v4 visitorId = true
  /\ String.length id = 36%nat /\ String.length visitorId = 36%nat
  /\ (exists st', getOrCreateSession st = (Ok s, st'))
  /\ Js.get s "id" = VStr id
  /\ Js.get s "visitorId" = VStr visitorId
  /\ Js.get s "pageViews" = VNum 1
  /\ Js.get s "isNew" = VBool true.
Proof.
  intros H draw r id visitorId st2 s.
  pose proof (absent_or_unparsable_null st H) as Hnull.
  split; [rewrite Cookie_get_run, Hnull; reflexivity|].
  destruct (generateId_identifier st) as (Hid & Hu1 & Hl1).
  destruct (generateId_identifier (drawn 31 st)) as (Hvid & Hu2 & Hl2).
  rewrite drawn_drawn in Hvid.
  assert (Hd : random (page (drawn 31 st)) = draw) by reflexivity.
  assert (Hr : random_reads (page (drawn 31 st)) = (r + 31)%nat)
    by reflexivity.
  rewrite Hd, Hr in Hvid, Hu2, Hl2. clear Hd Hr.
  replace (31 + 31)%nat with 62%nat in Hvid by reflexivity.
  split; [exact Hid|]. split; [exact Hvid|].
  split; [exact Hu1|]. split; [exact Hu2|].
  split; [exact Hl1|]. split; [exact Hl2|].
  split.
  - destruct (getOrCreateSession_fresh st)
      as (id' & vid' & st1' & st2' & st' & H1 & H2 & _ & _ & Hrun).
    { rewrite Hnull. reflexivity. }
    rewrite Hid in H1. injection H1 as <- <-.
    rewrite Hvid in H2. injection H2 as <- <-.
    exists st'. exact Hrun.
  - unfold s, fresh_session. repeat split.
Qed.

(** *** Cookie.delete *)

Lemma cookie_name_parts (name : string) :
  cookie_name_ok name = true ->
  name <> ""
  /\ string_all (is_not "=") name = true
  /\ string_all (is_not " ") name = true.
Proof.
  unfold cookie_name_ok. intros H. apply andb_prop in H.
  destruct H as [Hne Hall]. apply negb_true_iff in Hne.
  split; [destruct (String.eqb_spec name ""); congruence|].
  split; (eapply string_all_impl; [|exact Hall]); unfold name_char;
    intros c H; apply andb_prop in H; destruct H as [H Hw].
  - apply andb_prop in H. tauto.
  - unfold is_not, CookieJar.is_wsp, JsString.code in *.
    destruct (Ascii.eqb_spec c " ") as [->|]; [discriminate Hw | reflexivity].
Qed.

Lemma match_here_empty (name : string) : CookieJar.match_here name "" = None.
Proof. unfold CookieJar.match_here. destruct name; reflexivity. Qed.

Lemma literal_match_none (name s : string) :
  CookieJar.literal_match name s = None ->
  CookieJar.match_here name s = None
  /\ CookieJar.match_after_space name s = None.
Proof.
  unfold CookieJar.literal_match.
  destruct (CookieJar.match_here name s); [discriminate | auto].
Qed.

(** Among tidy cookies of other names the regular expression of
    Cookie.get finds nothing. *)
Lemma literal_match_absent (name : string) (jar : list (string * string)) :
  cookie_name_ok name = true ->
  forallb tidy jar = true ->
  forallb (fun e => negb (String.eqb (fst e) name)) jar = true ->
  CookieJar.literal_match name (CookieJar.document_cookie jar) = None.
Proof.
  intros Hname.
  destruct (cookie_name_parts name Hname) as (Hne & Hn_eq & _).
  induction jar as [|[n v] jar IH]; intros Htidy Hother.
  - unfold CookieJar.literal_match. cbn. rewrite match_here_empty. reflexivity.
  - cbn [forallb fst] in *.
    apply andb_prop in Htidy. destruct Htidy as [Hnv Htidy].
    apply andb_prop in Hother. destruct Hother as [Hdiff Hother].
    specialize (IH Htidy Hother).
    destruct (literal_match_none _ _ IH) as [IHhere IHspace].
    apply negb_true_iff in Hdiff.
    assert (Hdiff' : n <> name)
      by (destruct (String.eqb_spec n name); congruence).
    unfold tidy in Hnv. cbn [fst snd] in Hnv.
    apply andb_prop in Hnv. destruct Hnv as [Hnv Hv].
    apply andb_prop in Hnv. destruct Hnv as [Hn0 Hn].
    apply negb_true_iff in Hn0.
    assert (Hn0' : n <> "") by (destruct (String.eqb_spec n ""); congruence).
    assert (Hn_sp : string_all (is_not " ") n = true).
    { eapply string_all_impl; [|exact Hn]. intros c H.
      apply andb_prop in H. tauto. }
    assert (Hn_e : string_all (is_not "=") n = true).
    { eapply string_all_impl; [|exact Hn]. intros c H.
      apply andb_prop in H. tauto. }
    rewrite document_cookie_cons, (render_named _ _ Hn0').
    set (tail := match jar with
                 | [] => ""
                 | _ :: _ => "; " +++ CookieJar.document_cookie jar
                 end).
    assert (Htail : CookieJar.match_after_space name tail = None).
    { subst tail. destruct jar as [|nv jar']; [reflexivity|].
      cbn [String.append CookieJar.match_after_space Ascii.eqb Bool.eqb].
      rewrite IHhere. exact IHspace. }
    unfold CookieJar.literal_match, CookieJar.match_here.
    change ((n +++ "=" +++ v) +++ tail) with ((n +++ String "=" v) +++ tail).
    rewrite append_assoc.
    change (String "=" v +++ tail) with (String "=" (v +++ tail)).
    rewrite (strip_prefix_other name n _ Hdiff' Hn_eq Hn_e).
    replace (n +++ String "=" (v +++ tail)) with ((n +++ "=" +++ v) +++ tail)
      by (rewrite !append_assoc; reflexivity).
    rewrite match_after_space_skip
      by (rewrite !string_all_app, Hn_sp, Hv; reflexivity).
    exact Htail.
Qed.

Lemma evict_tidy (name : string) (jar : list (string * string)) :
  forallb tidy jar = true ->
  forallb tidy (CookieJar.evict name jar) = true
  /\ forallb (fun e => negb (String.eqb (fst e) name))
             (CookieJar.evict name jar) = true.
Proof.
  intros H. unfold CookieJar.evict. split; apply forallb_forall; intros x Hx;
    apply filter_In in Hx; destruct Hx as [Hin Hkeep].
  - rewrite forallb_forall in H. apply H, Hin.
  - exact Hkeep.
Qed.

Lemma Cookie_delete_run (name : string) (st : state) :
  cookie_name_ok name = true -> 0 <= now_of st ->
  Cookie_delete name st
  = (Ok tt,
     on_page (fun b => set_cookie_jar
                (CookieJar.evict name (cookie_jar b)) b) st).
Proof.
  intros Hname Hnow. unfold Cookie_delete, modify, on_page. cbv zeta.
  unfold CookieJar.assign.
  change (name +++ "=;expires=Thu, 01 Jan 1970 00:00:00 GMT;path=/")
    with (name +++ String "="
            ("" +++ String ";" "expires=Thu, 01 Jan 1970 00:00:00 GMT;path=/")).
  rewrite (parse_pair_written name "" _ Hname eq_refl).
  destruct (cookie_name_parts name Hname) as (Hne & _).
  destruct (String.eqb_spec name "") as [|_]; [congruence|]. cbn [andb].
  fold (now_of st).
  destruct (Z.ltb_spec (now_of st) 0); [lia | reflexivity].
Qed.

(** X2.  Cookie.delete(name), at a time not before the epoch, removes
    the cookie of that name from the jar and leaves every other cookie
    and every variable of the script alone; it does not throw.  Among
    cookies that cannot be taken for one another, Cookie.get(name)
    returns null right after it.  The name is one that Cookie.get
    matches character by character: it holds no operator of a regular
    expression. *)
Theorem X2_Cookie_delete_removes (name : cookie_name) (st : state) :
  cookie_name_ok name = true ->
  0 <= now_of st ->
  forallb tidy (cookie_jar (page st)) = true ->
  let st' := exec (Cookie_delete name) st in
  Cookie_delete name st = (Ok tt, st')
  /\ cookie_jar (page st') = CookieJar.evict name (cookie_jar (page st))
  /\ script st' = script st
  /\ Cookie_get name st' = (Ok VNull, st')
  /\ (forall n v, n <> name_text name ->
        (In (n, v) (cookie_jar (page st'))
         <-> In (n, v) (cookie_jar (page st)))).
Proof.
  intros Hname Hnow Htidy st'. subst st'. unfold exec.
  rewrite (Cookie_delete_run name st Hname Hnow). cbn [snd].
  split; [reflexivity|]. split; [reflexivity|]. split; [reflexivity|].
  destruct (evict_tidy name _ Htidy) as [Ht Ho].
  split.
  - unfold Cookie_get, bind, gets.
    cbn [page on_page cookie_jar set_cookie_jar].
    unfold CookieJar.regexp_match.
    rewrite (literal_match_absent name _ Hname Ht Ho). reflexivity.
  - intros n v Hn. cbn. unfold CookieJar.evict. rewrite filter_In. cbn.
    split; [tauto|]. intros Hin. split; [exact Hin|].
    destruct (String.eqb_spec n name); [congruence | reflexivity].
Qed.

(** *** The batches handed to the network *)

#[local] Instance tends_preorder : PreOrder tends.
Proof. split; unfold tends; [intros st; auto | intros a b c; auto]. Qed.

#[local] Instance tends_framed : Framed tends.
Proof.
  split; [apply tends_preorder|].
  intros st st' Hc _ _ Hq Hn. unfold tends, orderly, config_of.
  rewrite Hc, Hq, Hn. auto.
Qed.

Lemma batch_sound (st : state) :
  configured st = true ->
  (1 <= length (eventQueue (script st)) <= 10)%nat ->
  sound_batch (batch st).
Proof.
  intros Hc Hlen. unfold sound_batch. rewrite events_of_batch.
  split; [exact Hlen|]. unfold batch.
  destruct (has_sendBeacon _); cbn; auto.
Qed.

Lemma flush_tends : stable tends flush.
Proof.
  intros st Hord. unfold exec.
  destruct (eventQueue (script st)) as [|ev q] eqn:Eq.
  - rewrite flush_idle by (left; exact Eq). exact Hord.
  - destruct (configured st) eqn:Hc.
    + rewrite flush_send by (rewrite ?Eq; congruence). cbn [snd].
      destruct Hord as (Hb & Hq & Hn).
      split; [exact Hb|]. split; [cbn; lia|].
      cbn. apply Forall_app. split; [exact Hn|].
      constructor; [|constructor].
      apply batch_sound; [exact Hc|]. rewrite Eq in *. cbn in *. lia.
    + rewrite flush_idle by (right; exact Hc). exact Hord.
Qed.

Lemma trackEvent_tends type data : stable tends (trackEvent type data).
Proof.
  intros st (Hb & Hq & Hn). unfold exec. destruct (configured st) eqn:Hc.
  - assert (Hlen : length (eventQueue (script st) ++ [event_at type data st])
                   = S (length (eventQueue (script st))))
      by (rewrite length_app; cbn; lia).
    destruct (Z_le_gt_dec (batchSize (config_of st))
                (Z.of_nat (length (eventQueue (script st)
                                   ++ [event_at type data st]))))
      as [Hfull | Hbelow].
    + rewrite (trackEvent_full _ _ _ Hc Hfull). cbv zeta. cbn [snd].
      split; [rewrite flushed_config, pushed_config; exact Hb|].
      split; [rewrite flushed_queue; cbn; lia|].
      cbn. rewrite pushed_network. apply Forall_app.
      split; [exact Hn|]. constructor; [|constructor].
      apply batch_sound.
      * unfold configured. rewrite pushed_config. exact Hc.
      * rewrite pushed_queue.
        change (eventQueue (script (tick st))) with (eventQueue (script st)).
        rewrite Hlen. lia.
    + rewrite (trackEvent_below _ _ _ Hc) by lia. cbn [snd].
      split; [rewrite pushed_config; exact Hb|].
      split.
      * rewrite pushed_queue.
        change (eventQueue (script (tick st))) with (eventQueue (script st)).
        rewrite Hb in Hbelow. lia.
      * rewrite pushed_network. exact Hn.
  - rewrite (trackEvent_unconfigured _ _ _ Hc). cbn [snd].
    unfold orderly, config_of. rewrite warned_script, warned_network. auto.
Qed.

Lemma set_config_tends (f : config -> config) :
  (forall c, batchSize (f c) = batchSize c) -> stable tends (set_config f).
Proof.
  intros Hf st. unfold tends, orderly. cbn. rewrite Hf. auto.
Qed.

Lemma tends_script (f : vars -> vars) (st : state) :
  CONFIG (f (script st)) = CONFIG (script st) ->
  eventQueue (f (script st)) = eventQueue (script st) ->
  tends st (on_script f st).
Proof.
  intros Hc Hq. unfold tends, orderly, config_of. cbn. rewrite Hc, Hq. auto.
Qed.

Hint Resolve tends_framed flush_tends trackEvent_tends : stable.

Ltac tends_tac :=
  repeat match goal with
         | |- stable tends (set_config _) =>
             apply set_config_tends; intros; reflexivity
         | |- stable tends
                (modify (on_script (fun v => set_CONFIG (?f (CONFIG v)) v))) =>
             change (stable tends (set_config f))
         | |- stable tends (modify (on_script _)) =>
             intros ?; apply tends_script; reflexivity
         | |- _ => stable_step
         end.

Lemma run_callback_tends cb arg : stable tends (run_callback cb arg).
Proof.
  destruct cb, arg; cbn [run_callback];
    unfold trackClick, trackMouseMove, trackScroll, trackFormInteraction,
      trackVisibility, trackError, updateEngagement, scroll_settled,
      before_unload, hidden_flush, dom_ready, init, trackPageView;
    tends_tac.
Qed.

Lemma run_api_tends c : stable tends (run_api c).
Proof.
  destruct c; cbn [run_api];
    unfold api_track, api_identify, api_getSession, api_setEndpoint,
      setSiteId, api_getSiteId, api_setDebug, init, trackPageView;
    tends_tac.
Qed.

Lemma main_tends : stable tends main.
Proof.
  unfold main, read_script_tag, start, getOrCreateSession, generateId,
    init, trackPageView.
  tends_tac.
Qed.

Lemma exec_turn_tends (t : turn) (st : state) : tends st (exec_turn t st).
Proof.
  destruct t as [cb arg | c | h | d].
  - apply run_callback_tends.
  - apply run_api_tends.
  - apply framed_page. reflexivity.
  - apply framed_page. reflexivity.
Qed.

Lemma run_turns_tends (ts : list turn) (st : state) :
  tends st (run_turns ts st).
Proof.
  revert st. induction ts as [|t ts IH]; intros st; [reflexivity|].
  change (run_turns (t :: ts) st) with (run_turns ts (exec_turn t st)).
  transitivity (exec_turn t st); [apply exec_turn_tends | apply IH].
Qed.

(** X4.  Whatever happens on the page after the script ran, every
    transmission handed to the network carries at least one event and at
    most ten, under a truthy site id, which a fetch repeats in its
    X-Site-ID header: flush never sends an empty batch or one without a
    site id, and the queue is sent before it can grow beyond the batch
    size. *)
Theorem X4_batches_are_sound (e : environment) (ts : list turn) :
  Forall sound_batch (network (page (run_turns ts (page_load e)))).
Proof.
  assert (H : orderly (run_turns ts (page_load e))).
  { apply run_turns_tends. unfold page_load. apply main_tends.
    split; [reflexivity|]. split; [cbn; lia | constructor]. }
  apply H.
Qed.

(** *** Stability without a frame *)

(** The primitives of the monad and of the browser. *)
Ltac is_primitive m :=
  lazymatch m with
  | modify _ => idtac
  | Date_now => idtac
  | Math_random16 => idtac
  | console_warn _ => idtac
  | console_log _ _ => idtac
  | transmit _ => idtac
  | addEventListener _ _ _ _ => idtac
  | new_closure => idtac
  | setInterval _ _ => idtac
  | setTimeout _ _ => idtac
  end.

Ltac open_primitives :=
  unfold exec, modify, Date_now, Math_random16, console_warn, console_log,
    transmit, addEventListener, new_closure, setInterval, setTimeout.

Lemma replace_xy_any (R : state -> state -> Prop) {R_pre : PreOrder R}
    (template : string) :
  stable R Math_random16 -> stable R (replace_xy template).
Proof.
  intros Hrandom. induction template as [|c rest IH]; cbn [replace_xy].
  - apply stable_ret. exact R_pre.
  - destruct (_ || _).
    + apply stable_bind; [exact R_pre | exact Hrandom | intros r].
      apply stable_bind; [exact R_pre | exact IH | intros s].
      apply stable_ret. exact R_pre.
    + apply stable_bind; [exact R_pre | exact IH | intros s].
      apply stable_ret. exact R_pre.
Qed.

(** A walk over a computation for a relation that has no frame rule:
    [special] settles the steps that need a lemma of their own, [leaf]
    every primitive step. *)
Ltac walk special leaf :=
  repeat match goal with
         | |- stable _ _ => special
         | |- stable _ (bind _ _) =>
             apply stable_bind; [typeclasses eauto | | intros]
         | |- stable _ (ret _) => apply stable_ret; typeclasses eauto
         | |- stable _ (gets _) => apply stable_gets; typeclasses eauto
         | |- stable _ (liftO _) => apply stable_liftO; typeclasses eauto
         | |- stable _ (when _ _) => apply stable_when; [typeclasses eauto |]
         | |- stable _ (replace_xy _) =>
             apply replace_xy_any; [typeclasses eauto |]
         | |- stable _ (clearTimeout ?h) =>
             destruct h; cbn [clearTimeout]
         | |- stable _ (if ?b then _ else _) => destruct b
         | |- stable _ (match ?x with _ => _ end) => destruct x
         | |- stable _ ?m => is_primitive m; intros ?; leaf
         | |- stable _ _ => progress cbv zeta
         end.

(** Every function of the script, down to the primitives. *)
Ltac open_callers :=
  unfold main, start, read_script_tag, api_track, api_identify,
    api_getSession, api_setEndpoint, setSiteId, api_getSiteId, api_setDebug,
    dom_ready, before_unload, hidden_flush, trackClick, trackMouseMove,
    trackScroll, trackFormInteraction, trackVisibility, trackError,
    updateEngagement, scroll_settled.

Ltac open_handlers :=
  open_callers;
  unfold init, trackPageView, getOrCreateSession, generateId, Cookie_set,
    Cookie_get, set_config.

Ltac open_script := open_handlers; unfold trackEvent, createEvent, flush.

Ltac keeps_leaf :=
  lazymatch goal with
  | |- keeps ?f _ _ => unfold keeps; try unfold f
  end;
  open_primitives; unfold on_page, on_script; cbn;
  first [ reflexivity
        | match goal with
          | |- context [if ?c then _ else _] => destruct c
          end; reflexivity ].

Ltac keeps_tac := open_script; walk fail keeps_leaf.

(** *** The scroll timer is debounced *)

Lemma debounced_keeps (st st' : state) :
  keeps scroll_timer st st' -> debounced st -> debounced st'.
Proof.
  unfold keeps, scroll_timer, debounced. intros H. injection H as Ht Hs.
  rewrite Ht, Hs. auto.
Qed.

Lemma trackScroll_timer (st : state) :
  debounced st ->
  timeouts (page (exec trackScroll st))
  = [(next_handle (page st), FnScrollSettled, 150)]
  /\ scrollTimeout (script (exec trackScroll st)) = Some (next_handle (page st)).
Proof.
  unfold debounced, trackScroll, exec, bind, gets, modify, setTimeout. cbn.
  destruct (timeouts (page st)) as [|[[h cb] delay] [|more]] eqn:Et;
    [intros _ | intros (Hs & _ & _) | intros []].
  - destruct (scrollTimeout (script st)); cbn; rewrite Et; cbn; auto.
  - rewrite Hs. cbn. rewrite Et. cbn. rewrite Nat.eqb_refl. cbn. auto.
Qed.

Lemma run_callback_timer cb arg :
  cb <> FnTrackScroll -> stable (keeps scroll_timer) (run_callback cb arg).
Proof.
  intros Hcb. destruct cb, arg; cbn [run_callback]; try congruence;
    keeps_tac.
Qed.

Lemma run_api_timer c : stable (keeps scroll_timer) (run_api c).
Proof. destruct c; cbn [run_api]; keeps_tac. Qed.

Lemma main_timer : stable (keeps scroll_timer) main.
Proof. keeps_tac. Qed.

Lemma exec_turn_debounced (t : turn) (st : state) :
  debounced st -> debounced (exec_turn t st).
Proof.
  intros H. destruct t as [cb arg | c | h | d].
  - destruct cb;
      try (refine (debounced_keeps _ _ _ H); apply run_callback_timer;
           discriminate).
    destruct (trackScroll_timer st H) as [Ht Hs].
    change (exec_turn (Run FnTrackScroll arg) st) with (exec trackScroll st).
    unfold debounced. rewrite Ht, Hs. auto.
  - refine (debounced_keeps _ _ _ H). apply run_api_timer.
  - unfold debounced in *. cbn.
    destruct (timeouts (page st)) as [|[[h0 cb] delay] [|more]];
      [exact I | | contradiction].
    cbn. destruct (Nat.eqb h0 h); cbn; [exact I | exact H].
  - exact H.
Qed.

Lemma run_turns_debounced (ts : list turn) (st : state) :
  debounced st -> debounced (run_turns ts st).
Proof.
  revert st. induction ts as [|t ts IH]; intros st H; [exact H|].
  change (run_turns (t :: ts) st) with (run_turns ts (exec_turn t st)).
  apply IH, exec_turn_debounced, H.
Qed.

(** X5.  However many scroll signals, timers and other turns follow the
    start of the script, at most one timeout is pending at any time: the
    one the latest scroll signal set, which runs the settled-scroll
    arrow after 150 ms.  A scroll signal cancels the pending timer and
    sets a new one, so a burst of signals leads to one measurement. *)
Theorem X5_one_scroll_timer (e : environment) (ts : list turn) :
  let st := run_turns ts (page_load e) in
  debounced st
  /\ (length (timeouts (page st)) <= 1)%nat
  /\ timeouts (page (exec trackScroll st))
     = [(next_handle (page st), FnScrollSettled, 150)].
Proof.
  cbv zeta.
  assert (H : debounced (run_turns ts (page_load e))).
  { apply run_turns_debounced. unfold page_load.
    refine (debounced_keeps _ _ (main_timer _) _). exact I. }
  split; [exact H|]. split.
  - unfold debounced in H.
    destruct (timeouts (page (run_turns ts (page_load e))))
      as [|[[h cb] delay] [|y more]]; cbn; lia.
  - apply trackScroll_timer, H.
Qed.

(** *** Engagement time *)

#[local] Instance paces_preorder : PreOrder paces.
Proof.
  split.
  - intros st. split; [reflexivity|]. split; [lia | auto].
  - intros a b c (Hc1 & Hr1 & Hp1) (Hc2 & Hr2 & Hp2).
    split; [congruence|]. split; [lia|].
    intros Hm t0 Ha. apply Hp2; [rewrite Hc1; exact Hm|]. apply Hp1; assumption.
Qed.

Ltac paces_leaf :=
  unfold paces, paced, now_of; open_primitives; unfold on_page, on_script;
  cbn;
  try match goal with
      | |- context [if ?c then _ else _] => destruct c; cbn
      end;
  (split; [reflexivity|]); (split; [lia|]);
  let Hm := fresh "Hm" in
  intros Hm ? (? & ? & ?);
  repeat split; try assumption;
  try (etransitivity; [eassumption | apply Hm; lia]).

(** The two steps that record the time of a check. *)
Lemma stamp_paces :
  stable paces
    (bind Date_now
       (fun now => modify (on_script (set_lastEngagementCheck now)))).
Proof.
  intros st. unfold paces, paced, now_of, exec, bind, Date_now, modify. cbn.
  split; [reflexivity|]. split; [lia|].
  intros Hm t0 (H0 & H1 & H2).
  pose proof (Hm (clock_reads (page st)) (S (clock_reads (page st)))) as Hs.
  repeat split; [exact H0 | lia | apply Hs; lia].
Qed.

Lemma updateEngagement_paces : stable paces updateEngagement.
Proof.
  intros st.
  unfold paces, paced, now_of, exec, updateEngagement, bind, gets, Date_now,
    modify.
  cbn. destruct (isEngaged (script st) && negb (hidden (dom_of (page st))));
    cbn; (split; [reflexivity|]); (split; [lia|]);
    intros Hm t0 (H0 & H1 & H2);
    pose proof (Hm (clock_reads (page st)) (S (clock_reads (page st)))) as Hs;
    pose proof (Hm (S (clock_reads (page st)))
                  (S (S (clock_reads (page st))))) as Hss;
    repeat split; lia.
Qed.

Ltac paces_special :=
  idtac;
  match goal with
  | |- stable paces
         (bind Date_now
            (fun now =>
               bind (modify (on_script (set_lastEngagementCheck now))) _)) =>
      apply stable_bind_pair;
      [typeclasses eauto | apply stamp_paces | intros]
  end.

Ltac paces_tac :=
  first [ apply updateEngagement_paces
        | open_script; walk paces_special paces_leaf ].

Lemma run_callback_paces cb arg : stable paces (run_callback cb arg).
Proof. destruct cb, arg; cbn [run_callback]; paces_tac. Qed.

Lemma run_api_paces c : stable paces (run_api c).
Proof. destruct c; cbn [run_api]; paces_tac. Qed.

Lemma main_paces : stable paces main.
Proof. paces_tac. Qed.

Lemma exec_turn_paces (t : turn) (st : state) : paces st (exec_turn t st).
Proof.
  destruct t as [cb arg | c | h | d].
  - apply run_callback_paces.
  - apply run_api_paces.
  - split; [reflexivity|]. split; [cbn; lia | auto].
  - split; [reflexivity|]. split; [cbn; lia | auto].
Qed.

Lemma run_turns_paces (ts : list turn) (st : state) :
  paces st (run_turns ts st).
Proof.
  revert st. induction ts as [|t ts IH]; intros st; [reflexivity|].
  change (run_turns (t :: ts) st) with (run_turns ts (exec_turn t st)).
  transitivity (exec_turn t st); [apply exec_turn_paces | apply IH].
Qed.

Lemma main_engagement :
  stable (keeps (fun st => engagementTime (script st))) main.
Proof. keeps_tac. Qed.

Lemma updateEngagement_hidden (st : state) :
  hidden (dom_of (page st)) = true ->
  engagementTime (script (exec updateEngagement st))
  = engagementTime (script st).
Proof.
  intros H. unfold exec, updateEngagement, bind, gets, Date_now, modify.
  cbn. rewrite H, Bool.andb_false_r. reflexivity.
Qed.

(** X6.  On a page whose clock does not run backwards and does not
    start before the epoch, engagement time is 0 when the script has run
    and, after any turns of the event loop, it is not negative and not
    more than the time from the first engagement check (the one the
    script takes when it loads) to the latest one, which is itself not
    ahead of the clock.  A check made while the document is hidden adds
    nothing. *)
Theorem X6_engagement_time_bounded (e : environment) (ts : list turn) :
  monotone (env_clock e) -> 0 <= env_clock e 0 ->
  let st0 := page_load e in
  let st := run_turns ts st0 in
  engagementTime (script st0) = 0
  /\ 0 <= engagementTime (script st)
  /\ engagementTime (script st)
     <= lastEngagementCheck (script st) - lastEngagementCheck (script st0)
  /\ lastEngagementCheck (script st) <= now_of st
  /\ (hidden (dom_of (page st)) = true ->
      engagementTime (script (exec updateEngagement st))
      = engagementTime (script st)).
Proof.
  intros Hm H0. cbv zeta.
  set (st00 := State initial_vars (fresh_browser e)).
  change (page_load e) with (exec main st00).
  destruct (main_paces st00) as (Hclock & _ & Hload).
  assert (HE0 : engagementTime (script (exec main st00)) = 0)
    by (apply (main_engagement st00)).
  set (st0 := exec main st00) in *.
  assert (Hp0 : paced 0 st0).
  { apply Hload; [exact Hm|]. unfold paced, now_of. cbn. lia. }
  assert (Hstart : paced (lastEngagementCheck (script st0)) st0).
  { destruct Hp0 as (_ & _ & Hnow). unfold paced. rewrite HE0. lia. }
  destruct (run_turns_paces ts st0) as (_ & _ & Hrun).
  assert (Hm0 : monotone (clock (page st0))) by (rewrite Hclock; exact Hm).
  destruct (Hrun Hm0 _ Hstart) as (H1 & H2 & H3).
  split; [exact HE0|]. split; [exact H1|]. split; [lia|].
  split; [exact H3|]. apply updateEngagement_hidden.
Qed.

(** *** Every event carries the identifiers of the session *)

#[local] Instance loyal_preorder : PreOrder loyal.
Proof.
  split.
  - intros st. split; [reflexivity|]. exists []. rewrite app_nil_r.
    split; [reflexivity | constructor].
  - intros a b c (Hi1 & evs1 & He1 & Hf1) (Hi2 & evs2 & He2 & Hf2).
    split; [congruence|]. exists (evs1 ++ evs2).
    rewrite He2, He1, app_assoc. split; [reflexivity|].
    apply Forall_app. split; [exact Hf1|]. rewrite <- Hi1. exact Hf2.
Qed.

Ltac loyal_leaf :=
  unfold loyal, ident, emitted; open_primitives; unfold on_page, on_script;
  cbn;
  try match goal with
      | |- context [if ?c then _ else _] => destruct c; cbn
      end;
  (split; [reflexivity|]);
  exists []; rewrite app_nil_r; (split; [reflexivity | constructor]).

Lemma trackEvent_session type data :
  stable (keeps (fun st => session (script st))) (trackEvent type data).
Proof. keeps_tac. Qed.

Lemma flush_session : stable (keeps (fun st => session (script st))) flush.
Proof. keeps_tac. Qed.

Lemma trackEvent_loyal type data :
  (forall st, carries (ident st) (event_at type data st)) ->
  stable loyal (trackEvent type data).
Proof.
  intros Hev st.
  destruct (trackEvent_effect type data st) as (_ & _ & _ & He).
  pose proof (trackEvent_session type data st) as Hs. unfold keeps in Hs.
  split; [unfold ident; rewrite Hs; reflexivity|].
  eexists. split; [exact He|].
  destruct (configured st); [|constructor].
  constructor; [apply Hev | constructor].
Qed.

Lemma flush_loyal : stable loyal flush.
Proof.
  intros st. pose proof (flush_session st) as Hs. unfold keeps in Hs.
  split; [unfold ident; rewrite Hs; reflexivity|].
  exists []. rewrite app_nil_r. split; [|constructor].
  unfold exec.
  destruct (eventQueue (script st)) as [|ev q] eqn:Eq.
  - rewrite flush_idle by (left; exact Eq). reflexivity.
  - destruct (configured st) eqn:Hc.
    + rewrite flush_send by (rewrite ?Eq; congruence).
      apply emitted_flushed.
    + rewrite flush_idle by (right; exact Hc). reflexivity.
Qed.

Ltac loyal_special :=
  idtac;
  match goal with
  | |- stable loyal (trackEvent _ _) =>
      apply trackEvent_loyal; intros ?; split; reflexivity
  | |- stable loyal flush => apply flush_loyal
  end.

Ltac loyal_tac := open_handlers; walk loyal_special loyal_leaf.

(** identify adds userId and traits to the session object; its id and
    visitorId stay. *)
Lemma api_identify_loyal userId traits :
  stable loyal (api_identify userId traits).
Proof.
  intros st. unfold api_identify. rewrite exec_bind. cbn [gets].
  assert (Hrest : forall s,
            stable loyal
              (cfg <- gets config_of ;;
               Cookie_set (cookieName cfg) s (cookieExpiry cfg) ;;
               trackEvent "identify"
                 [("userId", userId); ("traits", traits)]))
    by (intros s; loyal_tac).
  assert (Hset : forall s s2,
            Js.get s2 "id" = Js.get s "id" ->
            Js.get s2 "visitorId" = Js.get s "visitorId" ->
            session (script st) = s ->
            loyal st (on_script (set_session s2) st)).
  { intros s s2 H1 H2 Hs. unfold loyal, ident, emitted. cbn.
    rewrite Hs, H1, H2. split; [reflexivity|].
    exists []. rewrite app_nil_r. split; [reflexivity | constructor]. }
  destruct (session (script st)) as [| | b | n | | s | fields | items props | m k | sgn]
    eqn:Es; rewrite exec_bind; cbn [liftO Js.set]; try reflexivity;
    rewrite exec_bind; cbn [liftO Js.set]; rewrite exec_bind;
    cbn [modify];
    (etransitivity; [|apply Hrest]);
    (eapply Hset; [| |reflexivity]); cbn [Js.get];
    rewrite !lookup_assoc_set; reflexivity.
Qed.

Lemma run_callback_loyal cb arg : stable loyal (run_callback cb arg).
Proof. destruct cb, arg; cbn [run_callback]; loyal_tac. Qed.

Lemma run_api_loyal c : stable loyal (run_api c).
Proof.
  destruct c; cbn [run_api];
    first [apply api_identify_loyal | loyal_tac].
Qed.

Lemma exec_turn_loyal (t : turn) (st : state) : loyal st (exec_turn t st).
Proof.
  destruct t as [cb arg | c | h | d].
  - apply run_callback_loyal.
  - apply run_api_loyal.
  - intros; loyal_leaf.
  - intros; loyal_leaf.
Qed.

Lemma run_turns_loyal (ts : list turn) (st : state) :
  loyal st (run_turns ts st).
Proof.
  revert st. induction ts as [|t ts IH]; intros st; [reflexivity|].
  change (run_turns (t :: ts) st) with (run_turns ts (exec_turn t st)).
  transitivity (exec_turn t st); [apply exec_turn_loyal | apply IH].
Qed.

Lemma read_script_tag_emitted : stable (keeps emitted) read_script_tag.
Proof. keeps_tac. Qed.

Lemma getOrCreateSession_emitted : stable (keeps emitted) getOrCreateSession.
Proof. keeps_tac. Qed.

(** The events accepted while the script runs carry the identifiers of
    the session it settled on. *)
Lemma page_load_loyal (e : environment) :
  Forall (carries (ident (page_load e))) (emitted (page_load e)).
Proof.
  unfold page_load. rewrite main_run.
  set (st1 := exec read_script_tag (State initial_vars (fresh_browser e))).
  assert (H1 : emitted st1 = [])
    by (apply (read_script_tag_emitted (State initial_vars (fresh_browser e)))).
  pose proof (getOrCreateSession_emitted st1) as H2. unfold keeps, exec in H2.
  unfold start. rewrite exec_bind.
  destruct (getOrCreateSession st1) as [[s|err] st2]; cbn [snd] in H2.
  - rewrite exec_bind. cbn [modify].
    set (st3 := on_script (set_session s) st2).
    match goal with
    | |- Forall _ (emitted (exec ?rest st3)) =>
        assert (Hrest : stable loyal rest) by loyal_tac;
        destruct (Hrest st3) as (Hi & evs & He & Hf)
    end.
    rewrite He, Hi.
    change (emitted st3) with (emitted st2). rewrite H2, H1. exact Hf.
  - rewrite H2, H1. constructor.
Qed.

(** X7.  After the script ran and after any turns of the event loop, the
    id and the visitorId of the session in memory are those the script
    settled on when it loaded, and every event accepted so far, sent or
    still queued, carries them as its sessionId and visitorId: no
    listener, API call or custom data changes whose events they are. *)
Theorem X7_events_carry_the_session (e : environment) (ts : list turn) :
  let st0 := page_load e in
  let st := run_turns ts st0 in
  ident st = ident st0
  /\ Forall (carries (ident st0)) (emitted st).
Proof.
  cbv zeta.
  destruct (run_turns_loyal ts (page_load e)) as (Hi & evs & He & Hf).
  split; [exact Hi|]. rewrite He. apply Forall_app.
  split; [apply page_load_loyal | exact Hf].
Qed.

(** *** Without a site id nothing is hooked *)

#[local] Instance inert_preorder : PreOrder inert.
Proof. split; unfold inert; [intros st; auto | intros a b c; auto]. Qed.

Ltac inert_leaf :=
  unfold inert, unhooked, configured, config_of; open_primitives;
  unfold on_page, on_script; cbn;
  try match goal with
      | |- context [if ?c then _ else _] => destruct c; cbn
      end;
  let Hl := fresh "Hl" in
  let Hi := fresh "Hi" in
  intros (? & ? & Hl & Hi);
  rewrite ?forallb_app; cbn; rewrite ?Hl, ?Hi;
  repeat split; first [assumption | reflexivity].

Lemma init_unconfigured (st : state) :
  configured st = false ->
  init st
  = console_warn "[Analytics] No site_id configured. Add data-site-id attribute to script tag or call WebAnalytics.setSiteId()" st.
Proof.
  intros Hc. unfold configured in Hc.
  unfold init. unfold bind at 1. unfold gets at 1. cbv beta iota.
  rewrite Hc. reflexivity.
Qed.

Lemma init_inert : stable inert init.
Proof.
  intros st H. pose proof H as (Hc & _). unfold exec.
  rewrite (init_unconfigured st Hc). clear Hc. revert H.
  match goal with
  | |- unhooked st -> unhooked (snd (?m st)) =>
      change (inert st (exec m st)); revert st;
      change (stable inert m)
  end.
  intros st. inert_leaf.
Qed.

Ltac inert_special := idtac; match goal with
                              | |- stable inert init => apply init_inert
                              end.

Ltac inert_tac :=
  open_callers;
  unfold getOrCreateSession, generateId, Cookie_set, Cookie_get, set_config,
    trackEvent, createEvent, flush;
  walk inert_special inert_leaf.

Lemma run_callback_inert cb arg : stable inert (run_callback cb arg).
Proof. destruct cb, arg; cbn [run_callback]; inert_tac. Qed.

Lemma setSiteId_inert (s : value) :
  Js.truthy s = false -> stable inert (setSiteId s).
Proof.
  intros Hs st (Hc & H). unfold exec. rewrite setSiteId_run, Hs.
  cbn [andb snd]. split; [exact Hs | exact H].
Qed.

Lemma run_api_inert c : activating (Call c) = false -> stable inert (run_api c).
Proof.
  intros Hc. destruct c; cbn [run_api]; cbn [activating] in Hc;
    first [apply setSiteId_inert; exact Hc | inert_tac].
Qed.

Lemma start_inert : stable inert start.
Proof. inert_tac. Qed.

Lemma exec_turn_inert (t : turn) (st : state) :
  activating t = false -> inert st (exec_turn t st).
Proof.
  intros Ht. destruct t as [cb arg | c | h | d].
  - apply run_callback_inert.
  - apply run_api_inert, Ht.
  - intros H. exact H.
  - intros H. exact H.
Qed.

Lemma page_load_unhooked (e : environment) :
  configured (page_load e) = false -> unhooked (page_load e).
Proof.
  intros Hc. unfold page_load in *. rewrite main_run in *.
  set (st0 := State initial_vars (fresh_browser e)) in *.
  destruct (read_script_tag_run st0) as (_ & _ & Hp).
  destruct (start_quiet ScrollSignal (exec read_script_tag st0)) as [Hcfg _].
  apply start_inert. unfold unhooked. rewrite Hp.
  split; [|repeat split].
  unfold configured, config_of in *. rewrite <- Hcfg. exact Hc.
Qed.

(** X10.  On a page where the script found no site id, and for as long
    as setSiteId is not called with a truthy value, the script hooks
    nothing: window.onerror is not set, no listener is registered except
    the one for DOMContentLoaded, and no timer runs except the
    engagement check. *)
Theorem X10_unconfigured_page_is_unhooked (e : environment) (ts : list turn) :
  configured (page_load e) = false ->
  forallb (fun t => negb (activating t)) ts = true ->
  unhooked (run_turns ts (page_load e)).
Proof.
  intros Hc Hts. pose proof (page_load_unhooked e Hc) as H0.
  revert H0. generalize (page_load e) as st. clear Hc.
  induction ts as [|t ts IH]; intros st H0; [exact H0|].
  cbn [forallb] in Hts. apply andb_prop in Hts. destruct Hts as [Ht Hts].
  apply negb_true_iff in Ht.
  change (run_turns (t :: ts) st) with (run_turns ts (exec_turn t st)).
  apply (IH Hts). apply (exec_turn_inert t st Ht), H0.
Qed.

(** *** Initialization happens once *)

#[local] Instance flagged_preorder : PreOrder flagged.
Proof. split; unfold flagged; [intros st; auto | intros a b c; auto]. Qed.

Ltac flagged_leaf :=
  unfold flagged; open_primitives; unfold on_page, on_script; cbn;
  try match goal with
      | |- context [if ?c then _ else _] => destruct c; cbn
      end;
  auto.

Ltac flagged_tac := open_script; walk fail flagged_leaf.

Lemma run_callback_flagged cb arg : stable flagged (run_callback cb arg).
Proof. destruct cb, arg; cbn [run_callback]; flagged_tac. Qed.

Lemma run_api_flagged c : stable flagged (run_api c).
Proof. destruct c; cbn [run_api]; flagged_tac. Qed.

Lemma init_flagged : stable flagged init.
Proof. flagged_tac. Qed.

Lemma run_turns_flagged (ts : list turn) (st : state) :
  flagged st (run_turns ts st).
Proof.
  revert st. induction ts as [|t ts IH]; intros st; [reflexivity|].
  change (run_turns (t :: ts) st) with (run_turns ts (exec_turn t st)).
  transitivity (exec_turn t st); [|apply IH].
  destruct t as [cb arg | c | h | d].
  - apply run_callback_flagged.
  - apply run_api_flagged.
  - intros H. exact H.
  - intros H. exact H.
Qed.

(** X18.  A call of setSiteId with a truthy value leaves
    window._waInitialized truthy, whether it ran init or found it done;
    nothing that happens afterwards clears the flag, and every later
    call of setSiteId only stores its argument in CONFIG.siteId: it
    returns without running init, so the page, with its listeners,
    timers and network log, is as before the call. *)
Theorem X18_setSiteId_initialises_once
    (s s' : value) (ts : list turn) (st : state) :
  Js.truthy s = true ->
  let st1 := exec (setSiteId s) st in
  let st2 := run_turns ts st1 in
  Js.truthy (waInitialized (page st2)) = true
  /\ setSiteId s' st2 = (Ok tt, assigned s' st2)
  /\ page (exec (setSiteId s') st2) = page st2
  /\ eventQueue (script (exec (setSiteId s') st2)) = eventQueue (script st2).
Proof.
  intros Hs. cbv zeta.
  assert (H1 : Js.truthy (waInitialized (page (exec (setSiteId s) st))) = true).
  { unfold exec. rewrite setSiteId_run, Hs. cbn [andb].
    destruct (Js.truthy (waInitialized (page st))) eqn:Hflag; cbn [negb].
    - exact Hflag.
    - apply (init_flagged (on_page (set_waInitialized (VBool true))
                             (assigned s st))).
      reflexivity. }
  pose proof (run_turns_flagged ts _ H1) as H2.
  set (st2 := run_turns ts (exec (setSiteId s) st)) in *.
  split; [exact H2|].
  pose proof (setSiteId_guarded s' _ H2) as Hrun.
  split; [exact Hrun|]. unfold exec. rewrite Hrun. split; reflexivity.
Qed.

(** *** What was accepted stays *)

#[local] Instance extends_preorder : PreOrder extends.
Proof.
  split.
  - intros st. exists []. rewrite app_nil_r. reflexivity.
  - intros a b c [s1 H1] [s2 H2]. exists (s1 ++ s2).
    rewrite H2, H1, app_assoc. reflexivity.
Qed.






Lemma flush_emitted (st : state) : emitted (exec flush st) = emitted st.
Proof.
  destruct (flush_loyal st) as (_ & evs & He & _).
  unfold exec.
  destruct (eventQueue (script st)) as [|ev q] eqn:Eq.
  - rewrite flush_idle by (left; exact Eq). reflexivity.
  - destruct (configured st) eqn:Hc.
    + rewrite flush_send by (rewrite ?Eq; congruence). apply emitted_flushed.
    + rewrite flush_idle by (right; exact Hc). reflexivity.
Qed.


(** *** The cookie mirrors the session *)

#[local] Instance settles_preorder : PreOrder settles.
Proof. split; unfold settles; [intros st; auto | intros a b c; auto]. Qed.











Lemma read_script_tag_store :
  stable (keeps (fun st => (cookieName (config_of st),
                            cookieExpiry (config_of st))))
         read_script_tag.
Proof. keeps_tac. Qed.



(** *** Scroll depths are percentages *)

(** The division and the product round, yet the rounded values stay
    between the integers the exact ones lie between. *)
Lemma half_even_bounds (n d N : Z) :
  0 <= n -> 0 < d -> n <= N * d -> 0 <= Double.half_even n d <= N.
Proof.
  intros Hn Hd HN. unfold Double.half_even.
  pose proof (Z.div_mod n d ltac:(lia)) as Hdm.
  pose proof (Z.mod_pos_bound n d Hd) as Hr.
  assert (Hq : 0 <= n / d) by (apply Z.div_pos; lia).
  assert (HqN : n / d <= N) by (apply Z.div_le_upper_bound; lia).
  assert (Hup : 0 < n mod d -> n / d + 1 <= N) by nia.
  destruct (Z.ltb_spec (2 * (n mod d)) d); [lia|].
  destruct (Z.ltb_spec d (2 * (n mod d))); [lia|].
  destruct (Z.even (n / d)); lia.
Qed.

Lemma ilog2_small (n d : Z) : 0 < n -> n <= d -> Double.ilog2 n d <= 0.
Proof.
  intros Hn Hd. unfold Double.ilog2.
  destruct (Z.leb_spec d n).
  - replace n with d by lia. rewrite Z.div_same by lia. reflexivity.
  - pose proof (Z.log2_up_nonneg ((d + n - 1) / n)). lia.
Qed.

Lemma ilog2_bounded (n d b : Z) :
  0 < n -> 0 < d -> 0 <= b -> n < 2 ^ (b + 1) * d -> Double.ilog2 n d <= b.
Proof.
  intros Hn Hd Hb H. unfold Double.ilog2.
  destruct (Z.leb_spec d n).
  - assert (Hq : n / d < 2 ^ (b + 1)) by (apply Z.div_lt_upper_bound; lia).
    assert (0 < n / d) by (apply Z.div_str_pos; lia).
    apply Z.log2_lt_pow2 in Hq; lia.
  - pose proof (Z.log2_up_nonneg ((d + n - 1) / n)). lia.
Qed.

Lemma round_percent_range (s h : Z) :
  0 <= s <= h -> 0 < h -> 0 <= round_percent s h <= 100.
Proof.
  intros Hs Hh. unfold round_percent, Double.of_ratio.
  destruct (Z.eqb_spec s 0) as [-> | Hs0]; [cbn; lia|].
  assert (Hneg : Bool.eqb (s <? 0) (0 <? h) = false).
  { destruct (Z.ltb_spec s 0); [lia|]. destruct (Z.ltb_spec 0 h); [reflexivity | lia]. }
  rewrite Hneg, !Z.abs_eq by lia. unfold Double.nearest.
  pose proof (ilog2_small s h ltac:(lia) ltac:(lia)) as Hl.
  set (e := Z.max (Double.ilog2 s h - 52) (-1074)).
  assert (He : -1074 <= e <= -52) by lia.
  destruct (Z.leb_spec 0 e) as [? | _]; [lia|].
  set (m := Double.half_even (s * 2 ^ (- e)) h).
  assert (Hp : 0 < 2 ^ (- e)) by (apply Z.pow_pos_nonneg; lia).
  assert (Hm : 0 <= m <= 2 ^ (- e)) by (apply half_even_bounds; nia).
  destruct (Z.ltb_spec 971 e) as [? | _]; [lia|].
  destruct (Z.eqb_spec e 971) as [? | _]; [lia|]. cbn [orb andb].
  unfold Double.mul, Double.of_dyadic. rewrite Z.add_0_r.
  destruct (Z.leb_spec 0 e) as [? | _]; [lia|].
  unfold Double.of_ratio.
  destruct (Z.eqb_spec (m * 100) 0) as [_ | Hm0]; [cbn; lia|].
  assert (Hneg2 : Bool.eqb (m * 100 <? 0) (0 <? 2 ^ (- e)) = false).
  { destruct (Z.ltb_spec (m * 100) 0); [lia|].
    destruct (Z.ltb_spec 0 (2 ^ (- e))); [reflexivity | lia]. }
  rewrite Hneg2, !Z.abs_eq by lia. unfold Double.nearest.
  assert (Hl2 : Double.ilog2 (m * 100) (2 ^ (- e)) <= 6).
  { apply ilog2_bounded; try lia; change (2 ^ (6 + 1)) with 128; lia. }
  set (e2 := Z.max (Double.ilog2 (m * 100) (2 ^ (- e)) - 52) (-1074)).
  assert (He2 : -1074 <= e2 <= -46) by lia.
  destruct (Z.leb_spec 0 e2) as [? | _]; [lia|].
  set (m2 := Double.half_even (m * 100 * 2 ^ (- e2)) (2 ^ (- e))).
  assert (Hp2 : 0 < 2 ^ (- e2)) by (apply Z.pow_pos_nonneg; lia).
  assert (Hm2 : 0 <= m2 <= 100 * 2 ^ (- e2)) by (apply half_even_bounds; nia).
  destruct (Z.ltb_spec 971 e2) as [? | _]; [lia|].
  destruct (Z.eqb_spec e2 971) as [? | _]; [lia|]. cbn [orb andb].
  unfold Double.round.
  destruct (Z.leb_spec 0 e2) as [? | _]; [lia|].
  unfold Double.to_Z. change (0 <=? 0) with true. cbv iota.
  change (2 ^ 0) with 1. rewrite Z.mul_1_r.
  replace (1 - e2) with (- e2 + 1) by lia.
  rewrite Z.pow_add_r by lia. change (2 ^ 1) with 2.
  split.
  - apply Z.div_pos; lia.
  - assert (Hlt : (2 * m2 + 2 ^ (- e2)) / (2 ^ (- e2) * 2) < 101)
      by (apply Z.div_lt_upper_bound; lia).
    lia.
Qed.

Lemma scroll_depth_range (d : dom) :
  scroll_in_range d = true -> 0 <= scroll_depth d <= 100.
Proof.
  unfold scroll_in_range, scroll_depth, doc_height.
  intros H. apply andb_prop in H. destruct H as [H0 H1].
  apply Z.leb_le in H0, H1.
  set (h := Z.max (body_scrollHeight d) (documentElement_scrollHeight d)
            - innerHeight d) in *.
  destruct (Z.ltb_spec 0 h) as [Hh | Hh]; [|lia].
  apply round_percent_range; lia.
Qed.

Lemma scroll_depth_flat (d : dom) : doc_height d <= 0 -> scroll_depth d = 0.
Proof.
  unfold scroll_depth, doc_height. intros H.
  destruct (Z.ltb_spec 0 (Z.max (body_scrollHeight d)
                                (documentElement_scrollHeight d)
                          - innerHeight d)); [lia | reflexivity].
Qed.

Lemma run_callback_dom cb arg :
  stable (keeps (fun st => dom_of (page st))) (run_callback cb arg).
Proof. destruct cb, arg; cbn [run_callback]; keeps_tac. Qed.

Lemma run_api_dom c : stable (keeps (fun st => dom_of (page st))) (run_api c).
Proof. destruct c; cbn [run_api]; keeps_tac. Qed.

Lemma main_dom : stable (keeps (fun st => dom_of (page st))) main.
Proof. keeps_tac. Qed.

Lemma percentages_calm (st st' : state) :
  calm ScrollSignal st st' ->
  dom_of (page st') = dom_of (page st) ->
  percentages st -> percentages st'.
Proof.
  intros (_ & _ & evs & He & Hf) Hd [Hr Hp]. unfold percentages.
  rewrite Hd, He, (scroll_depths_other _ _ Hf). split; assumption.
Qed.

Lemma scroll_settled_percentages (st : state) :
  percentages st -> percentages (exec scroll_settled st).
Proof.
  intros [Hr Hp].
  pose proof (run_callback_dom FnScrollSettled NoArg st) as Hd.
  unfold keeps in Hd. cbn [run_callback] in Hd.
  split; [rewrite Hd; exact Hr|].
  unfold exec. rewrite scroll_settled_run. cbv zeta.
  set (depth := scroll_depth (dom_of (page st))).
  destruct (lastScrollDepth (script st) + 10 <? depth); [|exact Hp].
  set (data := [("depth", VNum depth); _]).
  set (st1 := on_script (set_lastScrollDepth depth) st).
  destruct (trackEvent_effect "scroll" data st1) as (_ & _ & _ & He).
  unfold exec in He. rewrite He. change (emitted st1) with (emitted st).
  destruct (configured st1); [|rewrite app_nil_r; exact Hp].
  unfold scroll_depths. rewrite filter_app, map_app.
  change (map depth_of (filter (has_type "scroll")
                          [event_at "scroll" data st1]))
    with [depth].
  apply Forall_app. split; [exact Hp|].
  constructor; [|constructor]. apply scroll_depth_range, Hr.
Qed.

Lemma exec_turn_percentages (t : turn) (st : state) :
  stays_in_range t = true -> percentages st -> percentages (exec_turn t st).
Proof.
  intros Ht H. destruct t as [cb arg | c | h | d].
  - destruct cb;
      try (refine (percentages_calm _ _ _ _ H);
           [apply quiet_calm; apply run_callback_quiet_scroll; discriminate
           | apply (run_callback_dom _ arg st)]).
    apply scroll_settled_percentages, H.
  - refine (percentages_calm _ _ _ _ H);
      [apply run_api_calm | apply (run_api_dom c st)].
  - exact H.
  - destruct H as [_ Hp]. split; [exact Ht | exact Hp].
Qed.

Lemma run_turns_percentages (ts : list turn) (st : state) :
  forallb stays_in_range ts = true ->
  percentages st -> percentages (run_turns ts st).
Proof.
  revert st. induction ts as [|t ts IH]; intros st Hts H; [exact H|].
  cbn [forallb] in Hts. apply andb_prop in Hts. destruct Hts as [Ht Hts].
  change (run_turns (t :: ts) st) with (run_turns ts (exec_turn t st)).
  apply (IH _ Hts), exec_turn_percentages; assumption.
Qed.

(** X3.  The depth the settled-scroll arrow computes is 0 on a page
    that cannot be scrolled and lies between 0 and 100 whenever the
    scroll position lies inside the document.  So on a page that is
    never scrolled outside its document, every scroll event carries a
    depth between 0 and 100, and at most 9 scroll events are accepted
    however long the page lives. *)
Theorem X3_scroll_depth_is_a_percentage (e : environment) (ts : list turn) :
  scroll_in_range (env_dom e) = true ->
  forallb stays_in_range ts = true ->
  let ds := scroll_depths (emitted (run_turns ts (page_load e))) in
  Forall (fun d => 0 <= d <= 100) ds
  /\ (length ds <= 9)%nat
  /\ (forall d, scroll_in_range d = true -> 0 <= scroll_depth d <= 100)
  /\ (forall d, doc_height d <= 0 -> scroll_depth d = 0).
Proof.
  intros He Hts. cbv zeta.
  assert (H0 : percentages (page_load e)).
  { unfold page_load.
    refine (percentages_calm _ _ (main_calm ScrollSignal _) (main_dom _) _).
    split; [exact He | constructor]. }
  destruct (run_turns_percentages ts _ Hts H0) as [_ Hp].
  split; [exact Hp|]. split; [|split].
  - pose proof (run_turns_trail ts _ (page_load_trail e)) as [Hs _].
    assert (Hle : Forall (fun d => d <= 100)
                    (scroll_depths (emitted (run_turns ts (page_load e)))))
      by (eapply Forall_impl; [|exact Hp]; cbn; intros; lia).
    pose proof (sparse_length 0 100 _ Hs Hle). lia.
  - apply scroll_depth_range.
  - apply scroll_depth_flat.
Qed.

(** *** The start of tracking *)

(** What follows a computation that keeps a reading does not change what
    the reading was after the computation. *)
Lemma keeps_after {A B C : Type} (f : state -> C) (m : M A) (k : A -> M B)
    (st : state) :
  (forall a, stable (keeps f) (k a)) ->
  f (exec (bind m k) st) = f (exec m st).
Proof.
  intros Hk. rewrite exec_bind. unfold exec at 2.
  destruct (m st) as [[a|err] st1]; cbn [snd]; [apply Hk | reflexivity].
Qed.

Lemma init_configured (st : state) :
  configured st = true ->
  emitted (exec init st)
  = emitted st ++ [event_at "pageview" (pageview_data st) st]
  /\ session (script (exec init st)) = session (script st)
  /\ config_of (exec init st) = config_of st.
Proof.
  intros Hc.
  assert (Hs : session (script (exec init st)) = session (script st)).
  { assert (H : stable (keeps (fun st => session (script st))) init)
      by keeps_tac.
    apply H. }
  assert (Hcfg : config_of (exec init st) = config_of st)
    by (apply (init_quiet ScrollSignal st)).
  split; [|split; assumption].
  unfold init. rewrite exec_bind. unfold gets at 1. cbv beta iota.
  unfold configured in Hc. rewrite Hc. cbn [negb].
  rewrite (keeps_after emitted) by (intros; keeps_tac).
  unfold trackPageView. rewrite exec_bind. unfold gets at 1. cbv beta iota.
  destruct (trackEvent_effect "pageview" (pageview_data st) st)
    as (_ & _ & _ & He).
  unfold pageview_data in *. rewrite He. unfold configured. rewrite Hc.
  reflexivity.
Qed.

Lemma start_run (s : value) (st1 st2 : state) :
  getOrCreateSession st1 = (Ok s, st2) ->
  exec start st1
  = let st7 := prepared s st2 in
    if String.eqb (readyState (page st2)) "loading" then
      exec (addEventListener Document "DOMContentLoaded"
              (FnDomReady (next_closure (page st2))) false)
           (on_page (set_next_closure (S (next_closure (page st2)))) st7)
    else if configured st2
         then exec init (on_page (set_waInitialized (VBool true)) st7)
         else st7.
Proof.
  intros Hs. unfold start. rewrite exec_bind, Hs.
  unfold exec, bind, modify, gets, Date_now, setInterval, new_closure,
    prepared, configured, config_of, now_of, tick, ret, on_page, on_script.
  cbn -[init addEventListener].
  destruct (String.eqb (readyState (page st2)) "loading"); [reflexivity|].
  change (siteId (CONFIG (script _))) with (siteId (CONFIG (script st2))).
  destruct (Js.truthy (siteId (CONFIG (script st2)))); reflexivity.
Qed.

Lemma read_script_tag_boot : stable (keeps boot) read_script_tag.
Proof. keeps_tac. Qed.

Lemma getOrCreateSession_boot : stable (keeps boot) getOrCreateSession.
Proof. keeps_tac. Qed.

Lemma read_script_tag_callbacks : stable (keeps callbacks) read_script_tag.
Proof. keeps_tac. Qed.

Lemma getOrCreateSession_callbacks :
  stable (keeps callbacks) getOrCreateSession.
Proof. keeps_tac. Qed.

Lemma updateEngagement_lobby : stable (keeps lobby) updateEngagement.
Proof. keeps_tac. Qed.

Lemma find_handle_callback (h : nat) (l : list (nat * callback * Z))
    (cb : callback) (P : callback -> Prop) :
  Forall (fun t => P (snd (fst t))) l ->
  find_handle h l = Some cb -> P cb.
Proof.
  intros Hall. unfold find_handle.
  destruct (find _ l) as [t|] eqn:Hfind; [|discriminate].
  intros H. injection H as <-. apply find_some in Hfind.
  rewrite Forall_forall in Hall. apply Hall, Hfind.
Qed.

(** A bystander leaves a waiting page as it is. *)
Lemma bystander_lobby (s : stimulus) (st : state) :
  bystander s = true -> waiting st -> lobby (react s st) = lobby st.
Proof.
  intros Hs (Hl & Ht & Hi & He & Hq). unfold react.
  destruct s as [ev | h | h | m src l c stack | c | d]; cbn [turns_of].
  - rewrite Hl.
    destruct ev; try discriminate Hs; reflexivity.
  - rewrite Ht. reflexivity.
  - destruct (find_handle h (intervals (page st))) as [cb|] eqn:Hh;
      [|reflexivity].
    apply (find_handle_callback h _ cb (fun cb => cb = FnUpdateEngagement))
      in Hh; [|exact Hi].
    subst cb. apply (updateEngagement_lobby st).
  - rewrite He. reflexivity.
  - destruct (WebAnalytics (page st)); [|reflexivity].
    destruct c; try discriminate Hs; cbn [run_turns fold_left exec_turn run_api].
    + reflexivity.
    + unfold exec. rewrite flush_idle by (left; exact Hq). reflexivity.
    + reflexivity.
    + reflexivity.
    + reflexivity.
  - reflexivity.
Qed.

Lemma waiting_lobby (st st' : state) :
  lobby st' = lobby st -> waiting st -> waiting st'.
Proof.
  unfold lobby, callbacks, waiting. intros H.
  injection H as Hl Ht Hi He _ Hq _ _.
  rewrite Hl, Ht, Hi, He, Hq. auto.
Qed.

Lemma bystanders_lobby (ss : list stimulus) (st : state) :
  forallb bystander ss = true -> waiting st ->
  lobby (react_all ss st) = lobby st.
Proof.
  revert st. induction ss as [|s ss IH]; intros st Hss Hw; [reflexivity|].
  cbn [forallb] in Hss. apply andb_prop in Hss. destruct Hss as [Hs Hss].
  change (react_all (s :: ss) st) with (react_all ss (react s st)).
  pose proof (bystander_lobby s st Hs Hw) as Hstep.
  rewrite (IH (react s st) Hss (waiting_lobby _ _ Hstep Hw)). exact Hstep.
Qed.

(** X12.  When the script has run without throwing on a page that
    configures a site id, tracking starts with one pageview event and
    nothing else: accepted while the script runs if the document is
    already parsed, and otherwise (readyState loading) when
    DOMContentLoaded fires, nothing being accepted before, whatever
    happens on the page in between short of a call of track, identify
    or setSiteId: other events, timers, errors, changes of the page
    and the other calls of the API.  The event reports the page-view
    count and the is-new flag of the session, and window._waInitialized
    is truthy from then on. *)
Theorem X12_tracking_starts_with_a_pageview
    (e : environment) (ss : list stimulus) :
  fst (main (State initial_vars (fresh_browser e))) = Ok tt ->
  configured (page_load e) = true ->
  forallb bystander ss = true ->
  let st := page_load e in
  let started :=
    if String.eqb (env_readyState e) "loading"
    then react (DomEvent EvDOMContentLoaded) (react_all ss st)
    else st in
  (String.eqb (env_readyState e) "loading" = true ->
   emitted (react_all ss st) = [])
  /\ exists ev,
       emitted started = [ev]
       /\ has_type "pageview" ev = true
       /\ Js.get ev "pageViewNumber" = Js.get (session (script st)) "pageViews"
       /\ Js.get ev "isNewVisitor" = Js.get (session (script st)) "isNew"
       /\ Js.truthy (waInitialized (page started)) = true.
Proof.
  intros Hload Hc Hss. cbv zeta. unfold page_load in *.
  set (st00 := State initial_vars (fresh_browser e)) in *.
  rewrite main_run in *.
  destruct (main st00) as [o st'] eqn:Hmain. cbn [fst] in Hload. subst o.
  unfold main in Hmain.
  apply bind_ok in Hmain. destruct Hmain as ([] & st1 & Hread & Hstart).
  assert (Hst1 : exec read_script_tag st00 = st1)
    by (unfold exec; rewrite Hread; reflexivity).
  rewrite Hst1 in *.
  unfold start in Hstart.
  apply bind_ok in Hstart. destruct Hstart as (s & st2 & Hsession & _).
  assert (Hst2 : exec getOrCreateSession st1 = st2)
    by (unfold exec; rewrite Hsession; reflexivity).
  assert (Hboot : boot st2 = ([], 0%nat, env_readyState e)).
  { rewrite <- Hst2, (getOrCreateSession_boot st1), <- Hst1.
    apply (read_script_tag_boot st00). }
  unfold boot in Hboot. injection Hboot as Hlisteners Hclosure Hready.
  assert (Hcalls : callbacks st2 = ([], [], None)).
  { rewrite <- Hst2, (getOrCreateSession_callbacks st1), <- Hst1.
    apply (read_script_tag_callbacks st00). }
  unfold callbacks in Hcalls. injection Hcalls as Htimeouts Hintervals Honerror.
  assert (Hemitted : emitted st2 = []).
  { rewrite <- Hst2, (getOrCreateSession_emitted st1), <- Hst1.
    apply (read_script_tag_emitted st00). }
  rewrite (start_run s st1 st2 Hsession) in *. cbv zeta in *.
  rewrite Hready, Hclosure in *.
  assert (Hstarts : forall st,
            configured st = true -> emitted st = [] ->
            exists ev,
              emitted (exec init (on_page (set_waInitialized (VBool true)) st))
              = [ev]
              /\ has_type "pageview" ev = true
              /\ Js.get ev "pageViewNumber"
                 = Js.get (session (script st)) "pageViews"
              /\ Js.get ev "isNewVisitor"
                 = Js.get (session (script st)) "isNew"
              /\ session (script (exec init
                            (on_page (set_waInitialized (VBool true)) st)))
                 = session (script st)
              /\ Js.truthy
                   (waInitialized
                      (page (exec init
                               (on_page (set_waInitialized (VBool true)) st))))
                 = true).
  { intros st Hcst Hest.
    set (stx := on_page (set_waInitialized (VBool true)) st).
    destruct (init_configured stx Hcst) as (He & Hs & _).
    eexists. split; [rewrite He; change (emitted stx) with (emitted st);
                     rewrite Hest; reflexivity|].
    split; [reflexivity|]. split; [reflexivity|]. split; [reflexivity|].
    split; [exact Hs|]. apply (init_flagged stx). reflexivity. }
  destruct (String.eqb (env_readyState e) "loading").
  - set (st7 := on_page (set_next_closure 1) (prepared s st2)) in *.
    set (l := Listener Document "DOMContentLoaded" (FnDomReady 0) false).
    assert (He9 : emitted (exec (addEventListener Document
                                   "DOMContentLoaded" (FnDomReady 0) false)
                             st7) = []).
    { assert (H : stable (keeps emitted)
                    (addEventListener Document "DOMContentLoaded"
                       (FnDomReady 0) false)) by (intros ?; keeps_leaf).
      rewrite (H st7). exact Hemitted. }
    assert (Hw9 : waiting (exec (addEventListener Document
                                   "DOMContentLoaded" (FnDomReady 0) false)
                             st7)).
    { unfold waiting, exec, addEventListener, modify, st7, prepared,
        setInterval, on_page, on_script, tick. cbn.
      rewrite Hlisteners. cbn. rewrite Htimeouts, Hintervals, Honerror.
      unfold emitted in Hemitted. apply app_eq_nil in Hemitted.
      destruct Hemitted as [_ Hq]. rewrite Hq.
      repeat split. repeat constructor. }
    set (st9 := exec (addEventListener Document "DOMContentLoaded"
                        (FnDomReady 0) false) st7) in *.
    pose proof (bystanders_lobby ss st9 Hss Hw9) as Hlobby.
    pose proof (waiting_lobby _ _ Hlobby Hw9) as (Hlw & _).
    set (stw := react_all ss st9) in *.
    assert (Hew : emitted stw = emitted st9)
      by exact (f_equal (fun t => snd (fst (fst (fst t)))) Hlobby).
    assert (Hsw : session (script stw) = session (script st9))
      by exact (f_equal (fun t => snd (fst t)) Hlobby).
    assert (Hidw : siteId (config_of stw) = siteId (config_of st9))
      by exact (f_equal snd Hlobby).
    clear Hlobby.
    assert (Hcw : configured stw = true)
      by (unfold configured in *; rewrite Hidw; exact Hc).
    rewrite He9 in Hew.
    split; [intros _; exact Hew|].
    assert (Hreact : react (DomEvent EvDOMContentLoaded) stw
                     = exec init (on_page (set_waInitialized (VBool true)) stw)).
    { assert (Hturns : turns_of (DomEvent EvDOMContentLoaded) stw
                       = [Run (FnDomReady 0) NoArg])
        by (unfold turns_of; rewrite Hlw; reflexivity).
      unfold react. rewrite Hturns.
      change (run_turns [Run (FnDomReady 0) NoArg] stw)
        with (exec dom_ready stw).
      unfold exec. rewrite (dom_ready_unguarded stw Hcw). reflexivity. }
    rewrite Hreact.
    destruct (Hstarts stw Hcw Hew) as (ev & H1 & H2 & H3 & H4 & _ & H6).
    exists ev. rewrite <- Hsw. auto.
  - split; [discriminate|].
    destruct (configured st2) eqn:Hc2.
    + destruct (Hstarts (prepared s st2) Hc2 Hemitted)
        as (ev & H1 & H2 & H3 & H4 & H5 & H6).
      exists ev. rewrite H5. auto.
    + change (configured (prepared s st2)) with (configured st2) in Hc.
      congruence.
Qed.

(** *** Where a batch goes *)

(** X13.  A batch is addressed when flush runs, not when its events were
    queued: after setEndpoint(url) and, on an initialized page,
    setSiteId(s) with a truthy s, the next flush hands the whole queue
    to the network in one transmission to url under the site id s (in
    the payload and, for a fetch, in the X-Site-ID header), and empties
    the queue. *)
Theorem X13_batch_is_addressed_at_flush (url s : value) (st : state) :
  eventQueue (script st) <> [] ->
  Js.truthy s = true ->
  Js.truthy (waInitialized (page st)) = true ->
  let st' := exec flush (exec (setSiteId s) (exec (api_setEndpoint url) st)) in
  exists t,
    network (page st') = network (page st) ++ [t]
    /\ events_of t = eventQueue (script st)
    /\ url_of t = url
    /\ Js.get (payload_of t) "site_id" = s
    /\ (forall h, site_header t = Some h -> h = s)
    /\ eventQueue (script st') = [].
Proof.
  intros Hq Hs Hflag. cbv zeta.
  set (st1 := exec (api_setEndpoint url) st).
  assert (H2 : exec (setSiteId s) st1 = assigned s st1).
  { unfold exec. rewrite setSiteId_guarded; [reflexivity | exact Hflag]. }
  rewrite H2. set (st2 := assigned s st1).
  assert (Hsend : flush st2 = (Ok tt, flushed (batch st2) st2)).
  { apply flush_send; [exact Hq | exact Hs]. }
  unfold exec. rewrite Hsend. cbn [snd].
  exists (batch st2). split; [reflexivity|].
  split; [rewrite events_of_batch; reflexivity|].
  unfold batch. destruct (has_sendBeacon (dom_of (page st2))); cbn;
    repeat split; try reflexivity; try discriminate.
  intros h Hh. injection Hh as <-. reflexivity.
Qed.

(** *** Leaving the page *)

Lemma trackEvent_returns type data (st : state) :
  trackEvent type data st = (Ok tt, exec (trackEvent type data) st).
Proof.
  unfold exec. destruct (configured st) eqn:Hc.
  - destruct (Z_le_gt_dec (batchSize (config_of st))
                (Z.of_nat (length (eventQueue (script st)
                                   ++ [event_at type data st]))))
      as [Hfull | Hbelow].
    + rewrite (trackEvent_full _ _ _ Hc Hfull). reflexivity.
    + rewrite (trackEvent_below _ _ _ Hc) by lia. reflexivity.
  - rewrite (trackEvent_unconfigured _ _ _ Hc). reflexivity.
Qed.




(** *** Errors *)

Lemma slice0_nonempty (n : nat) (s : string) :
  s <> "" -> JsString.slice0 (S n) s <> "".
Proof. destruct s; [congruence | discriminate]. Qed.

(** X16.  trackError, run with a site id configured, accepts one error
    event with the message, source, line and column it was given.  Its
    stack field is null when the error carries no stack or an empty one,
    and otherwise the first 500 characters of the stack: a string of at
    least one and at most 500 characters. *)
Theorem X16_error_stack_is_bounded
    (message source lineno colno : value) (stack : option string)
    (st : state) :
  configured st = true ->
  exists ev,
    emitted (exec (trackError message source lineno colno stack) st)
    = emitted st ++ [ev]
    /\ has_type "error" ev = true
    /\ Js.get ev "message" = message
    /\ Js.get ev "source" = source
    /\ Js.get ev "line" = lineno
    /\ Js.get ev "column" = colno
    /\ match stack with
       | None | Some EmptyString => Js.get ev "stack" = VNull
       | Some full =>
           Js.get ev "stack" = VStr (JsString.slice0 500 full)
           /\ (1 <= String.length (JsString.slice0 500 full) <= 500)%nat
       end.
Proof.
  intros Hc. unfold trackError.
  match goal with
  | |- context [trackEvent "error" ?d] => set (data := d)
  end.
  exists (event_at "error" data st).
  destruct (trackEvent_effect "error" data st) as (_ & _ & _ & He).
  rewrite He, Hc.
  split; [reflexivity|]. repeat (split; [reflexivity|]).
  destruct stack as [[|c full]|]; try reflexivity.
  split; [reflexivity|].
  split; [cbn; lia | apply substring_length_le].
Qed.

(** *** Configuration *)

Lemma read_script_tag_config (e : environment) :
  config_of (exec read_script_tag (State initial_vars (fresh_browser e)))
  = config_from (found_script e).
Proof.
  unfold read_script_tag, exec, bind, gets, when, set_config, modify,
    found_script, config_from, attribute, config_of.
  cbn.
  destruct (env_currentScript e) as [[site url dbg]|];
    [|destruct (env_querySelector_script e) as [[site url dbg]|]];
    cbn; try reflexivity;
    destruct site as [site|], url as [url|], dbg as [dbg|]; cbn;
    repeat match goal with
           | |- context [String.eqb ?s ?t] =>
               is_var s; destruct (String.eqb s t) eqn:?; cbn
           end;
    reflexivity.
Qed.

Lemma run_callback_config cb arg :
  stable (keeps (fun st => CONFIG (script st))) (run_callback cb arg).
Proof. destruct cb, arg; cbn [run_callback]; keeps_tac. Qed.

Lemma run_api_config c :
  reconfiguring (Call c) = false ->
  stable (keeps (fun st => CONFIG (script st))) (run_api c).
Proof.
  intros Hc. destruct c; cbn [run_api]; try discriminate Hc; keeps_tac.
Qed.

Lemma run_callback_constants cb arg :
  stable (keeps constants) (run_callback cb arg).
Proof. destruct cb, arg; cbn [run_callback]; keeps_tac. Qed.

Lemma run_api_constants c : stable (keeps constants) (run_api c).
Proof. destruct c; cbn [run_api]; keeps_tac. Qed.

Lemma run_turns_constants (ts : list turn) (st : state) :
  constants (run_turns ts st) = constants st.
Proof.
  revert st. induction ts as [|t ts IH]; intros st; [reflexivity|].
  change (run_turns (t :: ts) st) with (run_turns ts (exec_turn t st)).
  rewrite IH. destruct t as [cb arg | c | h | d].
  - apply run_callback_constants.
  - apply run_api_constants.
  - reflexivity.
  - reflexivity.
Qed.

Lemma run_turns_config (ts : list turn) (st : state) :
  forallb (fun t => negb (reconfiguring t)) ts = true ->
  config_of (run_turns ts st) = config_of st.
Proof.
  revert st. induction ts as [|t ts IH]; intros st Hts; [reflexivity|].
  cbn [forallb] in Hts. apply andb_prop in Hts. destruct Hts as [Ht Hts].
  apply negb_true_iff in Ht.
  change (run_turns (t :: ts) st) with (run_turns ts (exec_turn t st)).
  rewrite (IH _ Hts). destruct t as [cb arg | c | h | d].
  - apply (run_callback_config cb arg st).
  - apply (run_api_config c Ht st).
  - reflexivity.
  - reflexivity.
Qed.

(** X19.  When the script has run, CONFIG is the CONFIG literal with the
    site id and the endpoint replaced by the data-site-id and
    data-endpoint attributes of the script tag (document.currentScript,
    or else the first script with a data-site-id) where these are
    present and not empty, and with debug true exactly when data-debug
    is the string true.  Afterwards only setSiteId, setEndpoint and
    setDebug change CONFIG, and nothing ever changes the cookie name,
    the cookie expiry, the batch size, the flush interval or the mouse
    settings. *)
Theorem X19_configuration_comes_from_the_script_tag (e : environment) :
  config_of (page_load e) = config_from (found_script e)
  /\ (configured (page_load e) = true
      <-> exists s, attribute (found_script e) data_site_id = Some s)
  /\ (forall ts : list turn,
        forallb (fun t => negb (reconfiguring t)) ts = true ->
        config_of (run_turns ts (page_load e)) = config_of (page_load e))
  /\ (forall ts : list turn,
        constants (run_turns ts (page_load e))
        = ("wa_session", 30, 10, 5000, true, 100)).
Proof.
  assert (Hcfg : config_of (page_load e) = config_from (found_script e)).
  { unfold page_load. rewrite main_run.
    destruct (start_quiet ScrollSignal
                (exec read_script_tag (State initial_vars (fresh_browser e))))
      as [Hc _].
    unfold config_of at 1. rewrite Hc. apply read_script_tag_config. }
  split; [exact Hcfg|]. split; [|split].
  - unfold configured. rewrite Hcfg. cbn.
    destruct (attribute (found_script e) data_site_id) as [s|] eqn:Ha.
    + split; [intros _; exists s; reflexivity|]. intros _.
      unfold attribute in Ha.
      destruct (found_script e) as [t|]; [|discriminate].
      destruct (data_site_id t) as [s'|]; [|discriminate].
      destruct (String.eqb s' "") eqn:Es; [discriminate|].
      injection Ha as <-. cbn. rewrite Es. reflexivity.
    + split; [discriminate | intros [s Hs]; discriminate].
  - intros ts. apply run_turns_config.
  - intros ts. rewrite run_turns_constants. unfold constants.
    rewrite Hcfg. reflexivity.
Qed.

(** *** Element paths *)

Lemma join_snoc (sep : string) (l : list string) (x : string) :
  l <> [] ->
  JsString.join sep (l ++ [x]) = JsString.join sep l +++ sep +++ x.
Proof.
  induction l as [|y [|z rest] IH]; intros Hl; [congruence | reflexivity|].
  change (JsString.join sep ((y :: z :: rest) ++ [x]))
    with (y +++ sep +++ JsString.join sep ((z :: rest) ++ [x])).
  rewrite IH by discriminate.
  change (JsString.join sep (y :: z :: rest))
    with (y +++ sep +++ JsString.join sep (z :: rest)).
  rewrite !append_assoc. reflexivity.
Qed.

Lemma path_selectors_nonempty (e : element) :
  is_body e = false -> path_selectors e <> [].
Proof.
  destruct e as [tag id cls text hr ty nm body parent]. cbn.
  intros ->. destruct (negb (String.eqb id "")); [discriminate|].
  destruct parent as [p|]; [|discriminate].
  destruct (path_selectors p); discriminate.
Qed.

(** X15.  getElementPath returns body for document.body.  For any other
    element with an id it returns the lower-case tag name, a hash sign
    and the id, whatever the ancestors are.  For an element without an
    id it returns the selector of the element, preceded by the path of
    its parent and the separator unless the parent is document.body or
    missing.  That selector is the lower-case tag name, followed, when
    the class name is a string with at least one class in it, by a dot
    and its first two classes joined by a dot. *)
Theorem X15_element_path_structure (e : element) :
  (is_body e = true -> getElementPath e = "body")
  /\ (is_body e = false -> el_id e <> "" ->
      getElementPath e
      = JsString.toLowerCase (tagName e) +++ "#" +++ el_id e)
  /\ (is_body e = false -> el_id e = "" ->
      exists selector,
        (forall c, className e = VStr c ->
           let classes :=
             JsString.join "."
               (firstn 2 (JsString.split_ws (JsString.trim c))) in
           selector
           = if String.eqb classes "" then JsString.toLowerCase (tagName e)
             else JsString.toLowerCase (tagName e) +++ "." +++ classes)
        /\ ((forall c, className e <> VStr c) ->
            selector = JsString.toLowerCase (tagName e))
        /\ getElementPath e
           = match parentElement e with
             | Some p =>
                 if is_body p then selector
                 else getElementPath p +++ " > " +++ selector
             | None => selector
             end).
Proof.
  destruct e as [tag id cls text hr ty nm body parent].
  unfold getElementPath. cbn [is_body el_id tagName className parentElement].
  split; [intros ->; reflexivity|]. split.
  - intros -> Hid. cbn.
    destruct (String.eqb_spec id ""); [congruence | reflexivity].
  - intros -> ->. cbn [path_selectors String.eqb negb].
    match goal with
    | |- context [match parent with
                  | Some p => path_selectors p ++ [?sel]
                  | None => _
                  end] => exists sel
    end.
    split; [|split].
    + intros c ->. cbv zeta.
      destruct (String.eqb_spec c "") as [-> | Hc]; [reflexivity|].
      cbn [negb].
      destruct (String.eqb _ ""); reflexivity.
    + intros Hcls. destruct cls; try reflexivity.
      exfalso. exact (Hcls _ eq_refl).
    + destruct parent as [p|]; [|reflexivity].
      destruct (is_body p) eqn:Hb.
      * destruct p. cbn in Hb. subst. reflexivity.
      * apply join_snoc, path_selectors_nonempty, Hb.
Qed.

(** *** Events are accepted in the order of their time stamps *)

#[local] Instance orders_preorder : PreOrder orders.
Proof.
  split.
  - intros st. split; [reflexivity|]. split; [lia | auto].
  - intros a b c (Hc1 & Hr1 & Hp1) (Hc2 & Hr2 & Hp2).
    split; [congruence|]. split; [lia|].
    intros Hm Ha. apply Hp2; [rewrite Hc1; exact Hm|]. apply Hp1; assumption.
Qed.

(** A step that reads the clock at most and accepts nothing. *)
Lemma orders_frame (st st' : state) :
  clock (page st') = clock (page st) ->
  (clock_reads (page st) <= clock_reads (page st'))%nat ->
  emitted st' = emitted st ->
  orders st st'.
Proof.
  intros Hc Hr He. split; [exact Hc|]. split; [exact Hr|].
  intros Hm [Hs Hf]. unfold chronological. rewrite He.
  split; [exact Hs|]. eapply Forall_impl; [|exact Hf].
  cbn. intros t Ht. etransitivity; [exact Ht|].
  unfold now_of. rewrite Hc. apply Hm, Hr.
Qed.

Ltac orders_leaf :=
  apply orders_frame; open_primitives; unfold emitted, on_page, on_script;
  cbn;
  try match goal with
      | |- context [if ?c then _ else _] => destruct c; cbn
      end;
  first [reflexivity | lia].

Lemma StronglySorted_snoc (l : list Z) (x : Z) :
  StronglySorted Z.le l -> Forall (fun y => y <= x) l ->
  StronglySorted Z.le (l ++ [x]).
Proof.
  induction l as [|y l IH]; intros Hs Hf; cbn.
  - constructor; constructor.
  - inversion Hs as [|? ? Hs' Hy]; subst.
    inversion Hf as [|? ? Hyx Hf']; subst.
    constructor; [apply IH; assumption|].
    apply Forall_app. split; [exact Hy | constructor; [exact Hyx | constructor]].
Qed.

Lemma trackEvent_paces type data : stable paces (trackEvent type data).
Proof. paces_tac. Qed.

Lemma trackEvent_orders type data :
  (forall st, stamp (event_at type data st) = now_of st) ->
  stable orders (trackEvent type data).
Proof.
  intros Hstamp st.
  destruct (trackEvent_paces type data st) as (Hc & Hr & _).
  destruct (trackEvent_effect type data st) as (_ & _ & _ & He).
  destruct (configured st) eqn:Hcfg;
    [|apply orders_frame; try assumption; rewrite He; apply app_nil_r].
  assert (Hr' : (S (clock_reads (page st))
                 <= clock_reads (page (exec (trackEvent type data) st)))%nat).
  { unfold exec. rewrite (trackEvent_configured _ _ _ Hcfg). cbv zeta.
    destruct (_ <=? _).
    - rewrite flush_send.
      + cbn [snd]. unfold flushed, pushed.
        destruct (Js.truthy _); cbn; lia.
      + rewrite pushed_queue. apply app_unit_not_nil.
      + unfold configured. rewrite pushed_config. exact Hcfg.
    - cbn [snd]. unfold pushed. destruct (Js.truthy _); cbn; lia. }
  split; [exact Hc|]. split; [exact Hr|].
  intros Hm [Hs Hf]. unfold chronological. rewrite He, map_app. cbn [map].
  rewrite Hstamp.
  assert (Hnext : now_of st <= now_of (exec (trackEvent type data) st)).
  { unfold now_of. rewrite Hc. apply Hm. lia. }
  split.
  - apply StronglySorted_snoc; assumption.
  - apply Forall_app. split.
    + eapply Forall_impl; [|exact Hf]. cbn. intros; lia.
    + constructor; [exact Hnext | constructor].
Qed.

Lemma flush_orders : stable orders flush.
Proof.
  intros st. apply orders_frame; [| |apply flush_emitted];
    unfold exec;
    (destruct (eventQueue (script st)) as [|ev q] eqn:Eq;
     [rewrite flush_idle by (left; exact Eq); cbn; auto
     |destruct (configured st) eqn:Hc;
      [rewrite flush_send by (rewrite ?Eq; congruence); cbn; auto
      |rewrite flush_idle by (right; exact Hc); cbn; auto]]).
Qed.

Ltac orders_special :=
  idtac;
  match goal with
  | |- stable orders (trackEvent _ _) =>
      apply trackEvent_orders; intros ?; reflexivity
  | |- stable orders flush => apply flush_orders
  end.

Ltac orders_tac := open_handlers; walk orders_special orders_leaf.

Lemma run_callback_orders cb arg : stable orders (run_callback cb arg).
Proof. destruct cb, arg; cbn [run_callback]; orders_tac. Qed.

Lemma run_api_orders c : stable orders (run_api c).
Proof. destruct c; cbn [run_api]; orders_tac. Qed.

Lemma main_orders : stable orders main.
Proof. orders_tac. Qed.

Lemma run_turns_orders (ts : list turn) (st : state) :
  orders st (run_turns ts st).
Proof.
  revert st. induction ts as [|t ts IH]; intros st; [reflexivity|].
  change (run_turns (t :: ts) st) with (run_turns ts (exec_turn t st)).
  transitivity (exec_turn t st); [|apply IH].
  destruct t as [cb arg | c | h | d].
  - apply run_callback_orders.
  - apply run_api_orders.
  - apply orders_frame; [reflexivity | cbn; lia | reflexivity].
  - apply orders_frame; [reflexivity | cbn; lia | reflexivity].
Qed.

(** X8.  On a page whose clock does not run backwards, the events
    accepted so far, sent or still queued, are in the order of their
    time stamps after the script ran and after any turns of the event
    loop, and no time stamp is ahead of the clock: every event is
    stamped with a reading taken when it is created, whatever data it
    is given. *)
Theorem X8_events_are_in_time_order (e : environment) (ts : list turn) :
  monotone (env_clock e) ->
  let st := run_turns ts (page_load e) in
  StronglySorted Z.le (map stamp (emitted st))
  /\ Forall (fun t => t <= now_of st) (map stamp (emitted st)).
Proof.
  intros Hm. cbv zeta.
  set (st00 := State initial_vars (fresh_browser e)).
  change (page_load e) with (exec main st00).
  destruct (main_orders st00) as (Hc & _ & Hload).
  destruct (run_turns_orders ts (exec main st00)) as (_ & _ & Hrun).
  apply Hrun; [rewrite Hc; exact Hm|].
  apply Hload; [exact Hm|]. split; constructor.
Qed.

(** *** A session across page loads *)

(** Among tidy cookies, the regular expression of Cookie.get finds the
    value the jar holds for the name. *)
Lemma literal_match_found (name v : string) (jar : list (string * string)) :
  cookie_name_ok name = true ->
  string_all value_char v = true -> v <> "" ->
  forallb tidy jar = true ->
  jar_value name jar = Some v ->
  CookieJar.literal_match name (CookieJar.document_cookie jar) = Some v.
Proof.
  intros Hname Hv Hne.
  destruct (cookie_name_parts name Hname) as (Hnn & Hn_eq & _).
  assert (He1 : string_all (is_not ";") v = true).
  { eapply string_all_impl; [|exact Hv]. unfold value_char. intros c H.
    apply andb_prop in H. tauto. }
  induction jar as [|[n0 v0] jar IH]; intros Htidy Hfind; [discriminate|].
  unfold jar_value in Hfind. cbn [find fst] in Hfind.
  cbn [forallb] in Htidy. apply andb_prop in Htidy.
  destruct Htidy as [Hnv Htidy].
  destruct (String.eqb_spec n0 name) as [-> | Hdiff].
  - cbn [snd] in Hfind. injection Hfind as ->.
    rewrite document_cookie_cons, (render_named _ _ Hnn).
    unfold CookieJar.literal_match.
    rewrite append_assoc, append_assoc, match_here_found; auto.
    destruct jar; [left; reflexivity | right; eexists; reflexivity].
  - fold (jar_value name jar) in Hfind. specialize (IH Htidy Hfind).
    unfold tidy in Hnv. cbn [fst snd] in Hnv.
    apply andb_prop in Hnv. destruct Hnv as [Hnv Hv0].
    apply andb_prop in Hnv. destruct Hnv as [Hn0 Hn].
    apply negb_true_iff in Hn0.
    assert (Hn0' : n0 <> "") by (destruct (String.eqb_spec n0 ""); congruence).
    assert (Hn_sp : string_all (is_not " ") n0 = true).
    { eapply string_all_impl; [|exact Hn]. intros c H.
      apply andb_prop in H. tauto. }
    assert (Hn_e : string_all (is_not "=") n0 = true).
    { eapply string_all_impl; [|exact Hn]. intros c H.
      apply andb_prop in H. tauto. }
    rewrite document_cookie_cons, (render_named _ _ Hn0').
    destruct jar as [|nv' jar']; [discriminate Hfind|].
    set (R := CookieJar.document_cookie (nv' :: jar')) in *.
    unfold CookieJar.literal_match at 1. unfold CookieJar.match_here at 1.
    change ((n0 +++ "=" +++ v0) +++ "; " +++ R)
      with ((n0 +++ String "=" v0) +++ "; " +++ R).
    rewrite append_assoc.
    change (String "=" v0 +++ "; " +++ R)
      with (String "=" (v0 +++ "; " +++ R)).
    rewrite (strip_prefix_other name n0 _ Hdiff Hn_eq Hn_e).
    replace (n0 +++ String "=" (v0 +++ "; " +++ R))
      with ((n0 +++ "=" +++ v0 +++ ";") +++ String " " R)
      by (rewrite !append_assoc; reflexivity).
    rewrite match_after_space_skip
      by (rewrite !string_all_app, Hn_sp, Hv0; reflexivity).
    cbn [CookieJar.match_after_space]. rewrite Ascii.eqb_refl.
    exact IH.
Qed.

Lemma read_script_tag_page (st : state) :
  page (exec read_script_tag st) = page st
  /\ cookieName (config_of (exec read_script_tag st)) = cookieName (config_of st)
  /\ cookieExpiry (config_of (exec read_script_tag st))
     = cookieExpiry (config_of st).
Proof.
  destruct (read_script_tag_run st) as (_ & _ & Hp).
  pose proof (read_script_tag_store st) as Hk. unfold keeps in Hk.
  injection Hk as Hn Hd. auto.
Qed.

Lemma start_session (s : value) (st1 st2 : state) :
  getOrCreateSession st1 = (Ok s, st2) ->
  session (script (exec start st1)) = s.
Proof.
  intros Hs. rewrite (start_run s st1 st2 Hs). cbv zeta.
  assert (Hinit : stable (keeps (fun st => session (script st))) init)
    by keeps_tac.
  assert (Hadd : forall k,
            stable (keeps (fun st => session (script st)))
              (addEventListener Document "DOMContentLoaded"
                 (FnDomReady k) false))
    by (intros k st; keeps_leaf).
  destruct (String.eqb _ _); [rewrite Hadd; reflexivity|].
  destruct (configured st2); [rewrite Hinit; reflexivity | reflexivity].
Qed.

(** X17.  A page load that finds in the cookie jar the session a
    previous page left there (an object whose page-view count is an
    integer from -2^53 to below 2^53, stored as the cookie mirrors it)
    continues that session: the session in memory after the load is the
    stored object with isNew false, the page-view count raised by 1 and
    lastActivity set to the first clock reading, so its id, visitorId,
    startTime and whatever identify added (userId, traits, of any
    value) are those of the previous page.  This holds as far as the
    engine reads back what the script wrote and no other cookie can be
    taken for the session cookie. *)
Theorem X17_session_survives_a_reload
    (st : state) (e : environment) (fields : list (string * value)) (n : Z) :
  settled st ->
  session (script st) = VObj fields ->
  Js.lookup "pageViews" fields = VNum n ->
  - 2 ^ 53 <= n < 2 ^ 53 ->
  forallb tidy (cookie_jar (page st)) = true ->
  reads_back (VObj fields) ->
  env_cookies e = cookie_jar (page st) ->
  let s' := session (script (page_load e)) in
  s' = refreshed_session fields n (env_clock e 0)
  /\ (forall k, String.eqb k "isNew" = false ->
                String.eqb k "pageViews" = false ->
                String.eqb k "lastActivity" = false ->
                Js.get s' k = Js.lookup k fields)
  /\ Js.get s' "pageViews" = VNum (n + 1)
  /\ Js.get s' "isNew" = VBool false.
Proof.
  intros (_ & _ & Hjar) Hsession Hviews Hn Htidy
    (text & Htext & Hdecode & Hparse) Hcookies.
  cbv zeta. unfold page_load. rewrite main_run.
  set (st00 := State initial_vars (fresh_browser e)).
  destruct (read_script_tag_page st00) as (Hpage & Hname & Hdays).
  set (st1 := exec read_script_tag st00) in *.
  assert (Hstored : stored_text st1 = Some (cookie_text (VObj fields))).
  { unfold stored_text. rewrite Hname, Hpage. cbn [st00 config_of script
      initial_vars CONFIG cookieName initial_config page fresh_browser
      cookie_jar].
    rewrite Hcookies. unfold CookieJar.regexp_match.
    cbn [name_text wa_session]. apply literal_match_found;
      [reflexivity | apply encodeURIComponent_value
       | apply cookie_text_object_nonempty | exact Htidy |].
    rewrite Hjar, Hsession. reflexivity. }
  assert (Hparsed : parsed_cookie st1 = VObj fields).
  { unfold parsed_cookie. rewrite Hstored. unfold cookie_text.
    rewrite Htext, Hdecode, Hparse. reflexivity. }
  pose proof (getOrCreateSession_stored st1 fields n Hparsed Hviews) as Hrun.
  cbv zeta in Hrun.
  rewrite (start_session _ _ _ Hrun).
  assert (Hnow : now_of st1 = env_clock e 0)
    by (unfold now_of; rewrite Hpage; reflexivity).
  rewrite Hnow.
  split; [reflexivity|]. unfold refreshed_session. cbn [Js.get].
  split; [|split].
  - intros k H1 H2 H3. rewrite !lookup_assoc_set, H1, H2, H3. reflexivity.
  - rewrite !lookup_assoc_set. apply next_count_exact, Hn.
  - rewrite !lookup_assoc_set. reflexivity.
Qed.

(** *** The listeners of init *)

Lemma listener_eqb_callback (l r : listener) :
  listener_eqb l r = true ->
  match l_callback l, l_callback r with
  | FnDomReady _, FnDomReady _ | FnHiddenFlush _, FnHiddenFlush _
  | FnBeforeUnload _, FnBeforeUnload _ => True
  | FnDomReady _, _ | _, FnDomReady _ | FnHiddenFlush _, _
  | _, FnHiddenFlush _ | FnBeforeUnload _, _ | _, FnBeforeUnload _ => False
  | _, _ => True
  end.
Proof.
  unfold listener_eqb. intros H. apply andb_prop in H. destruct H as [_ H].
  destruct (l_callback l), (l_callback r); try discriminate; exact I.
Qed.

Lemma unheard_by_ready (l : listener) (ready : list listener) :
  forallb ready_listener ready = true ->
  match l_callback l with FnDomReady _ => false | _ => true end = true ->
  existsb (listener_eqb l) ready = false.
Proof.
  intros Hr Hl. induction ready as [|r ready IH]; [reflexivity|].
  cbn [forallb existsb] in *. apply andb_prop in Hr. destruct Hr as [Hr Hrs].
  rewrite (IH Hrs), Bool.orb_false_r.
  destruct (listener_eqb l r) eqn:He; [|reflexivity].
  apply listener_eqb_callback in He.
  unfold ready_listener in Hr. apply andb_prop in Hr. destruct Hr as [_ Hr].
  destruct (l_callback l), (l_callback r); try discriminate; contradiction.
Qed.

Lemma registered_first (k : nat) (ready : list listener) :
  forallb ready_listener ready = true ->
  fold_left registered (named_listeners ++ arrow_listeners k) ready
  = ready ++ named_listeners ++ arrow_listeners k.
Proof.
  intros Hr.
  assert (Hstep : forall l done rest,
            match l_callback l with FnDomReady _ => false | _ => true end = true ->
            existsb (listener_eqb l) done = false ->
            fold_left registered (l :: rest) (ready ++ done)
            = fold_left registered rest (ready ++ done ++ [l])).
  { intros l done rest Hl Hd. cbn [fold_left]. unfold registered at 2.
    rewrite existsb_app, (unheard_by_ready l ready Hr Hl), Hd.
    cbn [orb]. rewrite <- app_assoc. reflexivity. }
  rewrite <- (app_nil_r ready) at 1.
  unfold named_listeners, arrow_listeners. cbn [Datatypes.app].
  repeat (rewrite Hstep by reflexivity; cbn [Datatypes.app]).
  reflexivity.
Qed.

Lemma registered_again (k : nat) (ls : list listener) :
  hooked ls ->
  hooked (fold_left registered (named_listeners ++ arrow_listeners k) ls).
Proof.
  intros (ready & arrows & -> & Hr & Ha & Hf).
  assert (Hnamed : forall l arrows,
            existsb (listener_eqb l) named_listeners = true ->
            registered (ready ++ named_listeners ++ arrows) l
            = ready ++ named_listeners ++ arrows).
  { intros l arrows' Hl. unfold registered.
    rewrite !existsb_app, Hl, Bool.orb_true_r. reflexivity. }
  assert (Harrow : forall l arrows,
            arrow_listener l = true ->
            forallb arrow_listener arrows = true ->
            existsb hidden_flush_listener arrows = true ->
            exists arrows',
              registered (ready ++ named_listeners ++ arrows) l
              = ready ++ named_listeners ++ arrows'
              /\ forallb arrow_listener arrows' = true
              /\ existsb hidden_flush_listener arrows' = true).
  { intros l arrows' Hl Ha' Hf'. unfold registered.
    destruct (existsb (listener_eqb l) _).
    - exists arrows'. auto.
    - exists (arrows' ++ [l]). rewrite <- !app_assoc.
      split; [reflexivity|]. rewrite forallb_app, existsb_app, Ha', Hf'.
      cbn. rewrite Hl. split; reflexivity. }
  unfold named_listeners at 1, arrow_listeners. cbn [Datatypes.app fold_left].
  rewrite !Hnamed by reflexivity.
  destruct (Harrow (Listener Window "beforeunload" (FnBeforeUnload k) false)
              arrows eq_refl Ha Hf) as (arrows1 & -> & Ha1 & Hf1).
  destruct (Harrow (Listener Document "visibilitychange"
                      (FnHiddenFlush (S k)) false)
              arrows1 eq_refl Ha1 Hf1) as (arrows2 & -> & Ha2 & Hf2).
  exists ready, arrows2. auto.
Qed.

Lemma registered_hooked (k : nat) (ls : list listener) :
  hooked ls \/ forallb ready_listener ls = true ->
  hooked (fold_left registered (named_listeners ++ arrow_listeners k) ls).
Proof.
  intros [H | H]; [apply registered_again, H|].
  rewrite (registered_first k ls H).
  exists ls, (arrow_listeners k). auto.
Qed.

Lemma drives_bind {A B : Type} (m : M A) (k : A -> M B)
    (w : list listener * nat) q r :
  drives m w q -> (forall a w1, q a w1 -> drives (k a) w1 r) ->
  drives (bind m k) w r.
Proof.
  intros Hm Hk st Hw. destruct (Hm st Hw) as (a & st1 & Hrun & Hq).
  destruct (Hk a _ Hq st1 eq_refl) as (b & st2 & Hrun2 & Hr).
  exists b, st2. unfold bind. rewrite Hrun. auto.
Qed.

Lemma drives_register t type cb capture (ls : list listener) (n : nat) :
  drives (addEventListener t type cb capture) (ls, n)
    (fun _ w => w = (registered ls (Listener t type cb capture), n)).
Proof.
  intros st Hw. unfold wiring in Hw. injection Hw as Hl Hn.
  eexists. eexists. split; [reflexivity|].
  unfold wiring, registered, on_page. cbn. rewrite Hl.
  destruct (existsb _ ls); cbn; congruence.
Qed.

Lemma drives_closure (ls : list listener) (n : nat) :
  drives new_closure (ls, n) (fun k w => k = n /\ w = (ls, S n)).
Proof.
  intros st Hw. unfold wiring in Hw. injection Hw as Hl Hn.
  eexists. eexists. split; [reflexivity|].
  unfold wiring. cbn. rewrite Hl, Hn. auto.
Qed.

Lemma drives_keeps {A : Type} (m : M A) (w : list listener * nat) :
  (forall st, exists a, m st = (Ok a, exec m st)) ->
  stable (keeps wiring) m ->
  drives m w (fun _ w1 => w1 = w).
Proof.
  intros Hret Hkeep st Hw. destruct (Hret st) as [a Hrun].
  exists a, (exec m st). split; [exact Hrun|]. rewrite (Hkeep st). exact Hw.
Qed.

Lemma trackPageView_returns (st : state) :
  exists a, trackPageView st = (Ok a, exec trackPageView st).
Proof.
  exists tt. unfold trackPageView, exec, bind, gets. cbv beta iota.
  apply trackEvent_returns.
Qed.

Lemma init_wiring (st : state) :
  configured st = true -> trackMouseMovement (config_of st) = true ->
  wiring (exec init st)
  = (fold_left registered
       (named_listeners ++ arrow_listeners (next_closure (page st)))
       (listeners (page st)),
     S (S (next_closure (page st)))).
Proof.
  intros Hc Hm. unfold configured in Hc.
  unfold init, exec. unfold bind at 1. unfold gets at 1. cbv beta iota.
  rewrite Hc, Hm. cbn [negb]. unfold when at 1. cbv iota.
  match goal with
  | |- wiring (snd (?m st)) = ?w =>
      assert (D : drives m (wiring st) (fun _ w1 => w1 = w))
  end.
  { unfold wiring at 1.
    eapply drives_bind;
      [apply drives_keeps; [apply trackPageView_returns | keeps_tac]
      | intros ? ? ->].
    repeat (eapply drives_bind; [apply drives_register | intros ? ? ->]).
    eapply drives_bind;
      [apply drives_keeps; [intros ?; eexists; reflexivity | keeps_tac]
      | intros ? ? ->].
    eapply drives_bind;
      [apply drives_keeps; [intros ?; eexists; reflexivity | keeps_tac]
      | intros ? ? ->].
    eapply drives_bind; [apply drives_closure | intros ? ? [-> ->]].
    eapply drives_bind; [apply drives_register | intros ? ? ->].
    eapply drives_bind; [apply drives_closure | intros ? ? [-> ->]].
    eapply drives_bind; [apply drives_register | intros ? ? ->].
    eapply drives_bind;
      [apply drives_keeps; [intros ?; eexists; reflexivity | keeps_tac]
      | intros cfg ? ->].
    eapply drives_bind;
      [apply drives_keeps; [intros ?; eexists; reflexivity | keeps_tac]
      | intros s ? ->].
    unfold when. destruct (Js.truthy (debug cfg));
      (apply drives_keeps; [intros ?; eexists; reflexivity | keeps_tac]). }
  destruct (D st eq_refl) as (a & st' & Hrun & Hw). rewrite Hrun. exact Hw.
Qed.

Lemma init_wired (st : state) :
  configured st = true -> trackMouseMovement (config_of st) = true ->
  hooked (listeners (page st))
  \/ forallb ready_listener (listeners (page st)) = true ->
  wired (exec init st).
Proof.
  intros Hc Hm H. pose proof (init_wiring st Hc Hm) as Hw.
  unfold wiring in Hw. injection Hw as Hl _.
  split.
  - assert (Hcfg : config_of (exec init st) = config_of st)
      by (apply (init_quiet ScrollSignal st)).
    rewrite Hcfg. exact Hm.
  - left. rewrite Hl. apply registered_hooked, H.
Qed.

Lemma wired_keeps (st st' : state) : keeps hooks st st' -> wired st -> wired st'.
Proof.
  unfold keeps, hooks, wired. intros H. injection H as Hl Hf Hm.
  rewrite Hl, Hf, Hm. auto.
Qed.

Lemma wired_start (st : state) :
  wired st ->
  hooked (listeners (page st))
  \/ forallb ready_listener (listeners (page st)) = true.
Proof. intros (_ & [H | [H _]]); auto. Qed.

Lemma run_callback_hooks cb arg :
  match cb with FnDomReady _ => False | _ => True end ->
  stable (keeps hooks) (run_callback cb arg).
Proof.
  intros Hcb. destruct cb, arg; cbn [run_callback]; try contradiction;
    keeps_tac.
Qed.

Lemma run_api_hooks c :
  match c with ApiSetSiteId _ => False | _ => True end ->
  stable (keeps hooks) (run_api c).
Proof. intros Hc. destruct c; cbn [run_api]; try contradiction; keeps_tac. Qed.

Lemma dom_ready_wired (st : state) : wired st -> wired (exec dom_ready st).
Proof.
  intros H. destruct (configured st) eqn:Hc.
  - unfold exec. rewrite (dom_ready_unguarded st Hc).
    apply init_wired; [exact Hc | apply H | apply (wired_start st H)].
  - assert (Hrun : dom_ready st = (Ok tt, st)).
    { unfold dom_ready, configured, bind, gets in *. cbv beta iota.
      rewrite Hc. reflexivity. }
    unfold exec. rewrite Hrun. exact H.
Qed.

Lemma setSiteId_wired (s : value) (st : state) :
  wired st -> wired (exec (setSiteId s) st).
Proof.
  intros H. unfold exec. rewrite setSiteId_run.
  destruct (Js.truthy s) eqn:Hs; cbn [andb];
    [destruct (Js.truthy (waInitialized (page st))) eqn:Hf; cbn [negb]|].
  - refine (wired_keeps st _ _ H). reflexivity.
  - apply init_wired; [exact Hs | apply H | apply (wired_start st H)].
  - refine (wired_keeps st _ _ H). reflexivity.
Qed.

Lemma exec_turn_wired (t : turn) (st : state) :
  wired st -> wired (exec_turn t st).
Proof.
  intros H. destruct t as [cb arg | c | h | d].
  - destruct cb;
      try (refine (wired_keeps st _ _ H); apply run_callback_hooks; exact I).
    destruct arg; apply dom_ready_wired, H.
  - destruct c;
      try (refine (wired_keeps st _ _ H); apply run_api_hooks; exact I).
    apply setSiteId_wired, H.
  - exact H.
  - exact H.
Qed.

Lemma run_turns_wired (ts : list turn) (st : state) :
  wired st -> wired (run_turns ts st).
Proof.
  revert st. induction ts as [|t ts IH]; intros st H; [exact H|].
  change (run_turns (t :: ts) st) with (run_turns ts (exec_turn t st)).
  apply IH, exec_turn_wired, H.
Qed.

Lemma page_load_wired (e : environment) : wired (page_load e).
Proof.
  unfold page_load. rewrite main_run.
  set (st0 := State initial_vars (fresh_browser e)).
  assert (H1 : hooks (exec read_script_tag st0) = ([], VUndefined, true)).
  { assert (H : stable (keeps hooks) read_script_tag) by keeps_tac.
    rewrite (H st0). reflexivity. }
  set (st1 := exec read_script_tag st0) in *.
  assert (H2 : hooks (exec getOrCreateSession st1) = ([], VUndefined, true)).
  { assert (H : stable (keeps hooks) getOrCreateSession) by keeps_tac.
    rewrite (H st1). exact H1. }
  destruct (getOrCreateSession st1) as [[s|err] st2] eqn:Hs.
  - rewrite (start_run s st1 st2 Hs). cbv zeta.
    unfold exec in H2. rewrite Hs in H2. cbn [snd] in H2.
    unfold hooks in H2. injection H2 as Hl Hf Hm.
    destruct (String.eqb (readyState (page st2)) "loading").
    + split; [exact Hm|]. right.
      unfold exec, addEventListener, modify, prepared, setInterval, on_page,
        on_script, tick. cbn. rewrite Hl. cbn. rewrite Hf. split; reflexivity.
    + destruct (configured st2) eqn:Hc.
      * apply init_wired; [exact Hc | exact Hm |].
        right. unfold prepared, exec, setInterval, on_page, on_script, tick.
        cbn. rewrite Hl. reflexivity.
      * split; [exact Hm|]. right.
        unfold prepared, exec, setInterval, on_page, on_script, tick.
        cbn. rewrite Hl, Hf. split; reflexivity.
  - unfold start. rewrite exec_bind, Hs.
    unfold exec in H2. rewrite Hs in H2. cbn [snd] in H2.
    unfold hooks in H2. injection H2 as Hl Hf Hm.
    split; [exact Hm|]. right. rewrite Hl, Hf. split; reflexivity.
Qed.

(** *** Which callbacks hear an event *)

Lemma heard_by_name (ev : dom_event) (cb : callback) (ls : list listener) :
  hooked ls -> handler_of ev = Some cb ->
  map l_callback (filter (hears ev) ls) = [cb].
Proof.
  intros (ready & arrows & -> & Hr & Ha & _) Hev.
  rewrite !filter_app.
  rewrite (filter_none (hears ev) ready_listener ready), 
    (filter_none (hears ev) arrow_listener arrows); try assumption.
  - rewrite app_nil_r. destruct ev; inversion Hev; reflexivity.
  - intros [t ty c cap]. unfold arrow_listener, hidden_flush_listener, hears.
    cbn [l_type l_callback l_target l_capture]. intros H.
    apply Bool.orb_true_iff in H.
    destruct H as [H | H]; apply andb_prop in H; destruct H as [H _];
      apply String.eqb_eq in H; subst ty;
      destruct ev; try discriminate Hev; reflexivity.
  - intros [t ty c cap]. unfold ready_listener, hears.
    cbn [l_type l_callback l_target l_capture]. intros H.
    apply andb_prop in H. destruct H as [H _].
    apply String.eqb_eq in H. subst ty.
    destruct ev; try discriminate Hev; reflexivity.
Qed.


Lemma react_by_name (ev : dom_event) (cb : callback) (st : state) :
  hooked (listeners (page st)) -> handler_of ev = Some cb ->
  react (DomEvent ev) st = exec (run_callback cb (event_arg_of ev)) st.
Proof.
  intros H Hev. unfold react, turns_of.
  rewrite <- (map_map l_callback (fun cb => Run cb (event_arg_of ev))).
  rewrite (heard_by_name ev cb _ H Hev). reflexivity.
Qed.

Lemma wired_hooked (st : state) :
  wired st -> Js.truthy (waInitialized (page st)) = true ->
  hooked (listeners (page st)).
Proof. intros (_ & [H | [_ H]]) Hf; [exact H | congruence]. Qed.

(** *** Hiding the page *)





(** X21.  On a page on which init has run, each event of the user runs
    the function init registered for it exactly once, however often
    init has run.  With a site id configured a click is accepted as one
    click event, and a focus, blur or change is accepted as one
    form_interaction event, with the type of the DOM event and the tag
    and path of the element, when the tag name of the target is INPUT,
    TEXTAREA or SELECT; on any other target it changes nothing. *)
Theorem X21_interactions_are_recorded_once
    (e : environment) (ts : list turn) :
  let st := run_turns ts (page_load e) in
  Js.truthy (waInitialized (page st)) = true ->
  (forall ev cb, handler_of ev = Some cb ->
     react (DomEvent ev) st = exec (run_callback cb (event_arg_of ev)) st)
  /\ (configured st = true ->
      forall m,
        emitted (react (DomEvent (EvClick m)) st)
        = emitted st ++ [event_at "click" (click_data m) st])
  /\ (configured st = true ->
      forall ev t, In ev [EvFocus t; EvBlur t; EvChange t] ->
        let st' := react (DomEvent ev) st in
        if existsb (String.eqb (tagName t)) ["INPUT"; "TEXTAREA"; "SELECT"]
        then exists fe,
               emitted st' = emitted st ++ [fe]
               /\ has_type "form_interaction" fe = true
               /\ Js.get fe "eventType" = VStr (event_type ev)
               /\ Js.get (Js.get fe "element") "tag"
                  = VStr (JsString.toLowerCase (tagName t))
               /\ Js.get (Js.get fe "element") "path"
                  = VStr (getElementPath t)
        else st' = st).
Proof.
  cbv zeta. set (st := run_turns ts (page_load e)). intros Hf.
  assert (Hw : wired st) by apply run_turns_wired, page_load_wired.
  pose proof (wired_hooked st Hw Hf) as Hhooked.
  split; [intros ev cb Hev; apply react_by_name; assumption|].
  split.
  - intros Hc m. rewrite (react_by_name (EvClick m) FnTrackClick st Hhooked eq_refl).
    cbn [run_callback event_arg_of]. unfold trackClick.
    destruct (trackEvent_effect "click" (click_data m) st) as (_ & _ & _ & He).
    rewrite Hc in He. exact He.
  - intros Hc ev t Hev.
    assert (Hrun : react (DomEvent ev) st
                   = exec (trackFormInteraction (event_type ev) t) st).
    { destruct Hev as [<- | [<- | [<- | []]]];
        [rewrite (react_by_name (EvFocus t) FnTrackFormInteraction st
                    Hhooked eq_refl)
        |rewrite (react_by_name (EvBlur t) FnTrackFormInteraction st
                    Hhooked eq_refl)
        |rewrite (react_by_name (EvChange t) FnTrackFormInteraction st
                    Hhooked eq_refl)];
        reflexivity. }
    rewrite Hrun. unfold trackFormInteraction.
    destruct (existsb (String.eqb (tagName t)) ["INPUT"; "TEXTAREA"; "SELECT"]);
      cbn [negb]; [|reflexivity].
    match goal with
    | |- context [exec (trackEvent ?ty ?data) st] =>
        destruct (trackEvent_effect ty data st) as (_ & _ & _ & He);
        exists (event_at ty data st)
    end.
    rewrite Hc in He. split; [exact He|]. repeat split; reflexivity.
Qed.

(** *** The console without debug mode *)

#[local] Instance hushed_preorder : PreOrder hushed.
Proof.
  split.
  - intros st _. reflexivity.
  - intros a b c H1 H2 Ha. specialize (H1 Ha).
    assert (Hb : Js.truthy (debug (config_of b)) = false).
    { unfold voice in H1. injection H1 as _ H1. rewrite H1. exact Ha. }
    rewrite (H2 Hb). exact H1.
Qed.

Lemma hushed_keeps (st st' : state) : keeps voice st st' -> hushed st st'.
Proof. intros H _. exact H. Qed.

Lemma trackEvent_hushed type data : stable hushed (trackEvent type data).
Proof.
  intros st Hd. unfold exec. destruct (configured st) eqn:Hc.
  - rewrite (trackEvent_configured _ _ _ Hc). cbv zeta.
    assert (Hp : voice (pushed type (event_at type data st) (tick st))
                 = voice st).
    { unfold pushed. change (config_of (tick st)) with (config_of st).
      rewrite Hd. reflexivity. }
    destruct (batchSize _ <=? _); [|exact Hp].
    rewrite <- Hp.
    assert (H : stable (keeps voice) flush) by keeps_tac.
    apply H.
  - rewrite (trackEvent_unconfigured _ _ _ Hc). unfold warned.
    rewrite Hd. reflexivity.
Qed.

Lemma flush_hushed : stable hushed flush.
Proof.
  assert (H : stable (keeps voice) flush) by keeps_tac.
  intros st. apply hushed_keeps, H.
Qed.

Lemma init_log_hushed (msg : string) (args : config -> value -> list value) :
  stable hushed
    (cfg <- gets config_of ;;
     s <- gets (fun st => session (script st)) ;;
     when (Js.truthy (debug cfg)) (console_log msg (args cfg s))).
Proof.
  intros st Hd. unfold exec, bind, gets. cbv beta iota.
  rewrite Hd. reflexivity.
Qed.

Ltac hushed_leaf := apply hushed_keeps; keeps_leaf.

Ltac hushed_special :=
  idtac;
  match goal with
  | |- stable hushed (trackEvent _ _) => apply trackEvent_hushed
  | |- stable hushed flush => apply flush_hushed
  | |- stable hushed (bind (gets config_of) _) => apply init_log_hushed
  end.

Ltac hushed_tac :=
  open_callers;
  unfold trackPageView, getOrCreateSession, generateId, Cookie_set,
    Cookie_get, set_config;
  walk hushed_special hushed_leaf.

Lemma init_hushed (st : state) :
  configured st = true -> hushed st (exec init st).
Proof.
  intros Hc. unfold configured in Hc.
  unfold init, exec. unfold bind at 1. unfold gets at 1. cbv beta iota.
  rewrite Hc. cbn [negb].
  match goal with
  | |- hushed st (snd (?m st)) =>
      assert (H : stable hushed m); [|exact (H st)]
  end.
  unfold trackPageView. walk hushed_special hushed_leaf.
Qed.

Lemma dom_ready_hushed : stable hushed dom_ready.
Proof.
  intros st. destruct (configured st) eqn:Hc.
  - unfold exec. rewrite (dom_ready_unguarded st Hc).
    transitivity (on_page (set_waInitialized (VBool true)) st);
      [intros _; reflexivity | apply init_hushed; exact Hc].
  - assert (Hrun : dom_ready st = (Ok tt, st)).
    { unfold dom_ready, configured, bind, gets in *. cbv beta iota.
      rewrite Hc. reflexivity. }
    unfold exec. rewrite Hrun. reflexivity.
Qed.

Lemma setSiteId_hushed (s : value) : stable hushed (setSiteId s).
Proof.
  intros st. unfold exec. rewrite setSiteId_run.
  destruct (Js.truthy s) eqn:Hs; cbn [andb];
    [destruct (Js.truthy (waInitialized (page st))) eqn:Hf; cbn [negb]|];
    try (intros _; reflexivity).
  transitivity (on_page (set_waInitialized (VBool true)) (assigned s st));
    [intros _; reflexivity | apply init_hushed; exact Hs].
Qed.

Lemma run_callback_hushed cb arg : stable hushed (run_callback cb arg).
Proof.
  destruct cb; try (destruct arg; apply dom_ready_hushed);
    destruct arg; cbn [run_callback]; hushed_tac.
Qed.

Lemma run_api_hushed c :
  debugging (Call c) = false -> stable hushed (run_api c).
Proof.
  intros Hc. destruct c; cbn [run_api]; cbn [debugging] in Hc;
    try apply setSiteId_hushed; try hushed_tac.
  intros st Hd. unfold voice, exec, api_setDebug, modify, on_script,
    config_of in *. cbn. rewrite Hc, Hd. reflexivity.
Qed.

Lemma run_turns_hushed (ts : list turn) (st : state) :
  forallb (fun t => negb (debugging t)) ts = true ->
  hushed st (run_turns ts st).
Proof.
  revert st. induction ts as [|t ts IH]; intros st Hts; [reflexivity|].
  cbn [forallb] in Hts. apply andb_prop in Hts. destruct Hts as [Ht Hts].
  apply negb_true_iff in Ht.
  change (run_turns (t :: ts) st) with (run_turns ts (exec_turn t st)).
  transitivity (exec_turn t st); [|apply IH, Hts].
  destruct t as [cb arg | c | h | d].
  - apply run_callback_hushed.
  - apply run_api_hushed, Ht.
  - intros _. reflexivity.
  - intros _. reflexivity.
Qed.

Lemma start_hushed : stable hushed start.
Proof.
  intros st1.
  assert (Hg : stable hushed getOrCreateSession) by hushed_tac.
  destruct (getOrCreateSession st1) as [[s|err] st2] eqn:Hs.
  - rewrite (start_run s st1 st2 Hs). cbv zeta.
    assert (H12 : hushed st1 st2)
      by (specialize (Hg st1); unfold exec in Hg; rewrite Hs in Hg; exact Hg).
    transitivity st2; [exact H12|].
    destruct (String.eqb (readyState (page st2)) "loading");
      [intros _; unfold voice, exec, addEventListener, modify, prepared,
         setInterval, on_page, on_script, tick; cbn;
       destruct (existsb _ _); reflexivity|].
    destruct (configured st2) eqn:Hc; [|intros _; reflexivity].
    transitivity (on_page (set_waInitialized (VBool true)) (prepared s st2));
      [intros _; reflexivity | apply init_hushed; exact Hc].
  - unfold start. rewrite exec_bind, Hs.
    specialize (Hg st1). unfold exec in Hg. rewrite Hs in Hg. exact Hg.
Qed.

(** X22.  Without debug mode the script writes nothing to the console:
    when the script tag does not carry data-debug = true, the console is
    empty once the script has run and stays empty over any turns of the
    event loop that do not call setDebug with a truthy value.  This
    holds with or without a site id: a page that configures none is not
    told so, since every call of init is made with a site id
    configured. *)
Theorem X22_console_is_silent_without_debug
    (e : environment) (ts : list turn) :
  debug (config_from (found_script e)) = VBool false ->
  forallb (fun t => negb (debugging t)) ts = true ->
  console (page (run_turns ts (page_load e))) = [].
Proof.
  intros Hd Hts.
  set (st0 := State initial_vars (fresh_browser e)).
  assert (H1 : voice (exec read_script_tag st0) = ([], false)).
  { unfold voice.
    destruct (read_script_tag_run st0) as (_ & _ & Hp). rewrite Hp.
    unfold st0. rewrite read_script_tag_config, Hd. reflexivity. }
  assert (H2 : voice (page_load e) = ([], false)).
  { unfold page_load. fold st0. rewrite main_run.
    rewrite (start_hushed (exec read_script_tag st0)); [exact H1|].
    unfold voice in H1. injection H1 as _ H1. exact H1. }
  assert (H3 : voice (run_turns ts (page_load e)) = ([], false)).
  { rewrite (run_turns_hushed ts (page_load e) Hts); [exact H2|].
    unfold voice in H2. injection H2 as _ H2. exact H2. }
  unfold voice in H3. injection H3 as H3 _. exact H3.
Qed.

End Properties.

(** * Concrete runs *)

Lemma C1_tenth_event_flushes :
  configured sample_nine = true
  /\ length (eventQueue (script sample_nine)) = 9%nat
  /\ eventQueue (script (exec (trackClick padded_click) sample_nine)) = []
  /\ exists t,
       network (page (exec (trackClick padded_click) sample_nine))
       = network (page sample_nine) ++ [t]
       /\ length (events_of t) = 10%nat.
Proof.
  assert (Hc : configured sample_nine = true) by (vm_compute; reflexivity).
  split; [exact Hc|]. split; [vm_compute; reflexivity|].
  destruct (@C1_enqueue_flushes_at_batch_size Reference.engine
              "click" (click_data padded_click) sample_nine Hc)
    as (_ & _ & _ & Hfull & _).
  destruct Hfull as (Hq & t & Hn & Ht); [vm_compute; discriminate|].
  split; [exact Hq|]. exists t. split; [exact Hn|].
  rewrite Ht. vm_compute. reflexivity.
Defined.

Lemma C3_idle_page_drops_events :
  configured sample_idle = false
  /\ exec (trackClick padded_click) sample_idle = sample_idle
  /\ length (eventQueue (script (exec (trackClick padded_click) sample_idle)))
     = 0%nat.
Proof.
  assert (Hc : configured sample_idle = false) by (vm_compute; reflexivity).
  split; [exact Hc|].
  destruct (@C3_unconfigured_enqueue_is_noop Reference.engine
              "click" (click_data padded_click) sample_idle Hc)
    as (_ & _ & _ & _ & Hlen & Hsame & _).
  split; [apply Hsame | apply Hlen]; vm_compute; reflexivity.
Defined.

Lemma C9_padded_click_text :
  exists ev,
    emitted (exec (trackClick padded_click) sample_active)
    = emitted sample_active ++ [ev]
    /\ recorded_text ev = VStr (repeat_string 99 "a").
Proof.
  assert (Hc : configured sample_active = true) by (vm_compute; reflexivity).
  destruct (C9_click_text_is_cut_then_trimmed padded_click sample_active Hc)
    as (ev & _ & He & _ & Ht & _).
  exists ev. split; [exact He|]. rewrite Ht. vm_compute. reflexivity.
Defined.

(** C9 as the specification words it fails: on the padded button the
    script records 99 letters, where stripping first and cutting then
    would give 100. *)
Lemma C9_strip_then_cut_differs :
  exists ev,
    eventQueue (script (exec (trackClick padded_click) sample_active))
    = eventQueue (script sample_active) ++ [ev]
    /\ recorded_text ev = VStr (repeat_string 99 "a")
    /\ spec_click_text padded_button = repeat_string 100 "a"
    /\ recorded_text ev <> VStr (spec_click_text (target padded_click)).
Proof.
  eexists. split; [vm_compute; reflexivity|].
  split; [vm_compute; reflexivity|]. split; [vm_compute; reflexivity|].
  vm_compute. discriminate.
Qed.

(** C2 as the specification words it fails: on a stored record whose
    counter is 2^53 the script returns the record with the counter still
    at 2^53, the double nearest to 2^53 + 1. *)
Lemma C2_counter_stays_at_limit :
  @parsed_cookie Reference.engine (before_script jar_at_limit)
  = VObj limit_fields
  /\ Js.lookup "pageViews" limit_fields = VNum 9007199254740992
  /\ exists s',
       fst (@getOrCreateSession Reference.engine (before_script jar_at_limit))
       = Ok s'
       /\ Js.get s' "id" = Js.lookup "id" limit_fields
       /\ Js.get s' "visitorId" = Js.lookup "visitorId" limit_fields
       /\ Js.get s' "isNew" = VBool false
       /\ Js.get s' "pageViews" = VNum 9007199254740992
       /\ Js.get s' "pageViews" <> VNum (9007199254740992 + 1).
Proof.
  split; [vm_compute; reflexivity|]. split; [reflexivity|].
  exists (VObj (Js.assoc_set "lastActivity" (VNum 1700000000000) limit_fields)).
  split; [vm_compute; reflexivity|].
  split; [reflexivity|]. split; [reflexivity|]. split; [reflexivity|].
  split; [reflexivity|]. vm_compute. discriminate.
Qed.

Lemma C2_second_visit_refreshes :
  exists s' st',
    @getOrCreateSession Reference.engine (before_script jar_after_visit)
    = (Ok s', st')
    /\ Js.get s' "id" = Js.get (session (script sample_active)) "id"
    /\ Js.get s' "visitorId" = Js.get (session (script sample_active)) "visitorId"
    /\ Js.get s' "isNew" = VBool false
    /\ Js.get s' "pageViews" = VNum 2
    /\ @Cookie_get Reference.engine wa_session st' = (Ok s', st').
Proof.
  set (st := before_script jar_after_visit).
  assert (Hfields : @parsed_cookie Reference.engine st = VObj stored_fields)
    by (vm_compute; reflexivity).
  assert (Hviews : Js.lookup "pageViews" stored_fields = VNum 1)
    by (vm_compute; reflexivity).
  assert (Hname : cookie_name_ok (cookieName (config_of st)) = true)
    by (vm_compute; reflexivity).
  assert (Hdays : 0 < cookieExpiry (config_of st))
    by (vm_compute; reflexivity).
  destruct (@C2_valid_cookie_is_refreshed Reference.engine st stored_fields 1
              Hfields Hviews Hname Hdays)
    as (s' & st' & Hrun & Hs' & Hi & Hv & Hnew & _ & Hpv & Hcfg & _ & Hback).
  exists s', st'. split; [exact Hrun|].
  split; [rewrite Hi; vm_compute; reflexivity|].
  split; [rewrite Hv; vm_compute; reflexivity|].
  split; [exact Hnew|].
  split; [apply Hpv; change (2 ^ 53) with 9007199254740992; lia|].
  rewrite Hcfg in Hback. apply Hback.
  - vm_compute. reflexivity.
  - rewrite Hs'. eexists. repeat split; vm_compute; reflexivity.
Defined.

Lemma C7_corrupt_cookie_starts_over :
  @absent_or_unparsable Reference.engine (before_script jar_corrupt)
  /\ exists start now st',
       @getOrCreateSession Reference.engine (before_script jar_corrupt)
       = (Ok (fresh_session "3a18f6d4-b290-47e5-83a1-8f6d4b2907e5"
                "c3a18f6d-4b29-407e-9c3a-18f6d4b2907e" start now), st').
Proof.
  assert (H : @absent_or_unparsable Reference.engine (before_script jar_corrupt))
    by (vm_compute; reflexivity).
  split; [exact H|].
  destruct (@C7_absent_or_corrupt_cookie_gives_fresh_session Reference.engine
              (before_script jar_corrupt) H)
    as (_ & _ & _ & _ & _ & _ & _ & (st' & Hrun) & _).
  eexists _, _, st'. exact Hrun.
Defined.

(** C8.  The script loads while the document is loading, without a site
    id; the page calls setSiteId with T1, which sets the flag and runs
    init; DOMContentLoaded then runs init once more: a second pageview, a
    second flush timer and a second beforeunload listener. *)
Lemma C8_init_runs_twice :
  configured sample_late = false
  /\ waInitialized (page sample_late) = VUndefined
  /\ waInitialized (page late_configured) = VBool true
  /\ count_type "pageview" (emitted late_configured) = 1%nat
  /\ length (filter is_flush_timer (intervals (page late_configured))) = 1%nat
  /\ length (filter is_unload_listener (listeners (page late_configured))) = 1%nat
  /\ count_type "pageview" (emitted late_ready) = 2%nat
  /\ length (filter is_flush_timer (intervals (page late_ready))) = 2%nat
  /\ length (filter is_unload_listener (listeners (page late_ready))) = 2%nat.
Proof. vm_compute. repeat split; reflexivity. Qed.

Example scroll_run_depths :
  scroll_depths
    (emitted (@run_turns Reference.engine scroll_run sample_active))
  = [25; 60].
Proof. vm_compute. reflexivity. Qed.

Example move_run_samples :
  @mouse_times Reference.engine move_run sample_active
  = [1700000000200; 1700000000280; 1700000000320; 1700000000400;
     1700000000440]
  /\ @accepted_times Reference.engine move_run sample_active
     = [1700000000200; 1700000000320; 1700000000440]
  /\ moves (@run_turns Reference.engine move_run sample_active) = 3%nat.
Proof. vm_compute. repeat split; reflexivity. Qed.

Lemma C4_scroll_run_is_sparse :
  scroll_depths
    (emitted (@run_turns Reference.engine scroll_run
                (@page_load Reference.engine
                   (sample_environment "complete" (Some "T1") []))))
  = [25; 60]
  /\ sparse 0 [25; 60]
  /\ (length [25; 60] <= 9)%nat.
Proof.
  assert (Hd : scroll_depths
                 (emitted (@run_turns Reference.engine scroll_run
                             (@page_load Reference.engine
                                (sample_environment "complete"
                                   (Some "T1") []))))
               = [25; 60]) by (vm_compute; reflexivity).
  destruct (@C4_scroll_depths_sparse Reference.engine
              (sample_environment "complete" (Some "T1") [])) as [H _].
  specialize (H scroll_run). cbv zeta in H.
  rewrite Hd in H. destruct H as (Hs & _ & Hlen).
  split; [exact Hd|]. split; [exact Hs|].
  apply Hlen. repeat constructor; lia.
Defined.

Lemma C5_two_moves_one_sample :
  @mouse_times Reference.engine
    (repeat (Run FnTrackMouseMove (MouseArg padded_click)) 2) sample_active
  = [1700000000200; 1700000000280]
  /\ (moves (@run_turns Reference.engine
               (repeat (Run FnTrackMouseMove (MouseArg padded_click)) 2)
               sample_active)
      <= moves sample_active + 1)%nat
  /\ moves sample_active = 0%nat.
Proof.
  set (ts := repeat (Run FnTrackMouseMove (MouseArg padded_click)) 2).
  assert (Ht : @mouse_times Reference.engine ts sample_active
               = [1700000000200; 1700000000280]) by (vm_compute; reflexivity).
  split; [exact Ht|]. split; [|vm_compute; reflexivity].
  destruct (@C5_mouse_samples_throttled Reference.engine) as (_ & _ & _ & Hw).
  apply (Hw 1700000000200 ts sample_active). rewrite Ht.
  repeat constructor; vm_compute; intuition discriminate.
Defined.

Lemma C6_second_flush_sends_nothing :
  length (network (page sample_nine)) = 0%nat
  /\ length (network (page (exec flush sample_nine))) = 1%nat
  /\ exec flush (exec flush sample_nine) = exec flush sample_nine.
Proof.
  destruct (C6_flush_idle_and_idempotent sample_nine) as (_ & Hsecond & Hone).
  split; [vm_compute; reflexivity|]. split; [vm_compute; reflexivity|].
  unfold exec at 1. rewrite Hsecond. reflexivity.
Defined.

Lemma C10_clearing_the_site_id_silences :
  siteId (config_of (exec (setSiteId VNull) sample_active)) = VNull
  /\ length (listeners (page (exec (setSiteId VNull) sample_active))) = 9%nat
  /\ length (intervals (page (exec (setSiteId VNull) sample_active))) = 2%nat
  /\ fst (createEvent "click" (click_data padded_click)
            (exec (setSiteId VNull) sample_active))
     = Ok None.
Proof.
  destruct (C10_setSiteId_overwrites VNull sample_active) as [Hid Hrest].
  destruct (Hrest eq_refl) as (_ & Hpage & _ & Hlater).
  split; [exact Hid|].
  split; [rewrite Hpage; vm_compute; reflexivity|].
  split; [rewrite Hpage; vm_compute; reflexivity|].
  destruct (Hlater (exec (setSiteId VNull) sample_active) "click"
              (click_data padded_click) Hid) as [Hcreate _].
  exact (f_equal fst Hcreate).
Defined.

Lemma X2_session_cookie_deleted :
  cookie_jar (page (exec (Cookie_delete "wa_session")
                      (before_script jar_corrupt)))
  = [("theme", "dark")]
  /\ fst (@Cookie_get Reference.engine wa_session
            (exec (Cookie_delete "wa_session") (before_script jar_corrupt)))
     = Ok VNull.
Proof.
  assert (Hname : cookie_name_ok "wa_session" = true) by reflexivity.
  assert (Hnow : 0 <= now_of (before_script jar_corrupt))
    by (vm_compute; discriminate).
  assert (Htidy : forallb tidy (cookie_jar (page (before_script jar_corrupt)))
                  = true) by reflexivity.
  destruct (@X2_Cookie_delete_removes Reference.engine wa_session
              (before_script jar_corrupt) Hname Hnow Htidy)
    as (_ & Hjar & _ & Hget & _).
  change (name_text wa_session) with "wa_session" in Hjar, Hget.
  split; [rewrite Hjar; reflexivity|].
  exact (f_equal fst Hget).
Defined.

Lemma sample_clock_monotone (site : option string)
    (jar : list (string * string)) (ready : string) :
  monotone (env_clock (sample_environment ready site jar)).
Proof. intros i j Hij. unfold sample_environment. cbn [env_clock]. lia. Qed.

Lemma X3_sample_scroll_depths :
  let ds := scroll_depths
              (emitted (@run_turns Reference.engine scroll_run
                          (@page_load Reference.engine sample_page))) in
  Forall (fun d => 0 <= d <= 100) ds
  /\ (length ds <= 9)%nat
  /\ (forall d, scroll_in_range d = true -> 0 <= scroll_depth d <= 100)
  /\ (forall d, doc_height d <= 0 -> scroll_depth d = 0).
Proof.
  apply (@X3_scroll_depth_is_a_percentage Reference.engine sample_page
           scroll_run); vm_compute; reflexivity.
Defined.

Lemma X6_sample_engagement :
  let st0 := @page_load Reference.engine sample_page in
  let st := @run_turns Reference.engine sample_visit st0 in
  engagementTime (script st0) = 0
  /\ 0 <= engagementTime (script st)
  /\ engagementTime (script st)
     <= lastEngagementCheck (script st) - lastEngagementCheck (script st0)
  /\ lastEngagementCheck (script st) <= now_of st
  /\ (hidden (dom_of (page st)) = true ->
      engagementTime (script (@exec unit (@updateEngagement) st))
      = engagementTime (script st)).
Proof.
  apply (@X6_engagement_time_bounded Reference.engine sample_page
           sample_visit).
  - apply sample_clock_monotone.
  - vm_compute. discriminate.
Defined.

Lemma X8_sample_time_order :
  let st := @run_turns Reference.engine sample_visit
              (@page_load Reference.engine sample_page) in
  StronglySorted Z.le (map stamp (emitted st))
  /\ Forall (fun t => t <= now_of st) (map stamp (emitted st)).
Proof.
  apply (@X8_events_are_in_time_order Reference.engine sample_page
           sample_visit).
  apply sample_clock_monotone.
Defined.

Lemma X10_sample_quiet_page :
  unhooked (@run_turns Reference.engine sample_quiet_visit
              (@page_load Reference.engine sample_quiet_page)).
Proof.
  apply (@X10_unconfigured_page_is_unhooked Reference.engine
           sample_quiet_page sample_quiet_visit);
    vm_compute; reflexivity.
Defined.


Lemma X12_sample_first_event :
  let st := @page_load Reference.engine sample_loading in
  let started :=
    if String.eqb (env_readyState sample_loading) "loading"
    then @react Reference.engine (DomEvent EvDOMContentLoaded)
           (@react_all Reference.engine sample_bystanders st)
    else st in
  (String.eqb (env_readyState sample_loading) "loading" = true ->
   emitted (@react_all Reference.engine sample_bystanders st) = [])
  /\ exists ev,
       emitted started = [ev]
       /\ has_type "pageview" ev = true
       /\ Js.get ev "pageViewNumber" = Js.get (session (script st)) "pageViews"
       /\ Js.get ev "isNewVisitor" = Js.get (session (script st)) "isNew"
       /\ Js.truthy (waInitialized (page started)) = true.
Proof.
  apply (@X12_tracking_starts_with_a_pageview Reference.engine sample_loading
           sample_bystanders);
    vm_compute; reflexivity.
Defined.

(** Why X12 sets calls of track aside: one made before DOMContentLoaded
    is accepted at once, ahead of the pageview. *)
Example early_track_precedes_pageview :
  map (fun ev => Js.get ev "type")
    (emitted
       (@react Reference.engine (DomEvent EvDOMContentLoaded)
          (@react Reference.engine (HostCall (ApiTrack "signup" VNull))
             (@page_load Reference.engine sample_loading))))
  = [VStr "custom:signup"; VStr "pageview"].
Proof. vm_compute. reflexivity. Qed.

Lemma X13_sample_readdressed_batch :
  let st' := @exec unit (@flush)
               (@exec unit (setSiteId (VStr "T2"))
                  (@exec unit (api_setEndpoint (VStr "https://collect.example/a"))
                     sample_nine)) in
  exists t,
    network (page st') = network (page sample_nine) ++ [t]
    /\ events_of t = eventQueue (script sample_nine)
    /\ url_of t = VStr "https://collect.example/a"
    /\ Js.get (payload_of t) "site_id" = VStr "T2"
    /\ (forall h, site_header t = Some h -> h = VStr "T2")
    /\ eventQueue (script st') = [].
Proof.
  apply X13_batch_is_addressed_at_flush.
  - vm_compute. discriminate.
  - reflexivity.
  - vm_compute. reflexivity.
Defined.


Lemma X16_sample_error :
  exists ev,
    emitted (@exec unit
               (trackError (VStr "boom") (VStr "app.js")
                  (VNum 3) (VNum 14) (Some "Error: boom at app.js:3:14"))
               sample_active)
    = emitted sample_active ++ [ev]
    /\ has_type "error" ev = true
    /\ Js.get ev "message" = VStr "boom"
    /\ Js.get ev "source" = VStr "app.js"
    /\ Js.get ev "line" = VNum 3
    /\ Js.get ev "column" = VNum 14
    /\ Js.get ev "stack"
       = VStr (JsString.slice0 500 "Error: boom at app.js:3:14")
    /\ (1 <= String.length (JsString.slice0 500 "Error: boom at app.js:3:14")
        <= 500)%nat.
Proof.
  apply (X16_error_stack_is_bounded (VStr "boom")
           (VStr "app.js") (VNum 3) (VNum 14)
           (Some "Error: boom at app.js:3:14") sample_active).
  vm_compute. reflexivity.
Defined.

Lemma X17_sample_return_visit :
  let s' := session (script (@page_load Reference.engine sample_return)) in
  s' = refreshed_session visited_fields 1 (env_clock sample_return 0)
  /\ (forall k, String.eqb k "isNew" = false ->
                String.eqb k "pageViews" = false ->
                String.eqb k "lastActivity" = false ->
                Js.get s' k = Js.lookup k visited_fields)
  /\ Js.get s' "pageViews" = VNum (1 + 1)
  /\ Js.get s' "isNew" = VBool false.
Proof.
  apply (@X17_session_survives_a_reload Reference.engine sample_visited
           sample_return visited_fields 1).
  - vm_compute. repeat split; reflexivity.
  - vm_compute. reflexivity.
  - vm_compute. reflexivity.
  - change (2 ^ 53) with 9007199254740992. lia.
  - vm_compute. reflexivity.
  - eexists. repeat split; vm_compute; reflexivity.
  - vm_compute. reflexivity.
Defined.

Lemma X18_sample_second_site_id :
  let st1 := @exec unit (setSiteId (VStr "T1")) sample_idle in
  let st2 := @run_turns Reference.engine
               [Run FnTrackClick (MouseArg padded_click)] st1 in
  Js.truthy (waInitialized (page st2)) = true
  /\ setSiteId (VStr "T2") st2 = (Ok tt, assigned (VStr "T2") st2)
  /\ page (@exec unit (setSiteId (VStr "T2")) st2) = page st2
  /\ eventQueue (script (@exec unit (setSiteId (VStr "T2")) st2))
     = eventQueue (script st2).
Proof.
  apply (@X18_setSiteId_initialises_once Reference.engine (VStr "T1")
           (VStr "T2") [Run FnTrackClick (MouseArg padded_click)] sample_idle).
  reflexivity.
Defined.


Lemma X21_sample_interactions :
  let st := @run_turns Reference.engine sample_late_visit
              (@page_load Reference.engine sample_late_page) in
  (forall ev cb, handler_of ev = Some cb ->
     @react Reference.engine (DomEvent ev) st
     = exec (@run_callback Reference.engine cb (event_arg_of ev)) st)
  /\ (configured st = true ->
      forall m,
        emitted (@react Reference.engine (DomEvent (EvClick m)) st)
        = emitted st ++ [event_at "click" (click_data m) st])
  /\ (configured st = true ->
      forall ev t, In ev [EvFocus t; EvBlur t; EvChange t] ->
        let st' := @react Reference.engine (DomEvent ev) st in
        if existsb (String.eqb (tagName t)) ["INPUT"; "TEXTAREA"; "SELECT"]
        then exists fe,
               emitted st' = emitted st ++ [fe]
               /\ has_type "form_interaction" fe = true
               /\ Js.get fe "eventType" = VStr (event_type ev)
               /\ Js.get (Js.get fe "element") "tag"
                  = VStr (JsString.toLowerCase (tagName t))
               /\ Js.get (Js.get fe "element") "path"
                  = VStr (getElementPath t)
        else st' = st).
Proof.
  apply (@X21_interactions_are_recorded_once Reference.engine
           sample_late_page sample_late_visit).
  vm_compute. reflexivity.
Defined.

Lemma X22_sample_silent_page :
  console (page (@run_turns Reference.engine sample_quiet_visit
                   (@page_load Reference.engine sample_quiet_page))) = [].
Proof.
  apply (@X22_console_is_silent_without_debug Reference.engine
           sample_quiet_page sample_quiet_visit);
    vm_compute; reflexivity.
Defined.
